(** * Call-audit application: scoring, retry, proxy endpoint and converter

    A shallow embedding of the pure and effectful cores of the sales-call
    auditing application:

    - [src/services/geminiService.ts]: [withRetry], [calculateDeterministicScore]
    - [src/api/gemini.ts]: the proxy [handler]
    - [src/services/firebaseService.ts]: [callAnalysisConverter.fromFirestore]
    - [src/utils/leadAnalytics.ts]: [calculateLeadStrength]

    JavaScript numbers are IEEE-754 binary64 values.  They are modelled with
    the executable, axiom-free specification of binary64 arithmetic of the
    standard library ([spec_float] with [prec = 53], [emax = 1024]), so that
    every arithmetic step of the source is evaluated with the rounding the
    engine performs. *)

From Stdlib Require Import ZArith Zpower QArith Qround Qpower Lqa Lia List Bool Ascii.
From Stdlib Require Import Floats.SpecFloat.
From stdpp Require Import gmap strings list.

Local Open Scope string_scope.
Local Open Scope Z_scope.

(* ===================================================================== *)
(** ** JavaScript numbers *)
(* ===================================================================== *)

Module Num.

Definition number : Type := spec_float.

Definition prec : Z := 53.
Definition emax : Z := 1024.

(** The number denoted by an integer literal (or by an integer count). *)
Definition of_Z (z : Z) : number := binary_normalize prec emax z 0 false.

Definition of_nat (n : nat) : number := of_Z (Z.of_nat n).

Definition add : number -> number -> number := SFadd prec emax.
Definition mul : number -> number -> number := SFmul prec emax.
Definition div : number -> number -> number := SFdiv prec emax.

(** [a <= b] and [a >= b] of the language: false as soon as one side is NaN. *)
Definition leb (a b : number) : bool := SFleb a b.
Definition geb (a b : number) : bool := SFleb b a.

(** Structural equality of two numbers (it tells [+0] from [-0]). *)
Definition eqb (a b : number) : bool :=
  match a, b with
  | S754_zero s, S754_zero t => Bool.eqb s t
  | S754_infinity s, S754_infinity t => Bool.eqb s t
  | S754_nan, S754_nan => true
  | S754_finite s m e, S754_finite t n f =>
      Bool.eqb s t && Pos.eqb m n && Z.eqb e f
  | _, _ => false
  end.

(** The rational number a finite [x] stands for. *)
Definition to_Q (x : number) : Q :=
  match x with
  | S754_finite s m e => Qmult (inject_Z (cond_Zopp s (Zpos m))) (Qpower (2 # 1) e)
  | _ => 0 # 1
  end.

(** Decimal literals of the sources, as the nearest binary64 value. *)
Definition lit_0_15 : number := S754_finite false 5404319552844595 (-55).
Definition lit_0_6 : number := S754_finite false 5404319552844595 (-53).
Definition lit_0_3 : number := S754_finite false 5404319552844595 (-54).
Definition lit_0_2 : number := S754_finite false 7205759403792794 (-55).
Definition lit_0_1 : number := S754_finite false 7205759403792794 (-56).

(** ToBoolean on numbers: [+0], [-0] and NaN are falsy. *)
Definition toBoolean (x : number) : bool :=
  match x with
  | S754_zero _ | S754_nan => false
  | _ => true
  end.

(** [x || d] where both operands are numbers. *)
Definition or_else (x d : number) : number := if toBoolean x then x else d.

(** [Math.min(a, b)]: NaN if either argument is NaN, and [-0] is below [+0]. *)
Definition Math_min (a b : number) : number :=
  match SFcompare a b with
  | None => S754_nan
  | Some Lt => a
  | Some Gt => b
  | Some Eq =>
      match a with
      | S754_zero true => a
      | _ => b
      end
  end.

(** [floor (x + 1/2)] computed exactly, for [x = ± m * 2^e] with [e < 0]. *)
Definition round_half_up (s : bool) (m : positive) (e : Z) : Z :=
  (2 * cond_Zopp s (Zpos m) + 2 ^ (- e)) / 2 ^ (1 - e).

(** [Math.round(x)]: the integer nearest to [x], ties going up; NaN, the
    infinities and the zeros are returned as they are, and a negative [x]
    that rounds to zero gives [-0]. *)
Definition Math_round (x : number) : number :=
  match x with
  | S754_finite s m e =>
      if 0 <=? e then x
      else
        let z := round_half_up s m e in
        if z =? 0 then S754_zero s else of_Z z
  | _ => x
  end.

End Num.

Import Num.

(* ===================================================================== *)
(** ** JavaScript values *)
(* ===================================================================== *)

(** The JSON-like values that travel through the application: API
    payloads, document-store fields, thrown errors.  [JTimestamp] is the
    document store's timestamp object, the only value here that carries a
    [toDate] method. *)
#[warnings="-register-all"]
Inductive JsVal : Type :=
| JUndefined
| JNull
| JBool (b : bool)
| JNum (n : number)
| JStr (s : string)
| JArr (l : list JsVal)
| JObj (o : gmap string JsVal)
| JTimestamp (millis : Z).

(** ToBoolean. *)
Definition truthy (v : JsVal) : bool :=
  match v with
  | JUndefined | JNull => false
  | JBool b => b
  | JNum n => Num.toBoolean n
  | JStr s => negb (String.eqb s "")
  | JArr _ | JObj _ | JTimestamp _ => true
  end.

(** [a || b]. *)
Definition js_or (a b : JsVal) : JsVal := if truthy a then a else b.

(** [v.k] for a [v] that is neither [null] nor [undefined], and a key [k]
    that is not a built-in property of strings or arrays (none of the keys
    read by the sources is). *)
Definition getProp (v : JsVal) (k : string) : JsVal :=
  match v with
  | JObj o => default JUndefined (o !! k)
  | _ => JUndefined
  end.

(** [v?.[k]]. *)
Definition optProp (v : JsVal) (k : string) : JsVal :=
  match v with
  | JUndefined | JNull => JUndefined
  | _ => getProp v k
  end.

(** [v === true]. *)
Definition is_true (v : JsVal) : bool :=
  match v with
  | JBool true => true
  | _ => false
  end.

(** [v === 500]. *)
Definition is_500 (v : JsVal) : bool :=
  match v with
  | JNum n => SFeqb n (of_Z 500)
  | _ => false
  end.

(** [s.includes(sub)] on strings. *)
Fixpoint str_includes (s sub : string) : bool :=
  String.prefix sub s
  || match s with
     | EmptyString => false
     | String _ rest => str_includes rest sub
     end.

(** The outcome of evaluating a call or of awaiting a promise: a value, or
    a thrown (rejected) error. *)
Inductive Completion (T : Type) : Type :=
| Fulfilled (value : T)
| Rejected (err : JsVal).

Arguments Fulfilled {T} value.
Arguments Rejected {T} err.

(** A [TypeError] raised by the engine, as the error object the [catch]
    clauses see: only its [message] is ever read. *)
Definition typeError (message : string) : JsVal :=
  JObj {[ "message" := JStr message ]}.

(* ===================================================================== *)
(** ** types.ts *)
(* ===================================================================== *)

Inductive LeadType : Type := NEW_LEAD | OLD_LEAD.

Inductive RelationshipType : Type := LEAD | CLIENT.

(* ===================================================================== *)
(** ** services/geminiService.ts *)
(* ===================================================================== *)

Module GeminiService.

(** *** [withRetry] *)

(** What a run of [withRetry] does besides computing its result. *)
Inductive Event : Type :=
| Invoke                        (* fn() *)
| Warn (delay : Z) (retries : nat)    (* console.warn(...) *)
| Sleep (delay : Z).            (* setTimeout(r, delay) *)

(** [err.message?.includes('500')], as far as its truth value goes.  The
    call throws when [message] is neither a string nor an array. *)
Definition messageIncludes500 (err : JsVal) : Completion bool :=
  match err with
  | JUndefined =>
      Rejected (typeError "Cannot read properties of undefined (reading 'message')")
  | JNull =>
      Rejected (typeError "Cannot read properties of null (reading 'message')")
  | _ =>
      match getProp err "message" with
      | JUndefined | JNull => Fulfilled false
      | JStr s => Fulfilled (str_includes s "500")
      | JArr l =>
          Fulfilled
            (existsb (fun x => match x with
                               | JStr s => String.eqb s "500"
                               | _ => false
                               end) l)
      | _ => Rejected (typeError "err.message?.includes is not a function")
      end
  end.

(** Line 22: the truth value of [isInternalError]. *)
Definition isInternalError (err : JsVal) : Completion bool :=
  match messageIncludes500 err with
  | Rejected e => Rejected e
  | Fulfilled inMessage =>
      Fulfilled
        (inMessage
         || is_500 (getProp err "status")
         || (truthy (getProp err "error")
             && is_500 (getProp (getProp err "error") "code")))
  end.

Section WithRetry.

(** [fn] is an effectful operation: each call reads and changes the state of
    the world (the remote service), and settles with a value or an error. *)
Variables World T : Type.
Variable fn : World -> Completion T * World.

(** Lines 18-31.  [retries] is the remaining retry budget, a natural number
    (3 when the caller leaves it out). *)
Fixpoint withRetry (retries : nat) (w : World)
  : Completion T * World * list Event :=
  match fn w with
  | (Fulfilled value, w1) => (Fulfilled value, w1, [Invoke])
  | (Rejected err, w1) =>
      match isInternalError err with
      | Rejected e => (Rejected e, w1, [Invoke])
      | Fulfilled internal =>
          match retries with
          | S retries' =>
              if internal then
                let delay := (4 - Z.of_nat retries) * 2000 in
                let '(result, w2, events) := withRetry retries' w1 in
                (result, w2,
                 Invoke :: Warn delay retries :: Sleep delay :: events)
              else (Rejected err, w1, [Invoke])
          | O => (Rejected err, w1, [Invoke])
          end
      end
  end.

(** [withRetry(fn)]: the default budget. *)
Definition withRetryDefault (w : World) : Completion T * World * list Event :=
  withRetry 3 w.

End WithRetry.

Arguments withRetry {World T} fn retries w.
Arguments withRetryDefault {World T} fn w.

(** How often [fn] was called, and how many retries were made. *)
Definition invocations (events : list Event) : nat :=
  length
    (List.filter (fun ev => match ev with Invoke => true | _ => false end)
       events).

Definition retriesMade (events : list Event) : nat :=
  length
    (List.filter (fun ev => match ev with Sleep _ => true | _ => false end)
       events).

(** *** [calculateDeterministicScore] *)

Definition checklistKeys : list string :=
  [ "dmVerified"; "needDiscovery"; "priceAdherence";
    "objectionHandled"; "hardCloseAttempted" ].

(** [keys.includes(key)] on an array of strings. *)
Definition includes (keys : list string) (key : string) : bool :=
  existsb (String.eqb key) keys.

Definition isOldLead (leadType : LeadType) : bool :=
  match leadType with OLD_LEAD => true | NEW_LEAD => false end.

Definition isClient (relationshipType : RelationshipType) : bool :=
  match relationshipType with CLIENT => true | LEAD => false end.

(** Lines 84-100: the checklist, minus the intro-related checks for an old
    lead or an existing client. *)
Definition applicableChecks
  (leadType : LeadType) (relationshipType : RelationshipType) : list string :=
  if isOldLead leadType || isClient relationshipType then
    let keysToRemove := [ "needDiscovery"; "dmVerified" ] in
    List.filter (fun key => negb (includes keysToRemove key)) checklistKeys
  else checklistKeys.

(** Line 102: the applicable checks whose entry is exactly [true]. *)
Definition passedChecks
  (compliance : JsVal) (leadType : LeadType)
  (relationshipType : RelationshipType) : list string :=
  List.filter (fun key => is_true (optProp compliance key))
    (applicableChecks leadType relationshipType).

(** Lines 102-103: the share of passed checks, scaled to 70 points. *)
Definition percentage
  (compliance : JsVal) (leadType : LeadType)
  (relationshipType : RelationshipType) : number :=
  let applicable := applicableChecks leadType relationshipType in
  let passed := length (passedChecks compliance leadType relationshipType) in
  mul (div (of_nat passed) (of_nat (length applicable))) (of_Z 70).

(** Line 105: six points per buying signal, at most five signals. *)
Definition buyingBoost (buyingSignals : number) : number :=
  mul (Math_min (or_else buyingSignals (of_Z 0)) (of_Z 5)) (of_Z 6).

(** Line 107: [finalScore] before the rejection penalties. *)
Definition preRejectionScore
  (compliance : JsVal) (buyingSignals : number)
  (leadType : LeadType) (relationshipType : RelationshipType) : number :=
  Math_min (of_Z 100)
    (Math_round
       (add (percentage compliance leadType relationshipType)
            (buyingBoost buyingSignals))).

(** Lines 109-116: the penalties and the final rounding. *)
Definition applyOutcome (finalScore : number) (dealOutcome : string) : number :=
  let finalScore :=
    if String.eqb dealOutcome "HardRejection"
    then mul finalScore lit_0_15 else finalScore in
  let finalScore :=
    if String.eqb dealOutcome "SoftRejection"
    then mul finalScore lit_0_6 else finalScore in
  Math_round finalScore.

Definition calculateDeterministicScore
  (compliance : JsVal) (buyingSignals : number)
  (leadType : LeadType) (relationshipType : RelationshipType)
  (dealOutcome : string) : number :=
  applyOutcome
    (preRejectionScore compliance buyingSignals leadType relationshipType)
    dealOutcome.

End GeminiService.


(* ===================================================================== *)
(** ** api/gemini.ts *)
(* ===================================================================== *)

Module Api.

Record VercelRequest : Type := {
  method : string;
  body : JsVal
}.

(** [res.status(code).json(payload)]. *)
Record VercelResponse : Type := {
  statusCode : Z;
  payload : JsVal
}.

(** The argument of [ai.models.generateContent]. *)
Record GenerateContentParameters : Type := {
  model : JsVal;
  contents : JsVal;
  config : JsVal
}.

(** The body of the [catch] clause. *)
Definition requestFailed (error : JsVal) : VercelResponse :=
  {| statusCode := 500;
     payload :=
       JObj
         (<[ "error" := JStr "Gemini request failed" ]>
          (<[ "details" :=
                js_or (optProp error "message") (JStr "Unknown error") ]> ∅)) |}.

Section Handler.

(** The inference API: awaiting the call gives the response object or
    throws. *)
Variable generateContent :
  GenerateContentParameters -> Completion (gmap string JsVal).

(** Lines 4-39.  The result is the response sent, together with the calls
    made to the inference API. *)
Definition handler (req : VercelRequest)
  : VercelResponse * list GenerateContentParameters :=
  if negb (String.eqb (method req) "POST") then
    ({| statusCode := 405;
        payload := JObj {[ "error" := JStr "Method not allowed" ]} |}, [])
  else
    match body req with
    | JUndefined =>
        (* the destructuring of line 13 throws inside the [try] *)
        (requestFailed
           (typeError
              "Cannot destructure property 'model' of 'req.body' as it is undefined."),
         [])
    | JNull =>
        (requestFailed
           (typeError
              "Cannot destructure property 'model' of 'req.body' as it is null."),
         [])
    | reqBody =>
        let model := getProp reqBody "model" in
        let contents := getProp reqBody "contents" in
        let config := getProp reqBody "config" in
        if negb (truthy model) || negb (truthy contents) then
          ({| statusCode := 400;
              payload := JObj {[ "error" := JStr "Missing model or contents" ]} |},
           [])
        else
          let params :=
            {| model := model; contents := contents; config := config |} in
          match generateContent params with
          | Fulfilled response =>
              ({| statusCode := 200;
                  payload :=
                    JObj (<[ "text" := getProp (JObj response) "text" ]>
                          (<[ "raw" := JObj response ]> ∅)) |},
               [params])
          | Rejected error => (requestFailed error, [params])
          end
    end.

End Handler.

End Api.

(* ===================================================================== *)
(** ** services/firebaseService.ts *)
(* ===================================================================== *)

Module FirebaseService.

Record QueryDocumentSnapshot : Type := {
  snapshot_id : string;
  snapshot_data : gmap string JsVal
}.

(** The [Date] objects the converter builds. *)
Inductive JsDate : Type :=
| DateOfTimestamp (millis : Z)   (* data.createdAt.toDate() *)
| DateOfValue (v : JsVal)        (* new Date(data.uploadDate) *)
| DateEpoch.                     (* new Date(0) *)

Record Compliance : Type := {
  dmVerified : JsVal;
  needDiscovery : JsVal;
  priceAdherence : JsVal;
  objectionHandled : JsVal;
  hardCloseAttempted : JsVal
}.

Record Feedback : Type := {
  strengths : JsVal;
  weaknesses : JsVal;
  actionableSteps : JsVal;
  missedOpportunities : JsVal
}.

(** The record the converter returns.  Its fields hold whatever the document
    supplies, so they are values of any kind here. *)
Record CallAnalysis : Type := {
  id : string;
  uploadDate : JsVal;
  agentId : JsVal;
  agentName : JsVal;
  clientName : JsVal;
  clientPhone : JsVal;
  clientConcern : JsVal;
  duration : JsVal;
  conversionScore : JsVal;
  summary : JsVal;
  sentiment : JsVal;
  metrics : JsVal;
  compliance : Compliance;
  transcript : JsVal;
  feedback : Feedback;
  deletedByResponder : JsVal;
  createdAt : JsDate
}.

(** Lines 161-205. *)
Definition fromFirestore (snapshot : QueryDocumentSnapshot) : CallAnalysis :=
  let data := JObj (snapshot_data snapshot) in
  let complianceData := js_or (getProp data "compliance") (JObj ∅) in
  let feedbackData := js_or (getProp data "feedback") (JObj ∅) in
  let createdAtDate :=
    match getProp data "createdAt" with
    | JTimestamp millis => DateOfTimestamp millis
    | _ =>
        if truthy (getProp data "uploadDate")
        then DateOfValue (getProp data "uploadDate")
        else DateEpoch
    end in
  {| id := snapshot_id snapshot;
     uploadDate := getProp data "uploadDate";
     agentId := js_or (getProp data "agentId") (JStr "");
     agentName := js_or (getProp data "agentName") (JStr "Unknown Agent");
     clientName := getProp data "clientName";
     clientPhone := js_or (getProp data "clientPhone") (JStr "");
     clientConcern := js_or (getProp data "clientConcern") (JStr "");
     duration := getProp data "duration";
     conversionScore := getProp data "conversionScore";
     summary := getProp data "summary";
     sentiment := getProp data "sentiment";
     metrics := getProp data "metrics";
     compliance :=
       {| dmVerified :=
            js_or (getProp complianceData "dmVerified") (JBool false);
          needDiscovery :=
            js_or (getProp complianceData "needDiscovery") (JBool false);
          priceAdherence :=
            js_or (getProp complianceData "priceAdherence") (JBool false);
          objectionHandled :=
            js_or (getProp complianceData "objectionHandled") (JBool false);
          hardCloseAttempted :=
            js_or (getProp complianceData "hardCloseAttempted") (JBool false) |};
     transcript := js_or (getProp data "transcript") (JArr []);
     feedback :=
       {| strengths := js_or (getProp feedbackData "strengths") (JArr []);
          weaknesses := js_or (getProp feedbackData "weaknesses") (JArr []);
          actionableSteps := js_or (getProp feedbackData "actionableSteps") (JArr []);
          missedOpportunities :=
            js_or (getProp feedbackData "missedOpportunities") (JArr []) |};
     deletedByResponder := js_or (getProp data "deletedByResponder") (JBool false);
     createdAt := createdAtDate |}.

End FirebaseService.

(* ===================================================================== *)
(** ** utils/leadAnalytics.ts *)
(* ===================================================================== *)

Module LeadAnalytics.

(** The part of a [CallAnalysis] the function reads.  A metric is [None]
    when the property is [undefined]; [metrics] itself may be missing, as
    the optional chaining of the source allows. *)
Record Metrics : Type := {
  politenessScore : option number;
  activeListeningScore : option number;
  productKnowledgeScore : option number;
  empathyScore : option number;
  clarityScore : option number;
  persuasionScore : option number
}.

Record Compliance : Type := {
  dmVerified : bool;
  needDiscovery : bool;
  priceAdherence : bool;
  objectionHandled : bool;
  hardCloseAttempted : bool
}.

Record CallAnalysis : Type := {
  metrics : option Metrics;
  compliance : Compliance
}.

Inductive Label : Type := Hot | Warm | Cold.

Record LeadStrength : Type := {
  score : number;
  label : Label;
  color : string
}.

(** [metrics?.field || 0]. *)
Definition metricOrZero
  (metrics : option Metrics) (field : Metrics -> option number) : number :=
  match metrics with
  | Some m =>
      match field m with
      | Some x => or_else x (of_Z 0)
      | None => of_Z 0
      end
  | None => of_Z 0
  end.

(** Lines 25-31: the weighted sum, added up from left to right. *)
Definition weightedSum (analysis : CallAnalysis) : number :=
  let metrics := metrics analysis in
  let compliance := compliance analysis in
  add
    (add
       (add
          (add (mul (metricOrZero metrics productKnowledgeScore) lit_0_3)
               (mul (metricOrZero metrics persuasionScore) lit_0_3))
          (mul (metricOrZero metrics activeListeningScore) lit_0_2))
       (mul (metricOrZero metrics clarityScore) lit_0_1))
    (mul (if objectionHandled compliance then of_Z 100 else of_Z 0) lit_0_1).

(** Lines 8-36. *)
Definition calculateLeadStrength (analysis : CallAnalysis) : LeadStrength :=
  let score := Math_round (weightedSum analysis) in
  if geb score (of_Z 75) then
    {| score := score; label := Hot; color := "#20b384" |}
  else if geb score (of_Z 45) then
    {| score := score; label := Warm; color := "#F59E0B" |}
  else {| score := score; label := Cold; color := "#E11D48" |}.

End LeadAnalytics.

(* ===================================================================== *)
(** ** String methods *)
(* ===================================================================== *)

Module Str.

(** [c.toLowerCase()] on the letters A-Z.  Other characters are left as
    they are; none of them can turn into an ASCII letter that occurs in a
    key looked up by the sources. *)
Definition lowerChar (c : ascii) : ascii :=
  let n := nat_of_ascii c in
  if Nat.leb 65 n && Nat.leb n 90 then ascii_of_nat (n + 32) else c.

Fixpoint toLowerCase (s : string) : string :=
  match s with
  | EmptyString => EmptyString
  | String c rest => String (lowerChar c) (toLowerCase rest)
  end.

(** [s.split(sep)] for a one-character separator: never the empty list. *)
Fixpoint split (sep : ascii) (s : string) : list string :=
  match s with
  | EmptyString => [ EmptyString ]
  | String c rest =>
      if Ascii.eqb c sep then EmptyString :: split sep rest
      else
        match split sep rest with
        | first :: others => String c first :: others
        | [] => [ String c EmptyString ]
        end
  end.

(** [s.split(sep).pop()]: the part of [s] after the last separator. *)
Definition lastPart (sep : ascii) (s : string) : string :=
  List.last (split sep s) EmptyString.

(** [s.endsWith(suffix)]. *)
Fixpoint endsWith (s suffix : string) : bool :=
  String.eqb s suffix
  || match s with
     | EmptyString => false
     | String _ rest => endsWith rest suffix
     end.

End Str.

(* ===================================================================== *)
(** ** services/geminiService.ts: the media type of an upload *)
(* ===================================================================== *)

Module GeminiServiceMedia.

(** Lines 141-144: the table from file extensions to media types. *)
Definition typeMap : list (string * string) :=
  [ ("mp3", "audio/mpeg"); ("wav", "audio/wav"); ("m4a", "audio/mp4");
    ("mp4", "video/mp4"); ("mpeg", "video/mpeg"); ("mpg", "video/mpeg");
    ("aac", "audio/aac"); ("flac", "audio/flac"); ("wma", "audio/x-ms-wma");
    ("webm", "audio/webm") ].

(** What [mimeType] holds after lines 139-150: a string, or, because
    [typeMap] is a plain object, a member it inherits from
    [Object.prototype]. *)
Inductive MimeType : Type :=
| Mime (type : string)
| Inherited (member : string).

(** The lower-case names under which a plain object answers with an
    inherited, truthy member. *)
Definition inheritedMembers : list string := [ "constructor"; "__proto__" ].

Fixpoint ownEntry (table : list (string * string)) (key : string) : option string :=
  match table with
  | [] => None
  | (k, v) :: rest => if String.eqb key k then Some v else ownEntry rest key
  end.

(** [typeMap[ext]] when it is truthy. *)
Definition typeMapEntry (ext : string) : option MimeType :=
  match ownEntry typeMap ext with
  | Some type => Some (Mime type)
  | None =>
      if existsb (String.eqb ext) inheritedMembers then Some (Inherited ext)
      else None
  end.

(** Lines 139-150 of [analyzeAudioCall]: [fileType] is [audioFile.type] and
    [fileName] is [audioFile.name]. *)
Definition resolveMimeType (fileType fileName : string) : MimeType :=
  let ext := Str.toLowerCase (Str.lastPart "." fileName) in
  match (if String.eqb ext "" then None else typeMapEntry ext) with
  | Some found => found
  | None =>
      if String.eqb fileType "" || String.eqb fileType "application/octet-stream"
      then Mime "audio/mpeg"
      else Mime fileType
  end.

End GeminiServiceMedia.

(* ===================================================================== *)
(** ** components/FileUpload.tsx *)
(* ===================================================================== *)

Module FileUpload.

(** Lines 35-38. *)
Definition supportedMimeTypes : list string :=
  [ "audio/mpeg"; "audio/wav"; "audio/x-m4a"; "audio/mp4"; "audio/aac";
    "audio/x-aac"; "audio/flac"; "audio/x-flac"; "audio/x-ms-wma";
    "video/mp4"; "video/mpeg"; "video/x-m4v" ].

(** The alternatives of the pattern of line 39. *)
Definition supportedExtensions : list string :=
  [ "mp3"; "wav"; "m4a"; "mp4"; "mpeg"; "mpg"; "aac"; "flac"; "wma" ].

(** [fileName.match(/\.(mp3|...|wma)$/i)]: the name ends, whatever the case
    of its letters, with a dot and one of the extensions. *)
Definition matchesExtension (fileName : string) : bool :=
  existsb
    (fun ext => Str.endsWith (Str.toLowerCase fileName) (String "." ext))
    supportedExtensions.

(** Line 41 of [processFile]: the upload goes on when this holds, and is
    refused as an unsupported format otherwise. *)
Definition isSupportedFormat (fileType fileName : string) : bool :=
  existsb (String.eqb fileType) supportedMimeTypes || matchesExtension fileName.


End FileUpload.

(* ===================================================================== *)
(** ** services/firebaseService.ts: rules and the write converter *)
(* ===================================================================== *)

Module FirebaseServiceWrites.

Section Rules.

(** [String(v)] for the values that are neither strings, [null] nor
    [undefined]: numbers, booleans, nested arrays and objects. *)
Variable toStringOf : JsVal -> string.

(** How [Array.prototype.join] writes one element. *)
Definition joinElement (v : JsVal) : string :=
  match v with
  | JUndefined | JNull => ""
  | JStr s => s
  | other => toStringOf other
  end.

(** [items.join(sep)]. *)
Definition join (sep : string) (items : list JsVal) : string :=
  String.concat sep (map joinElement items).


End Rules.

Section Converter.

(** The sentinel that [serverTimestamp()] returns. *)
Variable serverTimestamp : JsVal.

(** Lines 151-160: the spread of [analysis] with five properties written
    over it.  [analysis] is an object. *)
Definition toFirestore (analysis : gmap string JsVal) : gmap string JsVal :=
  <[ "deletedByResponder" :=
       js_or (getProp (JObj analysis) "deletedByResponder") (JBool false) ]>
    (<[ "updatedAt" := serverTimestamp ]>
       (<[ "createdAt" :=
             js_or (getProp (JObj analysis) "createdAt") serverTimestamp ]>
          (<[ "agentName" := getProp (JObj analysis) "agentName" ]>
             (<[ "agentId" := getProp (JObj analysis) "agentId" ]> analysis)))).

End Converter.

End FirebaseServiceWrites.

(* ===================================================================== *)
(** ** types.ts: the signed-in user *)
(* ===================================================================== *)

Module Types.

(** The two properties of a [User] that the dashboard's reports involve. *)
Record User : Type := {
  id : string;
  name : string
}.

End Types.

(* ===================================================================== *)
(** ** components/Dashboard.tsx *)
(* ===================================================================== *)

Module Dashboard.
Import FirebaseService.

(** [v === false]. *)
Definition is_false (v : JsVal) : bool :=
  match v with
  | JBool false => true
  | _ => false
  end.

(** Lines 125-127: what a responder is shown of the loaded reports. *)
Definition responderReports (reports : list CallAnalysis) : list CallAnalysis :=
  List.filter (fun report => is_false (deletedByResponder report)) reports.

(** [c.sentiment?.client === label]. *)
Definition clientSentimentIs (label : string) (c : CallAnalysis) : bool :=
  match optProp (sentiment c) "client" with
  | JStr s => String.eqb s label
  | _ => false
  end.

Record MetricsStats : Type := {
  total : nat;
  positive : nat;
  neutral : nat;
  negative : nat
}.

(** Lines 200-207. *)
Definition metricsStats (filteredCallsForMetrics : list CallAnalysis) : MetricsStats :=
  {| total := length filteredCallsForMetrics;
     positive :=
       length (List.filter (clientSentimentIs "Positive") filteredCallsForMetrics);
     neutral :=
       length (List.filter (clientSentimentIs "Neutral") filteredCallsForMetrics);
     negative :=
       length (List.filter (clientSentimentIs "Negative") filteredCallsForMetrics) |}.

(** Lines 110-115: the query of a responder's dashboard, the reports whose
    stored [agentId] is the user's id. *)
Definition ownReportsQuery (userId : string)
  (snapshots : list QueryDocumentSnapshot) : list QueryDocumentSnapshot :=
  List.filter
    (fun snapshot =>
       match getProp (JObj (snapshot_data snapshot)) "agentId" with
       | JStr agent => String.eqb agent userId
       | _ => false
       end)
    snapshots.

(** Lines 106-127 for a responder: the reports loaded and kept, before they
    are sorted. *)
Definition responderView (user : Types.User)
  (snapshots : list QueryDocumentSnapshot) : list CallAnalysis :=
  responderReports (map fromFirestore (ownReportsQuery (Types.id user) snapshots)).

(** Lines 164-170 of [handleAnalysisComplete]; [now] is [new Date()]. *)
Definition callReportToSave (now : JsVal) (user : Types.User)
  (result : gmap string JsVal) : gmap string JsVal :=
  <[ "deletedByResponder" := JBool false ]>
    (<[ "createdAt" := now ]>
       (<[ "agentName" := JStr (Types.name user) ]>
          (<[ "agentId" := JStr (Types.id user) ]> result))).

(** Lines 163-176: the document handed to [setDoc], if any: nothing is
    saved without a user or for a user whose id is empty. *)
Definition savedDocument (serverTimestamp now : JsVal) (user : option Types.User)
  (result : gmap string JsVal) : option (gmap string JsVal) :=
  match user with
  | Some u =>
      if String.eqb (Types.id u) "" then None
      else Some (<[ "createdAt" := serverTimestamp ]> (callReportToSave now u result))
  | None => None
  end.

End Dashboard.

(* ===================================================================== *)
(** ** The score, in exact arithmetic *)
(* ===================================================================== *)

Module ScoreSpec.

(** The integer nearest to a rational, ties going up. *)
Definition Qround_half_up (q : Q) : Z := Qfloor (Qplus q (1 # 2)).

(** A compliance check is true when the compliance record is an object that
    holds the boolean [true] under the name of the check. *)
Definition checkIsTrue (compliance : JsVal) (check : string) : bool :=
  match compliance with
  | JObj record =>
      match record !! check with
      | Some (JBool true) => true
      | _ => false
      end
  | _ => false
  end.

(** How many of the listed checks are true. *)
Fixpoint countTrue (compliance : JsVal) (checks : list string) : Z :=
  match checks with
  | [] => 0
  | check :: rest =>
      (if checkIsTrue compliance check then 1 else 0) + countTrue compliance rest
  end.

(** A fresh prospect: a new lead who is not a client yet. *)
Definition freshProspect (leadType : LeadType)
  (relationshipType : RelationshipType) : bool :=
  match leadType, relationshipType with
  | NEW_LEAD, LEAD => true
  | _, _ => false
  end.

(** The checks that count: all five for a fresh prospect, and the three that
    are left without [dmVerified] and [needDiscovery] for anyone else. *)
Definition countedChecks (leadType : LeadType)
  (relationshipType : RelationshipType) : list string :=
  if freshProspect leadType relationshipType
  then [ "dmVerified"; "needDiscovery"; "priceAdherence"; "objectionHandled";
         "hardCloseAttempted" ]
  else [ "priceAdherence"; "objectionHandled"; "hardCloseAttempted" ].

(** [passed]: the number of applicable checks that are true. *)
Definition specPassed (compliance : JsVal) (leadType : LeadType)
  (relationshipType : RelationshipType) : Z :=
  countTrue compliance (countedChecks leadType relationshipType).

(** [applicable]: the number of applicable checks. *)
Definition specApplicable (leadType : LeadType)
  (relationshipType : RelationshipType) : Z :=
  if freshProspect leadType relationshipType then 5 else 3.

(** [min(100, round((passed / applicable) * 70 + min(signals, 5) * 6))],
    over the rationals. *)
Definition specPreRejection (passed applicable signals : Z) : Z :=
  Z.min 100
    (Qround_half_up
       (Qplus
          (Qmult (Qdiv (inject_Z passed) (inject_Z applicable)) (70 # 1))
          (Qmult (inject_Z (Z.min signals 5)) (6 # 1)))).

(** [percent]% of [s], rounded. *)
Definition specScaled (percent : Z) (s : Z) : Z :=
  Qround_half_up (Qmult (Qdiv (inject_Z percent) (100 # 1)) (inject_Z s)).

(** 15% of the score under a hard rejection, 60% under a soft one, rounded;
    the score itself otherwise. *)
Definition specOutcome (s : Z) (dealOutcome : string) : Z :=
  if String.eqb dealOutcome "HardRejection" then specScaled 15 s
  else if String.eqb dealOutcome "SoftRejection" then specScaled 60 s
  else s.

End ScoreSpec.

(* ===================================================================== *)
(** ** The lead strength, in exact arithmetic *)
(* ===================================================================== *)

Module LeadSpec.
Import ScoreSpec.

(** The weighted sum over the rationals. *)
Definition specWeightedSum (productKnowledge persuasion activeListening clarity : Z)
  (objectionHandled : bool) : Q :=
  Qplus
    (Qplus
       (Qplus
          (Qplus (Qmult (3 # 10) (inject_Z productKnowledge))
                 (Qmult (3 # 10) (inject_Z persuasion)))
          (Qmult (2 # 10) (inject_Z activeListening)))
       (Qmult (1 # 10) (inject_Z clarity)))
    (Qmult (1 # 10) (if objectionHandled then 100 # 1 else 0 # 1)).

(** The rounded weighted sum. *)
Definition specLeadScore (productKnowledge persuasion activeListening clarity : Z)
  (objectionHandled : bool) : Z :=
  Qround_half_up
    (specWeightedSum productKnowledge persuasion activeListening clarity
       objectionHandled).

(** A score between 0 and 100: a zero, or a positive binary64 number that is
    at most 100. *)
Definition inRange (x : number) : bool :=
  match x with
  | S754_zero _ => true
  | S754_finite false m e =>
      bounded prec emax m e && Qle_bool (to_Q x) (100 # 1)
  | _ => false
  end.

(** The weighted sum of any four scores, over the rationals. *)
Definition weightedSumOf (productKnowledge persuasion activeListening clarity : Q)
  (objectionHandled : bool) : Q :=
  ((3 # 10) * productKnowledge + (3 # 10) * persuasion
   + (2 # 10) * activeListening + (1 # 10) * clarity
   + (1 # 10) * (if objectionHandled then 100 # 1 else 0 # 1))%Q.

(** How far the sum computed in double precision can be from the exact one. *)
Definition tolerance : Q := 1 # 1000000000000.

End LeadSpec.

(* ===================================================================== *)
(** * Verification *)
(* ===================================================================== *)

(* ===================================================================== *)
(** ** Integers as numbers *)
(* ===================================================================== *)

Module NumFacts.

(** The decimal literals are the correctly rounded quotients they denote. *)
Lemma literals_nearest :
  lit_0_15 = div (of_Z 15) (of_Z 100)
  /\ lit_0_6 = div (of_Z 6) (of_Z 10)
  /\ lit_0_3 = div (of_Z 3) (of_Z 10)
  /\ lit_0_2 = div (of_Z 2) (of_Z 10)
  /\ lit_0_1 = div (of_Z 1) (of_Z 10).
Proof. repeat split; vm_compute; reflexivity. Qed.

(** A positive with [d] binary digits lies between [2^(d-1)] and [2^d]. *)
Lemma digits2_pos_bounds (p : positive) :
  2 ^ (Zpos (digits2_pos p) - 1) <= Zpos p < 2 ^ Zpos (digits2_pos p).
Proof.
  induction p as [ p IH | p IH | ]; cbn [digits2_pos];
    [ | | cbn; lia ];
    rewrite Pos2Z.inj_succ;
    set (d := Zpos (digits2_pos p)) in *;
    replace (Z.succ d - 1) with (Z.succ (d - 1)) by lia;
    rewrite !Z.pow_succ_r by lia; lia.
Qed.

(** Shifting right by one bit halves the mantissa. *)
Lemma shr_1_m (mrs : shr_record) :
  0 <= shr_m mrs -> shr_m (shr_1 mrs) = shr_m mrs / 2.
Proof.
  destruct mrs as [ m r s ]. cbn [shr_m]. intros Hm.
  destruct m as [ | [ p | p | ] | p ]; cbn [shr_1 shr_m]; try lia.
  - reflexivity.
  - rewrite Pos2Z.inj_xI. apply Z.div_unique with (r := 1); lia.
  - rewrite Pos2Z.inj_xO. apply Z.div_unique with (r := 0); lia.
  - reflexivity.
Qed.

(** Shifting right by [n] bits divides the mantissa by [2^n]. *)
Lemma iter_shr_1_m (n : positive) :
  forall mrs : shr_record,
    0 <= shr_m mrs ->
    shr_m (SpecFloat.iter_pos shr_1 n mrs) = shr_m mrs / 2 ^ Zpos n.
Proof.
  assert (Hnn : forall mrs, 0 <= shr_m mrs -> 0 <= shr_m (shr_1 mrs)).
  { intros mrs H. rewrite shr_1_m by assumption. apply Z.div_pos; lia. }
  induction n as [ n IH | n IH | ]; intros mrs Hm; cbn [SpecFloat.iter_pos].
  - rewrite IH.
    + rewrite IH by (apply Hnn; assumption).
      rewrite shr_1_m by assumption.
      rewrite !Z.div_div by (try apply Z.pow_pos_nonneg; lia).
      f_equal.
      replace (Zpos n~1) with (1 + Zpos n + Zpos n) by lia.
      rewrite !Z.pow_add_r by lia. change (2 ^ 1) with 2. ring.
    + rewrite IH by (apply Hnn; assumption).
      apply Z.div_pos; [ apply Hnn; assumption | apply Z.pow_pos_nonneg; lia ].
  - rewrite IH.
    + rewrite IH by assumption.
      rewrite !Z.div_div by (try apply Z.pow_pos_nonneg; lia).
      f_equal.
      replace (Zpos n~0) with (Zpos n + Zpos n) by lia.
      rewrite !Z.pow_add_r by lia. reflexivity.
    + rewrite IH by assumption.
      apply Z.div_pos; [ assumption | apply Z.pow_pos_nonneg; lia ].
  - rewrite shr_1_m by assumption. reflexivity.
Qed.

(** Shifting a positive mantissa down to [prec] digits leaves it positive
    and never lowers the exponent, as long as the exponent is far from the
    subnormal range. *)
Lemma shr_fexp_pos (m : positive) (e : Z) (l : location) :
  -1000 <= e ->
  0 < shr_m (fst (shr_fexp prec emax (Zpos m) e l))
  /\ e <= snd (shr_fexp prec emax (Zpos m) e l).
Proof.
  intros He. unfold shr_fexp, shr.
  pose proof (digits2_pos_bounds m) as [ Hlo Hhi ].
  cbn [Zdigits2].
  set (d := Zpos (digits2_pos m)) in *.
  assert (Hfexp : fexp prec emax (d + e) = d + e - 53).
  { unfold fexp, SpecFloat.emin, prec, emax. lia. }
  rewrite Hfexp.
  replace (d + e - 53 - e) with (d - 53) by lia.
  destruct (d - 53) as [ | n | n ] eqn:Hn; cbn [fst snd].
  - split; [ | lia ]. destruct l as [ | [ | | ] ]; cbn; lia.
  - assert (Hm0 : shr_m (shr_record_of_loc (Zpos m) l) = Zpos m)
      by (destruct l as [ | [ | | ] ]; reflexivity).
    rewrite iter_shr_1_m by (rewrite Hm0; lia).
    rewrite Hm0. split; [ | lia ].
    apply Z.div_str_pos. split; [ apply Z.pow_pos_nonneg; lia | ].
    apply Z.le_trans with (2 ^ (d - 1)); [ | assumption ].
    apply Z.pow_le_mono_r; lia.
  - split; [ | lia ]. destruct l as [ | [ | | ] ]; cbn; lia.
Qed.

(** Rounding to nearest keeps a positive mantissa positive. *)
Lemma round_nearest_even_pos (m : Z) (l : location) :
  0 < m -> 0 < round_nearest_even m l.
Proof.
  intros Hm. destruct l as [ | [ | | ] ]; cbn [round_nearest_even]; try lia.
  destruct (Z.even m); lia.
Qed.

(** Rounding a positive mantissa at a moderate exponent gives a positive
    finite number whose exponent is not lower, or [+Infinity]. *)
Lemma binary_round_aux_pos (m : positive) (e : Z) (l : location) :
  -1000 <= e ->
  (exists m' e', binary_round_aux prec emax false (Zpos m) e l
                 = S754_finite false m' e' /\ e <= e')
  \/ binary_round_aux prec emax false (Zpos m) e l = S754_infinity false.
Proof.
  intros He. unfold binary_round_aux.
  pose proof (shr_fexp_pos m e l He) as [ Hm1 He1 ].
  destruct (shr_fexp prec emax (Zpos m) e l) as [ mrs' e' ]. cbn [fst snd] in *.
  pose proof (round_nearest_even_pos (shr_m mrs') (loc_of_shr_record mrs') Hm1)
    as Hr.
  destruct (round_nearest_even (shr_m mrs') (loc_of_shr_record mrs'))
    as [ | r | r ]; try lia.
  pose proof (shr_fexp_pos r e' loc_Exact ltac:(lia)) as [ Hm2 He2 ].
  destruct (shr_fexp prec emax (Zpos r) e' loc_Exact) as [ mrs'' e'' ].
  cbn [fst snd] in *.
  destruct (shr_m mrs'') as [ | m'' | m'' ]; try lia.
  destruct (e'' <=? emax - prec).
  - left. exists m'', e''. split; [ reflexivity | lia ].
  - right. reflexivity.
Qed.

(** An integer from 8 on is a positive number with exponent above that of
    5, or [+Infinity]. *)
Lemma of_Z_ge_8 (p : positive) :
  8 <= Zpos p ->
  (exists m e, of_Z (Zpos p) = S754_finite false m e /\ -49 <= e)
  \/ of_Z (Zpos p) = S754_infinity false.
Proof.
  intros Hp. unfold of_Z, binary_normalize, binary_round.
  pose proof (digits2_pos_bounds p) as [ Hlo Hhi ].
  set (d := Zpos (digits2_pos p)) in *.
  assert (Hd : 4 <= d).
  { destruct (Z.le_gt_cases 4 d) as [ H | H ]; [ assumption | exfalso ].
    assert (2 ^ d <= 2 ^ 3) by (apply Z.pow_le_mono_r; lia).
    change (2 ^ 3) with 8 in *. lia. }
  assert (Hfexp : fexp prec emax (d + 0) = d - 53).
  { unfold fexp, SpecFloat.emin, prec, emax. lia. }
  rewrite Hfexp. unfold shl_align.
  destruct (d - 53 - 0) as [ | k | k ] eqn:Hk.
  - destruct (binary_round_aux_pos p 0 loc_Exact ltac:(lia))
      as [ (m' & e' & -> & He') | -> ]; [ left | right; reflexivity ].
    exists m', e'. split; [ reflexivity | lia ].
  - destruct (binary_round_aux_pos p 0 loc_Exact ltac:(lia))
      as [ (m' & e' & -> & He') | -> ]; [ left | right; reflexivity ].
    exists m', e'. split; [ reflexivity | lia ].
  - destruct (binary_round_aux_pos (Pos.iter xO p k) (d - 53) loc_Exact
                ltac:(lia))
      as [ (m' & e' & -> & He') | -> ]; [ left | right; reflexivity ].
    exists m', e'. split; [ reflexivity | lia ].
Qed.

(** [Math.min(n || 0, 5)] on a non-negative integer count [n] is the count
    capped at 5. *)
Lemma Math_min_count (n : Z) :
  0 <= n ->
  Math_min (or_else (of_Z n) (of_Z 0)) (of_Z 5) = of_Z (Z.min n 5).
Proof.
  intros Hn.
  destruct (Z.le_gt_cases 8 n) as [ Hbig | Hsmall ].
  - rewrite Z.min_r by lia.
    destruct n as [ | p | p ]; try lia.
    destruct (of_Z_ge_8 p Hbig) as [ (m & e & -> & He) | -> ].
    + unfold or_else. cbn [Num.toBoolean].
      change (of_Z 5) with (S754_finite false 5629499534213120 (-50)).
      unfold Math_min, SFcompare.
      assert (Hc : (e ?= -50) = Gt) by (apply Z.compare_gt_iff; lia).
      rewrite Hc. reflexivity.
    + reflexivity.
  - assert (Hcases : In n (map Z.of_nat (seq 0 8))).
    { apply in_map_iff. exists (Z.to_nat n).
      split; [ lia | apply in_seq; lia ]. }
    cbn [seq map] in Hcases.
    repeat (destruct Hcases as [ <- | Hcases ]; [ vm_compute; reflexivity | ]).
    destruct Hcases.
Qed.

End NumFacts.

(* ===================================================================== *)
(** ** The applicable checks *)
(* ===================================================================== *)

Module ScoreChecks.
Import GeminiService.

(** A number that is neither NaN nor an infinity. *)
Definition is_finite (x : number) : bool :=
  match x with
  | S754_zero _ | S754_finite _ _ _ => true
  | S754_infinity _ | S754_nan => false
  end.

(** The quotient [passed / applicableChecks.length] of line 103. *)
Definition passedRatio
  (compliance : JsVal) (leadType : LeadType)
  (relationshipType : RelationshipType) : number :=
  div (of_nat (length (passedChecks compliance leadType relationshipType)))
      (of_nat (length (applicableChecks leadType relationshipType))).

Lemma passed_le_applicable compliance leadType relationshipType :
  (length (passedChecks compliance leadType relationshipType)
   <= length (applicableChecks leadType relationshipType))%nat.
Proof. unfold passedChecks. apply List.filter_length_le. Qed.

(** Whether a check passed, as the code tests it and as the
    specification reads it. *)
Lemma is_true_checkIsTrue (compliance : JsVal) (check : string) :
  is_true (optProp compliance check) = ScoreSpec.checkIsTrue compliance check.
Proof.
  destruct compliance as [ | | b | n | s | l | record | t ]; try reflexivity.
  cbn [optProp getProp ScoreSpec.checkIsTrue].
  destruct (record !! check) as [ [ | | [ | ] | | | | | ] | ]; reflexivity.
Qed.

Lemma filter_countTrue (compliance : JsVal) (checks : list string) :
  Z.of_nat
    (length (List.filter (fun key => is_true (optProp compliance key)) checks))
  = ScoreSpec.countTrue compliance checks.
Proof.
  induction checks as [ | check rest IH ]; [ reflexivity | ].
  cbn [List.filter ScoreSpec.countTrue].
  rewrite is_true_checkIsTrue.
  destruct (ScoreSpec.checkIsTrue compliance check); cbn [length]; lia.
Qed.

(** The list the code filters is the list of the checks that count. *)
Lemma applicableChecks_counted leadType relationshipType :
  applicableChecks leadType relationshipType
  = ScoreSpec.countedChecks leadType relationshipType.
Proof. destruct leadType, relationshipType; reflexivity. Qed.

(** The two counts of line 102 and 103. *)
Lemma passed_count compliance leadType relationshipType :
  Z.of_nat (length (passedChecks compliance leadType relationshipType))
  = ScoreSpec.specPassed compliance leadType relationshipType.
Proof.
  unfold passedChecks, ScoreSpec.specPassed.
  rewrite applicableChecks_counted. apply filter_countTrue.
Qed.

Lemma applicable_count leadType relationshipType :
  Z.of_nat (length (applicableChecks leadType relationshipType))
  = ScoreSpec.specApplicable leadType relationshipType.
Proof. destruct leadType, relationshipType; reflexivity. Qed.

(** A record in which only the named check is true. *)
Definition onlyCheck (check : string) : JsVal := JObj {[ check := JBool true ]}.

(** C5. The checklist is cut down to [priceAdherence], [objectionHandled]
    and [hardCloseAttempted] exactly when the lead type is [OLD_LEAD] or the
    relationship type is [CLIENT]; all five checks apply otherwise.  The two
    checks that disappear are [dmVerified] and [needDiscovery], and the
    passed count is taken over the same reduced list.  So the share of the
    checks in the score is the number of true checks among the three, over
    3, when the lead is not a fresh prospect, and the number of true checks
    among the five, over 5, when it is; the score is computed from that
    share.  The two dropped checks have no influence on the score of a lead
    that is not a fresh prospect, and each of them changes the share of a
    fresh prospect. *)
Theorem applicable_checks_drop_intro_checks :
  forall (leadType : LeadType) (relationshipType : RelationshipType),
    applicableChecks leadType relationshipType =
      match leadType, relationshipType with
      | NEW_LEAD, LEAD =>
          [ "dmVerified"; "needDiscovery"; "priceAdherence";
            "objectionHandled"; "hardCloseAttempted" ]
      | _, _ => [ "priceAdherence"; "objectionHandled"; "hardCloseAttempted" ]
      end
    /\ (forall compliance : JsVal,
          passedChecks compliance leadType relationshipType =
            List.filter (fun key => is_true (optProp compliance key))
              match leadType, relationshipType with
              | NEW_LEAD, LEAD => checklistKeys
              | _, _ =>
                  [ "priceAdherence"; "objectionHandled"; "hardCloseAttempted" ]
              end)
    /\ checklistKeys =
         "dmVerified" :: "needDiscovery"
           :: [ "priceAdherence"; "objectionHandled"; "hardCloseAttempted" ]
    /\ (ScoreSpec.freshProspect leadType relationshipType = false
        <-> leadType = OLD_LEAD \/ relationshipType = CLIENT)
    /\ (forall compliance : JsVal,
          percentage compliance leadType relationshipType
          = mul
              (div
                 (of_Z
                    (ScoreSpec.countTrue compliance
                       (if ScoreSpec.freshProspect leadType relationshipType
                        then [ "dmVerified"; "needDiscovery"; "priceAdherence";
                               "objectionHandled"; "hardCloseAttempted" ]
                        else [ "priceAdherence"; "objectionHandled";
                               "hardCloseAttempted" ])))
                 (of_Z
                    (if ScoreSpec.freshProspect leadType relationshipType
                     then 5 else 3)))
              (of_Z 70))
    /\ (forall (compliance : JsVal) (buyingSignals : number)
               (dealOutcome : string),
          calculateDeterministicScore compliance buyingSignals leadType
            relationshipType dealOutcome
          = applyOutcome
              (Math_min (of_Z 100)
                 (Math_round
                    (add
                       (mul
                          (div
                             (of_Z (ScoreSpec.specPassed compliance leadType
                                      relationshipType))
                             (of_Z (ScoreSpec.specApplicable leadType
                                      relationshipType)))
                          (of_Z 70))
                       (buyingBoost buyingSignals))))
              dealOutcome)
    /\ (ScoreSpec.freshProspect leadType relationshipType = false ->
        forall (c1 c2 : JsVal) (buyingSignals : number) (dealOutcome : string),
          (forall check : string,
             In check [ "priceAdherence"; "objectionHandled"; "hardCloseAttempted" ] ->
             ScoreSpec.checkIsTrue c1 check = ScoreSpec.checkIsTrue c2 check) ->
          calculateDeterministicScore c1 buyingSignals leadType relationshipType
            dealOutcome
          = calculateDeterministicScore c2 buyingSignals leadType relationshipType
              dealOutcome)
    /\ (ScoreSpec.freshProspect leadType relationshipType = true ->
        forall check : string,
          In check [ "dmVerified"; "needDiscovery" ] ->
          percentage (onlyCheck check) leadType relationshipType
          <> percentage JUndefined leadType relationshipType).
Proof.
  intros leadType relationshipType.
  assert (Hshare : forall compliance : JsVal,
    percentage compliance leadType relationshipType
    = mul
        (div
           (of_Z (ScoreSpec.specPassed compliance leadType relationshipType))
           (of_Z (ScoreSpec.specApplicable leadType relationshipType)))
        (of_Z 70)).
  { intros compliance. unfold percentage, of_nat.
    rewrite passed_count, applicable_count. reflexivity. }
  split; [ destruct leadType, relationshipType; reflexivity | ].
  split.
  { intros compliance. unfold passedChecks.
    destruct leadType, relationshipType; reflexivity. }
  split; [ reflexivity | ].
  split.
  { destruct leadType, relationshipType; cbn; split; intros H;
      try reflexivity; try discriminate H; auto.
    destruct H as [ H | H ]; discriminate H. }
  split; [ exact Hshare | ].
  split.
  { intros compliance buyingSignals dealOutcome.
    unfold calculateDeterministicScore, preRejectionScore.
    rewrite Hshare. reflexivity. }
  split.
  { intros Hfresh c1 c2 buyingSignals dealOutcome Hsame.
    unfold calculateDeterministicScore, preRejectionScore.
    rewrite !Hshare. unfold ScoreSpec.specPassed, ScoreSpec.countedChecks.
    rewrite Hfresh. cbn [ScoreSpec.countTrue].
    rewrite !Hsame by (cbn [In]; auto). reflexivity. }
  intros Hfresh check Hin.
  destruct leadType, relationshipType; try discriminate Hfresh.
  destruct Hin as [ <- | [ <- | [] ] ]; vm_compute; discriminate.
Qed.

(** C10. The list of applicable checks has five entries for a fresh
    prospect and three otherwise, so it is never empty: the divisor of line
    103 is a non-zero number and the quotient is a finite number. *)
Theorem applicable_checks_never_empty :
  forall (leadType : LeadType) (relationshipType : RelationshipType),
    length (applicableChecks leadType relationshipType) =
      match leadType, relationshipType with
      | NEW_LEAD, LEAD => 5%nat
      | _, _ => 3%nat
      end
    /\ applicableChecks leadType relationshipType <> []
    /\ Num.toBoolean
         (of_nat (length (applicableChecks leadType relationshipType))) = true
    /\ (forall compliance : JsVal,
          percentage compliance leadType relationshipType
            = mul (passedRatio compliance leadType relationshipType) (of_Z 70)
          /\ is_finite (passedRatio compliance leadType relationshipType) = true).
Proof.
  intros leadType relationshipType.
  split; [ | split; [ | split ] ].
  - destruct leadType, relationshipType; reflexivity.
  - destruct leadType, relationshipType; discriminate.
  - destruct leadType, relationshipType; vm_compute; reflexivity.
  - intros compliance. split; [ reflexivity | ]. unfold passedRatio.
    pose proof (passed_le_applicable compliance leadType relationshipType) as Hle.
    revert Hle.
    generalize (length (passedChecks compliance leadType relationshipType)).
    intros passed Hle.
    assert (Hlen :
      (length (applicableChecks leadType relationshipType) <= 5)%nat)
      by (destruct leadType, relationshipType; vm_compute; lia).
    assert (Hcases : In passed (seq 0 6)) by (apply in_seq; lia).
    destruct leadType, relationshipType;
      repeat (destruct Hcases as [ <- | Hcases ];
              [ first [ vm_compute; reflexivity
                      | exfalso; vm_compute in Hle; lia ] | ]);
      destruct Hcases.
Qed.

End ScoreChecks.

(* ===================================================================== *)
(** ** Exhaustive checks over bounded ranges *)
(* ===================================================================== *)

Module Enum.

(** Bounded quantification by exhaustive evaluation. *)
Definition range (n : nat) : list Z := map Z.of_nat (seq 0 n).

Lemma in_range (n : nat) (z : Z) : 0 <= z < Z.of_nat n -> In z (range n).
Proof.
  intros Hz. unfold range. apply in_map_iff.
  exists (Z.to_nat z). split; [ lia | apply in_seq; lia ].
Qed.

Lemma forallb_range (P : Z -> bool) (n : nat) :
  forallb P (range n) = true ->
  forall z, 0 <= z < Z.of_nat n -> P z = true.
Proof.
  intros Hall z Hz. rewrite forallb_forall in Hall.
  apply Hall, in_range, Hz.
Qed.

Lemma forallb_range2 (P : Z -> Z -> bool) (n m : nat) :
  forallb (fun a => forallb (P a) (range m)) (range n) = true ->
  forall a b, 0 <= a < Z.of_nat n -> 0 <= b < Z.of_nat m -> P a b = true.
Proof.
  intros Hall a b Ha Hb.
  pose proof (forallb_range _ _ Hall a Ha) as Hrow. cbv beta in Hrow.
  exact (forallb_range _ _ Hrow b Hb).
Qed.

Lemma eqb_eq (a b : number) : Num.eqb a b = true -> a = b.
Proof.
  destruct a as [ s | s | | s m e ], b as [ t | t | | t n f ]; cbn [Num.eqb];
    try discriminate; try reflexivity.
  - intros H. apply Bool.eqb_prop in H. congruence.
  - intros H. apply Bool.eqb_prop in H. congruence.
  - intros H. apply andb_prop in H as [ H He ]. apply andb_prop in H as [ Hs Hm ].
    apply Bool.eqb_prop in Hs. apply Pos.eqb_eq in Hm. apply Z.eqb_eq in He.
    congruence.
Qed.

End Enum.

(* ===================================================================== *)
(** ** Comparing small integers as numbers *)
(* ===================================================================== *)

Module Compare.
Import Enum.

Definition leb_exact_entry (a b : Z) : bool :=
  Bool.eqb (leb (of_Z a) (of_Z b)) (a <=? b).

Lemma leb_exact_table :
  forallb (fun a => forallb (leb_exact_entry a) (range 101)) (range 101) = true.
Proof. vm_compute. reflexivity. Qed.

(** On the integers from 0 to 100 the comparison of numbers is the
    comparison of integers. *)
Lemma leb_of_Z_exact (a b : Z) :
  0 <= a <= 100 -> 0 <= b <= 100 -> leb (of_Z a) (of_Z b) = (a <=? b).
Proof.
  intros Ha Hb.
  pose proof (forallb_range2 leb_exact_entry 101 101 leb_exact_table a b
                ltac:(lia) ltac:(lia)) as H.
  unfold leb_exact_entry in H. apply Bool.eqb_prop in H. exact H.
Qed.

End Compare.

(* ===================================================================== *)
(** ** The deterministic score *)
(* ===================================================================== *)

Module ScoreFacts.
Import GeminiService ScoreSpec Enum.

(** The floating-point evaluation of lines 103-107 on [passed] checks out of
    [applicable] and [k] counted signals. *)
Definition preRejectionCore (passed applicable : nat) (k : Z) : number :=
  Math_min (of_Z 100)
    (Math_round
       (add (mul (div (of_nat passed) (of_nat applicable)) (of_Z 70))
            (mul (of_Z k) (of_Z 6)))).

Definition pre_entry (applicable : nat) (p k : Z) : bool :=
  Num.eqb (preRejectionCore (Z.to_nat p) applicable k)
          (of_Z (specPreRejection p (Z.of_nat applicable) k))
  && (0 <=? specPreRejection p (Z.of_nat applicable) k)
  && (specPreRejection p (Z.of_nat applicable) k <=? 100).

Lemma pre_table_ok :
  forallb (fun p => forallb (pre_entry 3 p) (range 6)) (range 4) = true
  /\ forallb (fun p => forallb (pre_entry 5 p) (range 6)) (range 6) = true.
Proof. split; vm_compute; reflexivity. Qed.

Lemma applicable_3_or_5 leadType relationshipType :
  length (applicableChecks leadType relationshipType) = 3%nat
  \/ length (applicableChecks leadType relationshipType) = 5%nat.
Proof. destruct leadType, relationshipType; vm_compute; auto. Qed.

Lemma spec_min_signals (p a n : Z) :
  specPreRejection p a n = specPreRejection p a (Z.min n 5).
Proof.
  unfold specPreRejection.
  rewrite Z.min_l with (n := Z.min n 5) by lia. reflexivity.
Qed.

(** The score before the penalties is the exact formula. *)
Lemma preRejectionScore_exact compliance n leadType relationshipType :
  0 <= n ->
  let passed :=
    Z.of_nat (length (passedChecks compliance leadType relationshipType)) in
  let applicable :=
    Z.of_nat (length (applicableChecks leadType relationshipType)) in
  preRejectionScore compliance (of_Z n) leadType relationshipType
    = of_Z (specPreRejection passed applicable n)
  /\ 0 <= specPreRejection passed applicable n <= 100.
Proof.
  intros Hn passed applicable. subst passed applicable.
  unfold preRejectionScore, percentage, buyingBoost.
  rewrite NumFacts.Math_min_count by assumption.
  rewrite spec_min_signals.
  pose proof (ScoreChecks.passed_le_applicable compliance leadType relationshipType)
    as Hle.
  revert Hle.
  generalize (length (passedChecks compliance leadType relationshipType)).
  intros passed Hle.
  assert (Hk : 0 <= Z.min n 5 < Z.of_nat 6) by lia.
  revert Hk. generalize (Z.min n 5). intros k Hk.
  change (Math_min (of_Z 100) _)
    with (preRejectionCore passed
            (length (applicableChecks leadType relationshipType)) k).
  destruct pre_table_ok as [ H3 H5 ].
  destruct (applicable_3_or_5 leadType relationshipType) as [ Hlen | Hlen ];
    rewrite Hlen in *.
  - pose proof (forallb_range2 (pre_entry 3) 4 6 H3 (Z.of_nat passed) k
                  ltac:(lia) Hk) as H.
    unfold pre_entry in H. rewrite Nat2Z.id in H.
    apply andb_prop in H as [ H Hhi ]. apply andb_prop in H as [ H Hlo ].
    apply eqb_eq in H. split; [ exact H | lia ].
  - pose proof (forallb_range2 (pre_entry 5) 6 6 H5 (Z.of_nat passed) k
                  ltac:(lia) Hk) as H.
    unfold pre_entry in H. rewrite Nat2Z.id in H.
    apply andb_prop in H as [ H Hhi ]. apply andb_prop in H as [ H Hlo ].
    apply eqb_eq in H. split; [ exact H | lia ].
Qed.

Definition outcome_entry (dealOutcome : string) (s : Z) : bool :=
  Num.eqb (applyOutcome (of_Z s) dealOutcome) (of_Z (specOutcome s dealOutcome))
  && (0 <=? specOutcome s dealOutcome)
  && (specOutcome s dealOutcome <=? 100).

Lemma outcome_table_ok :
  forallb (outcome_entry "HardRejection") (range 101) = true
  /\ forallb (outcome_entry "SoftRejection") (range 101) = true
  /\ forallb (outcome_entry "") (range 101) = true.
Proof. repeat split; vm_compute; reflexivity. Qed.

(** Only the two rejection outcomes matter. *)
Lemma applyOutcome_other (x : number) (dealOutcome : string) :
  dealOutcome <> "HardRejection" -> dealOutcome <> "SoftRejection" ->
  applyOutcome x dealOutcome = Math_round x.
Proof.
  intros Hh Hs. unfold applyOutcome.
  apply String.eqb_neq in Hh. apply String.eqb_neq in Hs.
  rewrite Hh, Hs. reflexivity.
Qed.

Lemma specOutcome_other (s : Z) (dealOutcome : string) :
  dealOutcome <> "HardRejection" -> dealOutcome <> "SoftRejection" ->
  specOutcome s dealOutcome = s.
Proof.
  intros Hh Hs. unfold specOutcome.
  apply String.eqb_neq in Hh. apply String.eqb_neq in Hs.
  rewrite Hh, Hs. reflexivity.
Qed.

Lemma outcome_cases (dealOutcome : string) :
  dealOutcome = "HardRejection" \/ dealOutcome = "SoftRejection"
  \/ (dealOutcome <> "HardRejection" /\ dealOutcome <> "SoftRejection").
Proof.
  destruct (String.eqb_spec dealOutcome "HardRejection"); [ auto | ].
  destruct (String.eqb_spec dealOutcome "SoftRejection"); auto.
Qed.

Lemma applyOutcome_exact (s : Z) (dealOutcome : string) :
  0 <= s <= 100 ->
  applyOutcome (of_Z s) dealOutcome = of_Z (specOutcome s dealOutcome)
  /\ 0 <= specOutcome s dealOutcome <= 100.
Proof.
  intros Hs.
  destruct outcome_table_ok as (Hhard & Hsoft & Hnone).
  assert (Hrow : forall o, forallb (outcome_entry o) (range 101) = true ->
            applyOutcome (of_Z s) o = of_Z (specOutcome s o)
            /\ 0 <= specOutcome s o <= 100).
  { intros o Ho.
    pose proof (forallb_range (outcome_entry o) 101 Ho s ltac:(lia)) as H.
    unfold outcome_entry in H.
    apply andb_prop in H as [ H Hhi ]. apply andb_prop in H as [ H Hlo ].
    apply eqb_eq in H. split; [ exact H | lia ]. }
  destruct (outcome_cases dealOutcome) as [ -> | [ -> | [ Hh Hsf ] ] ].
  - apply Hrow, Hhard.
  - apply Hrow, Hsoft.
  - rewrite applyOutcome_other, specOutcome_other by assumption.
    destruct (Hrow "" Hnone) as [ Heq Hr ].
    rewrite applyOutcome_other, specOutcome_other in Heq by discriminate.
    rewrite specOutcome_other in Hr by discriminate.
    split; assumption.
Qed.


Lemma Qround_half_up_mono (q r : Q) :
  Qle q r -> Qround_half_up q <= Qround_half_up r.
Proof.
  intros H. unfold Qround_half_up. apply Qfloor_resp_le.
  apply Qplus_le_compat; [ exact H | apply Qle_refl ].
Qed.

Lemma specPreRejection_mono (p1 p2 a n1 n2 : Z) :
  0 < a -> p1 <= p2 -> n1 <= n2 ->
  specPreRejection p1 a n1 <= specPreRejection p2 a n2.
Proof.
  intros Ha Hp Hn. unfold specPreRejection.
  apply Z.min_le_compat_l, Qround_half_up_mono.
  apply Qplus_le_compat.
  - apply Qmult_le_compat_r; [ | discriminate ].
    unfold Qdiv. apply Qmult_le_compat_r.
    + rewrite <- Zle_Qle. exact Hp.
    + apply Qinv_le_0_compat. change 0%Q with (inject_Z 0).
      rewrite <- Zle_Qle. lia.
  - apply Qmult_le_compat_r; [ | discriminate ].
    rewrite <- Zle_Qle. lia.
Qed.

Lemma specScaled_mono (percent s1 s2 : Z) :
  0 <= percent -> s1 <= s2 -> specScaled percent s1 <= specScaled percent s2.
Proof.
  intros Hp Hs. unfold specScaled. apply Qround_half_up_mono.
  rewrite (Qmult_comm _ (inject_Z s1)), (Qmult_comm _ (inject_Z s2)).
  apply Qmult_le_compat_r.
  - rewrite <- Zle_Qle. exact Hs.
  - unfold Qdiv. apply Qmult_le_0_compat; [ | discriminate ].
    change 0%Q with (inject_Z 0). rewrite <- Zle_Qle. exact Hp.
Qed.

Lemma specOutcome_mono (s1 s2 : Z) (dealOutcome : string) :
  s1 <= s2 -> specOutcome s1 dealOutcome <= specOutcome s2 dealOutcome.
Proof.
  intros Hs. unfold specOutcome.
  destruct (String.eqb dealOutcome "HardRejection");
    [ apply specScaled_mono; lia | ].
  destruct (String.eqb dealOutcome "SoftRejection");
    [ apply specScaled_mono; lia | exact Hs ].
Qed.

(** The score is the exact formula, for every count of buying signals. *)
Lemma score_exact compliance n leadType relationshipType dealOutcome :
  0 <= n ->
  let passed := Z.of_nat (length (passedChecks compliance leadType relationshipType)) in
  let applicable := Z.of_nat (length (applicableChecks leadType relationshipType)) in
  calculateDeterministicScore compliance (of_Z n) leadType relationshipType dealOutcome
    = of_Z (specOutcome (specPreRejection passed applicable n) dealOutcome)
  /\ 0 <= specOutcome (specPreRejection passed applicable n) dealOutcome <= 100.
Proof.
  intros Hn passed applicable. unfold calculateDeterministicScore.
  destruct (preRejectionScore_exact compliance n leadType relationshipType Hn)
    as [ -> Hrange ].
  apply applyOutcome_exact, Hrange.
Qed.

Lemma applicable_pos leadType relationshipType :
  0 < Z.of_nat (length (applicableChecks leadType relationshipType)).
Proof. destruct (applicable_3_or_5 leadType relationshipType) as [ -> | -> ]; lia. Qed.

(** An example record: every check passed. *)
Definition allPassed : JsVal :=
  JObj (list_to_map
          [ ("dmVerified", JBool true); ("needDiscovery", JBool true);
            ("priceAdherence", JBool true); ("objectionHandled", JBool true);
            ("hardCloseAttempted", JBool true) ]).

(** An example record: only the price check passed. *)
Definition priceOnly : JsVal :=
  JObj (list_to_map [ ("dmVerified", JBool false); ("priceAdherence", JBool true) ]).

(** A few scores, evaluated. *)
Example score_all_passed_no_signal :
  calculateDeterministicScore allPassed (of_Z 0) NEW_LEAD LEAD "Neutral" = of_Z 70.
Proof. vm_compute. reflexivity. Qed.

Example score_all_passed_five_signals :
  calculateDeterministicScore allPassed (of_Z 5) NEW_LEAD LEAD "StrongInterest"
    = of_Z 100.
Proof. vm_compute. reflexivity. Qed.

Example score_one_of_three :
  calculateDeterministicScore priceOnly (of_Z 2) OLD_LEAD LEAD "Neutral" = of_Z 35
  /\ calculateDeterministicScore priceOnly (of_Z 2) OLD_LEAD LEAD "SoftRejection"
       = of_Z 21
  /\ calculateDeterministicScore priceOnly (of_Z 2) OLD_LEAD LEAD "HardRejection"
       = of_Z 5.
Proof. repeat split; vm_compute; reflexivity. Qed.

Example score_without_compliance :
  calculateDeterministicScore JUndefined (of_Z 0) NEW_LEAD LEAD "" = of_Z 0.
Proof. vm_compute. reflexivity. Qed.

(** C1. For every compliance record, every non-negative count of buying
    signals, every lead type, relationship type and deal outcome, the score
    is an integer between 0 and 100. *)
Theorem score_integer_in_range :
  forall (compliance : JsVal) (n : Z) (leadType : LeadType)
         (relationshipType : RelationshipType) (dealOutcome : string),
    0 <= n ->
    exists z : Z,
      calculateDeterministicScore compliance (of_Z n) leadType relationshipType
        dealOutcome = of_Z z
      /\ 0 <= z <= 100.
Proof.
  intros compliance n leadType relationshipType dealOutcome Hn.
  destruct (score_exact compliance n leadType relationshipType dealOutcome Hn)
    as [ Heq Hrange ].
  eexists. split; [ exact Heq | exact Hrange ].
Qed.

Lemma score_integer_in_range_witness :
  0 <= 7
  /\ exists z : Z,
       calculateDeterministicScore priceOnly (of_Z 7) OLD_LEAD LEAD "SoftRejection"
         = of_Z z
       /\ 0 <= z <= 100.
Proof.
  split; [ lia | ].
  apply (score_integer_in_range priceOnly 7 OLD_LEAD LEAD "SoftRejection"). lia.
Defined.

(** C2. With the lead type, the relationship type and the deal outcome
    fixed, the score does not decrease when more applicable checks pass or
    when the count of buying signals grows. *)
Theorem score_monotone :
  forall (c1 c2 : JsVal) (n1 n2 : Z) (leadType : LeadType)
         (relationshipType : RelationshipType) (dealOutcome : string),
    (length (passedChecks c1 leadType relationshipType)
     <= length (passedChecks c2 leadType relationshipType))%nat ->
    0 <= n1 -> n1 <= n2 ->
    leb (calculateDeterministicScore c1 (of_Z n1) leadType relationshipType dealOutcome)
        (calculateDeterministicScore c2 (of_Z n2) leadType relationshipType dealOutcome)
      = true
    /\ exists z1 z2 : Z,
         calculateDeterministicScore c1 (of_Z n1) leadType relationshipType dealOutcome
           = of_Z z1
         /\ calculateDeterministicScore c2 (of_Z n2) leadType relationshipType dealOutcome
              = of_Z z2
         /\ z1 <= z2.
Proof.
  intros c1 c2 n1 n2 leadType relationshipType dealOutcome Hpassed Hn1 Hn.
  destruct (score_exact c1 n1 leadType relationshipType dealOutcome Hn1)
    as [ Heq1 Hr1 ].
  destruct (score_exact c2 n2 leadType relationshipType dealOutcome ltac:(lia))
    as [ Heq2 Hr2 ].
  assert (Hle :
    specOutcome
      (specPreRejection (Z.of_nat (length (passedChecks c1 leadType relationshipType)))
         (Z.of_nat (length (applicableChecks leadType relationshipType))) n1)
      dealOutcome
    <= specOutcome
         (specPreRejection (Z.of_nat (length (passedChecks c2 leadType relationshipType)))
            (Z.of_nat (length (applicableChecks leadType relationshipType))) n2)
         dealOutcome).
  { apply specOutcome_mono, specPreRejection_mono;
      [ apply applicable_pos | lia | lia ]. }
  rewrite Heq1, Heq2. split.
  - rewrite Compare.leb_of_Z_exact by lia. apply Z.leb_le. lia.
  - eexists. eexists. split; [ reflexivity | split; [ reflexivity | exact Hle ] ].
Qed.

Lemma score_monotone_witness :
  ((length (passedChecks priceOnly NEW_LEAD LEAD)
    <= length (passedChecks allPassed NEW_LEAD LEAD))%nat
   /\ 0 <= 1 /\ 1 <= 4)
  /\ leb (calculateDeterministicScore priceOnly (of_Z 1) NEW_LEAD LEAD "HardRejection")
         (calculateDeterministicScore allPassed (of_Z 4) NEW_LEAD LEAD "HardRejection")
       = true.
Proof.
  split.
  - split; [ vm_compute; lia | lia ].
  - apply (score_monotone priceOnly allPassed 1 4 NEW_LEAD LEAD "HardRejection").
    + vm_compute. lia.
    + lia.
    + lia.
Defined.


(** C3, as stated, fails: with every check passed and no buying signal a
    fresh prospect scores 70, and 11 under a hard rejection, which is not
    15% of 70. *)
Lemma hard_rejection_not_exactly_15_percent :
  calculateDeterministicScore allPassed (of_Z 0) NEW_LEAD LEAD "Neutral" = of_Z 70
  /\ calculateDeterministicScore allPassed (of_Z 0) NEW_LEAD LEAD "HardRejection"
       = of_Z 11
  /\ ~ Qeq (to_Q (calculateDeterministicScore allPassed (of_Z 0) NEW_LEAD LEAD
                    "HardRejection"))
           (Qmult (15 # 100)
              (to_Q (calculateDeterministicScore allPassed (of_Z 0) NEW_LEAD LEAD
                       "Neutral"))).
Proof.
  split; [ vm_compute; reflexivity | ].
  split; [ vm_compute; reflexivity | ].
  vm_compute. discriminate.
Qed.

(** C3, amended. Under a hard rejection the score is 15% of the score of
    the same call under a non-rejection outcome, rounded to the nearest
    integer (ties going up); under a soft rejection it is 60% of it, rounded
    likewise; under every other outcome it is that score unchanged. *)
Theorem rejection_scales_then_rounds :
  forall (compliance : JsVal) (n : Z) (leadType : LeadType)
         (relationshipType : RelationshipType),
    0 <= n ->
    exists s : Z,
      0 <= s <= 100
      /\ preRejectionScore compliance (of_Z n) leadType relationshipType = of_Z s
      /\ (forall other : string,
            other <> "HardRejection" -> other <> "SoftRejection" ->
            calculateDeterministicScore compliance (of_Z n) leadType
              relationshipType other = of_Z s)
      /\ calculateDeterministicScore compliance (of_Z n) leadType relationshipType
           "HardRejection" = of_Z (specScaled 15 s)
      /\ calculateDeterministicScore compliance (of_Z n) leadType relationshipType
           "SoftRejection" = of_Z (specScaled 60 s).
Proof.
  intros compliance n leadType relationshipType Hn.
  destruct (preRejectionScore_exact compliance n leadType relationshipType Hn)
    as [ Hpre Hrange ].
  eexists. split; [ exact Hrange | ]. split; [ exact Hpre | ].
  unfold calculateDeterministicScore. rewrite Hpre.
  split; [ | split ].
  - intros other Hh Hs.
    destruct (applyOutcome_exact _ other Hrange) as [ -> _ ].
    rewrite specOutcome_other by assumption. reflexivity.
  - destruct (applyOutcome_exact _ "HardRejection" Hrange) as [ -> _ ]. reflexivity.
  - destruct (applyOutcome_exact _ "SoftRejection" Hrange) as [ -> _ ]. reflexivity.
Qed.

Lemma rejection_scales_then_rounds_witness :
  0 <= 2
  /\ exists s : Z,
       0 <= s <= 100
       /\ preRejectionScore allPassed (of_Z 2) NEW_LEAD CLIENT = of_Z s
       /\ (forall other : string,
             other <> "HardRejection" -> other <> "SoftRejection" ->
             calculateDeterministicScore allPassed (of_Z 2) NEW_LEAD CLIENT other
               = of_Z s)
       /\ calculateDeterministicScore allPassed (of_Z 2) NEW_LEAD CLIENT
            "HardRejection" = of_Z (specScaled 15 s)
       /\ calculateDeterministicScore allPassed (of_Z 2) NEW_LEAD CLIENT
            "SoftRejection" = of_Z (specScaled 60 s).
Proof.
  split; [ lia | ].
  apply (rejection_scales_then_rounds allPassed 2 NEW_LEAD CLIENT). lia.
Defined.

Definition percentage_entry (applicable : nat) (p : Z) : bool :=
  leb (mul (div (of_nat (Z.to_nat p)) (of_nat applicable)) (of_Z 70)) (of_Z 70).

Lemma percentage_table_ok :
  forallb (percentage_entry 3) (range 4) = true
  /\ forallb (percentage_entry 5) (range 6) = true.
Proof. split; vm_compute; reflexivity. Qed.

Lemma percentage_le_70 compliance leadType relationshipType :
  leb (percentage compliance leadType relationshipType) (of_Z 70) = true.
Proof.
  unfold percentage.
  pose proof (ScoreChecks.passed_le_applicable compliance leadType relationshipType)
    as Hle.
  revert Hle.
  generalize (length (passedChecks compliance leadType relationshipType)).
  intros passed Hle.
  destruct percentage_table_ok as [ H3 H5 ].
  destruct (applicable_3_or_5 leadType relationshipType) as [ Hlen | Hlen ];
    rewrite Hlen in *.
  - pose proof (forallb_range (percentage_entry 3) 4 H3 (Z.of_nat passed) ltac:(lia))
      as H.
    unfold percentage_entry in H. rewrite Nat2Z.id in H. exact H.
  - pose proof (forallb_range (percentage_entry 5) 6 H5 (Z.of_nat passed) ltac:(lia))
      as H.
    unfold percentage_entry in H. rewrite Nat2Z.id in H. exact H.
Qed.

Definition boost_entry (k : Z) : bool :=
  Num.eqb (mul (of_Z k) (of_Z 6)) (of_Z (6 * k)).

Lemma boost_table_ok : forallb boost_entry (range 6) = true.
Proof. vm_compute. reflexivity. Qed.

Lemma buyingBoost_exact (n : Z) :
  0 <= n -> buyingBoost (of_Z n) = of_Z (6 * Z.min n 5).
Proof.
  intros Hn. unfold buyingBoost. rewrite NumFacts.Math_min_count by assumption.
  assert (Hk : 0 <= Z.min n 5 < Z.of_nat 6) by lia.
  revert Hk. generalize (Z.min n 5). intros k Hk.
  apply eqb_eq.
  exact (forallb_range boost_entry 6 boost_table_ok k Hk).
Qed.

(** C4. Before the rejection penalties the score is
    [min(100, round((passed / applicable) * 70 + min(buyingSignals, 5) * 6))],
    where [passed] is the number of applicable checks that are true in the
    compliance record and [applicable] the number of applicable checks:
    the checks contribute at most 70 points, and the buying signals six
    points each, at most five of them counting, hence at most 30 points. *)
Theorem pre_rejection_formula :
  forall (compliance : JsVal) (n : Z) (leadType : LeadType)
         (relationshipType : RelationshipType),
    0 <= n ->
    preRejectionScore compliance (of_Z n) leadType relationshipType
      = of_Z (specPreRejection
                (specPassed compliance leadType relationshipType)
                (specApplicable leadType relationshipType)
                n)
    /\ 0 <= specPassed compliance leadType relationshipType
         <= specApplicable leadType relationshipType
    /\ (forall dealOutcome : string,
          calculateDeterministicScore compliance (of_Z n) leadType relationshipType
            dealOutcome
          = applyOutcome
              (of_Z (specPreRejection
                       (specPassed compliance leadType relationshipType)
                       (specApplicable leadType relationshipType)
                       n))
              dealOutcome)
    /\ percentage compliance leadType relationshipType
       = mul (div (of_Z (specPassed compliance leadType relationshipType))
                  (of_Z (specApplicable leadType relationshipType)))
             (of_Z 70)
    /\ leb (percentage compliance leadType relationshipType) (of_Z 70) = true
    /\ buyingBoost (of_Z n) = of_Z (6 * Z.min n 5)
    /\ 6 * Z.min n 5 <= 30.
Proof.
  intros compliance n leadType relationshipType Hn.
  pose proof (preRejectionScore_exact compliance n leadType relationshipType Hn)
    as [ Hscore _ ].
  pose proof (ScoreChecks.passed_le_applicable compliance leadType relationshipType)
    as Hle.
  rewrite ScoreChecks.passed_count, ScoreChecks.applicable_count in Hscore.
  apply Nat2Z.inj_le in Hle.
  rewrite ScoreChecks.passed_count, ScoreChecks.applicable_count in Hle.
  split; [ exact Hscore | ].
  split.
  { split; [ | exact Hle ].
    rewrite <- ScoreChecks.passed_count. lia. }
  split.
  { intros dealOutcome. unfold calculateDeterministicScore.
    rewrite Hscore. reflexivity. }
  split.
  { unfold percentage, of_nat.
    rewrite ScoreChecks.passed_count, ScoreChecks.applicable_count. reflexivity. }
  split; [ apply percentage_le_70 | ].
  split; [ apply buyingBoost_exact, Hn | lia ].
Qed.

Lemma pre_rejection_formula_witness :
  0 <= 9
  /\ specPassed priceOnly OLD_LEAD CLIENT = 1
  /\ specApplicable OLD_LEAD CLIENT = 3
  /\ preRejectionScore priceOnly (of_Z 9) OLD_LEAD CLIENT
     = of_Z (specPreRejection
               (specPassed priceOnly OLD_LEAD CLIENT)
               (specApplicable OLD_LEAD CLIENT)
               9).
Proof.
  split; [ lia | ].
  split; [ vm_compute; reflexivity | ].
  split; [ reflexivity | ].
  exact (proj1 (pre_rejection_formula priceOnly 9 OLD_LEAD CLIENT ltac:(lia))).
Defined.

End ScoreFacts.

(* ===================================================================== *)
(** ** Substrings *)
(* ===================================================================== *)

Module StringFacts.

Lemma append_cons (a : Ascii.ascii) (s t : string) :
  String.append (String a s) t = String a (String.append s t).
Proof. reflexivity. Qed.

Lemma prefix_app (sub s : string) :
  String.prefix sub s = true <-> exists post : string, s = String.append sub post.
Proof.
  revert s. induction sub as [ | a sub IH ]; intros s.
  - destruct s; cbn; split; eauto.
  - destruct s as [ | b s ]; cbn [String.prefix].
    + split; [ discriminate | intros (post & H); discriminate H ].
    + destruct (Ascii.ascii_dec a b) as [ -> | Hne ].
      * rewrite IH. split; intros (post & H); exists post.
        -- rewrite append_cons, H. reflexivity.
        -- rewrite append_cons in H. congruence.
      * split; [ discriminate | intros (post & H) ].
        rewrite append_cons in H. congruence.
Qed.

(** [str_includes s sub] holds exactly when [sub] occurs somewhere in [s]. *)
Lemma str_includes_occurs (s sub : string) :
  str_includes s sub = true
  <-> exists pre post : string, s = String.append pre (String.append sub post).
Proof.
  induction s as [ | a s IH ]; cbn [str_includes].
  - rewrite orb_false_r, prefix_app. split.
    + intros (post & H). exists "", post. exact H.
    + intros (pre & post & H). exists post.
      destruct pre; [ exact H | discriminate H ].
  - rewrite orb_true_iff, prefix_app, IH. split.
    + intros [ (post & H) | (pre & post & H) ].
      * exists "", post. exact H.
      * exists (String a pre), post. rewrite append_cons, H. reflexivity.
    + intros (pre & post & H). destruct pre as [ | b pre ].
      * left. exists post. exact H.
      * right. exists pre, post. rewrite append_cons in H. congruence.
Qed.

End StringFacts.

(* ===================================================================== *)
(** ** The retry wrapper *)
(* ===================================================================== *)

Module RetryFacts.
Import GeminiService.

(** A server-side failure, as the API client reports it. *)
Definition status500 : JsVal := JObj {[ "status" := JNum (of_Z 500) ]}.

(** A failure that is not a server-side one. *)
Definition quotaExceeded : JsVal :=
  JObj (<[ "status" := JNum (of_Z 429) ]>
        {[ "message" := JStr "quota exceeded" ]}).

(** The world is the number of calls made so far.  [alwaysDown] fails with
    a 500 on every call; [downTwice] fails with a 500 on its first two calls
    and then answers; [overQuota] fails with a 429. *)
Definition alwaysDown (calls : nat) : Completion string * nat :=
  (Rejected status500, S calls).

Definition downTwice (calls : nat) : Completion string * nat :=
  if (calls <? 2)%nat then (Rejected status500, S calls)
  else (Fulfilled "transcript", S calls).

Definition overQuota (calls : nat) : Completion string * nat :=
  (Rejected quotaExceeded, S calls).

Section Run.

Variables World T : Type.
Variable fn : World -> Completion T * World.

Lemma withRetry_unfold (retries : nat) (w : World) :
  withRetry fn retries w =
  match fn w with
  | (Fulfilled value, w1) => (Fulfilled value, w1, [Invoke])
  | (Rejected err, w1) =>
      match isInternalError err with
      | Rejected e => (Rejected e, w1, [Invoke])
      | Fulfilled internal =>
          match retries with
          | S retries' =>
              if internal then
                let delay := (4 - Z.of_nat retries) * 2000 in
                let '(result, w2, events) := withRetry fn retries' w1 in
                (result, w2,
                 Invoke :: Warn delay retries :: Sleep delay :: events)
              else (Rejected err, w1, [Invoke])
          | O => (Rejected err, w1, [Invoke])
          end
      end
  end.
Proof. destruct retries; reflexivity. Qed.

(** The number of retries never exceeds the budget, and every retry is one
    more call of the operation. *)
Lemma withRetry_bounded (retries : nat) :
  forall w : World,
    (retriesMade (snd (withRetry fn retries w)) <= retries)%nat
    /\ invocations (snd (withRetry fn retries w))
       = S (retriesMade (snd (withRetry fn retries w))).
Proof.
  induction retries as [ | retries IH ]; intros w; rewrite withRetry_unfold.
  - destruct (fn w) as [ [ value | err ] w1 ]; [ cbn; lia | ].
    destruct (isInternalError err) as [ internal | e ]; cbn; lia.
  - destruct (fn w) as [ [ value | err ] w1 ]; [ cbn; lia | ].
    destruct (isInternalError err) as [ [ | ] | e ]; try (cbn; lia).
    specialize (IH w1).
    destruct (withRetry fn retries w1) as [ [ result w2 ] events ].
    cbn [snd] in *. unfold retriesMade, invocations in *.
    cbn [List.filter length]. lia.
Qed.

(** A fulfilled result is the value of the last call, as it was. *)
Lemma withRetry_fulfilled (retries : nat) :
  forall (w w' : World) (value : T) (events : list Event),
    withRetry fn retries w = (Fulfilled value, w', events) ->
    exists w0 : World, fn w0 = (Fulfilled value, w').
Proof.
  induction retries as [ | retries IH ]; intros w w' value events;
    rewrite withRetry_unfold.
  - destruct (fn w) as [ [ v | err ] w1 ] eqn:Hfn.
    + intros [= <- <- <-]. exists w. exact Hfn.
    + destruct (isInternalError err) as [ internal | e ]; discriminate.
  - destruct (fn w) as [ [ v | err ] w1 ] eqn:Hfn.
    + intros [= <- <- <-]. exists w. exact Hfn.
    + destruct (isInternalError err) as [ [ | ] | e ]; try discriminate.
      destruct (withRetry fn retries w1) as [ [ result w2 ] evs ] eqn:Hrec.
      intros [= -> -> <-]. exact (IH _ _ _ _ Hrec).
Qed.

End Run.

(** C6, as stated, fails: recovery is not limited to one retry.  With the
    default budget an operation that is down twice is retried twice and then
    succeeds, and one that stays down is retried three times. *)
Lemma more_than_one_retry :
  withRetryDefault downTwice 0%nat
    = (Fulfilled "transcript", 3%nat,
       [ Invoke; Warn 2000 3; Sleep 2000; Invoke; Warn 4000 2; Sleep 4000; Invoke ])
  /\ retriesMade (snd (withRetryDefault alwaysDown 0%nat)) = 3%nat
  /\ ~ (retriesMade (snd (withRetryDefault alwaysDown 0%nat)) <= 1)%nat.
Proof.
  split; [ vm_compute; reflexivity | ].
  split; [ vm_compute; reflexivity | ].
  vm_compute. lia.
Qed.


(** An object whose [code] is 500 is truthy, so the guard [err.error &&]
    never changes the outcome of the test. *)
Lemma nested_code_test (v : JsVal) :
  truthy v && is_500 (getProp v "code") = is_500 (getProp v "code").
Proof.
  destruct v; cbn [truthy getProp is_500 andb]; rewrite ?andb_false_r; reflexivity.
Qed.

(** C6, amended. Recovery is limited to [retries] retries, three by
    default, each made only after a failure identified as a server-side 500
    error (a message containing '500', a status 500, or a nested error code
    500) while budget remains; an error not so identified is rethrown at
    once without any retry, and a successful result is returned unchanged. *)
Theorem withRetry_recovery :
  forall (World T : Type) (fn : World -> Completion T * World)
         (retries : nat) (w : World),
    (retriesMade (snd (withRetry fn retries w)) <= retries)%nat
    /\ (retriesMade (snd (withRetryDefault fn w)) <= 3)%nat
    /\ invocations (snd (withRetry fn retries w))
       = S (retriesMade (snd (withRetry fn retries w)))
    /\ (forall (value : T) (w1 : World),
          fn w = (Fulfilled value, w1) ->
          withRetry fn retries w = (Fulfilled value, w1, [ Invoke ]))
    /\ (forall (err : JsVal) (w1 : World),
          fn w = (Rejected err, w1) ->
          isInternalError err = Fulfilled false ->
          withRetry fn retries w = (Rejected err, w1, [ Invoke ]))
    /\ (forall (err : JsVal) (w1 : World),
          fn w = (Rejected err, w1) ->
          isInternalError err = Fulfilled true ->
          withRetry fn retries w =
            match retries with
            | O => (Rejected err, w1, [ Invoke ])
            | S retries' =>
                let delay := (4 - Z.of_nat retries) * 2000 in
                (fst (fst (withRetry fn retries' w1)),
                 snd (fst (withRetry fn retries' w1)),
                 Invoke :: Warn delay retries :: Sleep delay
                   :: snd (withRetry fn retries' w1))
            end)
    /\ (forall (value : T) (w' : World) (events : list Event),
          withRetry fn retries w = (Fulfilled value, w', events) ->
          exists w0 : World, fn w0 = (Fulfilled value, w'))
    /\ (forall (o : gmap string JsVal) (message : string),
          o !! "message" = Some (JStr message) ->
          isInternalError (JObj o)
            = Fulfilled
                (str_includes message "500"
                 || is_500 (getProp (JObj o) "status")
                 || is_500 (getProp (getProp (JObj o) "error") "code")))
    /\ (forall o : gmap string JsVal,
          o !! "message" = None ->
          isInternalError (JObj o)
            = Fulfilled
                (is_500 (getProp (JObj o) "status")
                 || is_500 (getProp (getProp (JObj o) "error") "code"))).
Proof.
  intros World T fn retries w.
  split; [ apply withRetry_bounded | ].
  split; [ apply (withRetry_bounded World T fn 3 w) | ].
  split; [ apply withRetry_bounded | ].
  split.
  { intros value w1 Hfn. rewrite withRetry_unfold, Hfn. reflexivity. }
  split.
  { intros err w1 Hfn Hclass. rewrite withRetry_unfold, Hfn, Hclass.
    destruct retries; reflexivity. }
  split.
  { intros err w1 Hfn Hclass. rewrite withRetry_unfold, Hfn, Hclass.
    destruct retries as [ | retries' ]; [ reflexivity | ].
    destruct (withRetry fn retries' w1) as [ [ result w2 ] events ]. reflexivity. }
  split.
  { intros value w' events Hrun.
    exact (withRetry_fulfilled World T fn retries w w' value events Hrun). }
  split.
  { intros o message Hmsg. unfold isInternalError, messageIncludes500.
    cbn [getProp]. rewrite Hmsg. cbn [default].
    rewrite nested_code_test. reflexivity. }
  { intros o Hmsg. unfold isInternalError, messageIncludes500.
    cbn [getProp]. rewrite Hmsg. cbn [default].
    rewrite nested_code_test. reflexivity. }
Qed.

Lemma withRetry_recovery_witness :
  (overQuota 0%nat = (Rejected quotaExceeded, 1%nat)
   /\ isInternalError quotaExceeded = Fulfilled false)
  /\ withRetry overQuota 3 0%nat = (Rejected quotaExceeded, 1%nat, [ Invoke ]).
Proof.
  split.
  - split; vm_compute; reflexivity.
  - apply (proj1 (proj2 (proj2 (proj2 (proj2
             (withRetry_recovery nat string overQuota 3 0%nat)))))).
    + vm_compute. reflexivity.
    + vm_compute. reflexivity.
Defined.

End RetryFacts.

(* ===================================================================== *)
(** ** The proxy endpoint *)
(* ===================================================================== *)

Module ApiFacts.
Import Api.

Section Endpoint.

Variable generateContent :
  GenerateContentParameters -> Completion (gmap string JsVal).

(** A request with another method is refused without a call. *)
Lemma handler_method_not_allowed (req : VercelRequest) :
  method req <> "POST" ->
  statusCode (fst (handler generateContent req)) = 405
  /\ snd (handler generateContent req) = [].
Proof.
  intros Hm. unfold handler. apply String.eqb_neq in Hm. rewrite Hm.
  split; reflexivity.
Qed.

(** A POST whose body is a value with properties is validated, forwarded
    and answered as the endpoint promises. *)
Lemma handler_post_with_body (req : VercelRequest) :
  method req = "POST" ->
  body req <> JUndefined -> body req <> JNull ->
  let params :=
    {| model := getProp (body req) "model";
       contents := getProp (body req) "contents";
       config := getProp (body req) "config" |} in
  if negb (truthy (getProp (body req) "model"))
     || negb (truthy (getProp (body req) "contents"))
  then
    statusCode (fst (handler generateContent req)) = 400
    /\ snd (handler generateContent req) = []
  else
    snd (handler generateContent req) = [ params ]
    /\ match generateContent params with
       | Fulfilled response =>
           statusCode (fst (handler generateContent req)) = 200
           /\ getProp (payload (fst (handler generateContent req))) "text"
              = getProp (JObj response) "text"
       | Rejected error =>
           statusCode (fst (handler generateContent req)) = 500
           /\ getProp (payload (fst (handler generateContent req))) "details"
              = js_or (optProp error "message") (JStr "Unknown error")
       end.
Proof.
  intros Hm Hu Hn params. subst params. unfold handler. rewrite Hm.
  cbn [String.eqb Ascii.eqb Bool.eqb negb].
  destruct (body req) as [ | | b | n | s | l | o | t ] eqn:Hbody;
    try congruence;
    (destruct (negb (truthy _) || negb (truthy _));
     [ split; reflexivity | ];
     destruct (generateContent _) as [ response | error ];
     (split; [ reflexivity | ]); (split; [ reflexivity | ]);
     cbn [fst payload requestFailed getProp];
     [ rewrite lookup_insert_eq | rewrite lookup_insert_ne by discriminate;
                                  rewrite lookup_insert_eq ];
     reflexivity).
Qed.

(** C7 fails on a POST that carries no body: the body lacks [model] and
    [contents], yet the answer is the 500 of a failed inference call, not
    the 400 of a rejected request, although the inference API was never
    called. *)
Theorem handler_post_without_body :
  let req := {| method := "POST"; body := JUndefined |} in
  truthy (optProp (body req) "model") = false
  /\ truthy (optProp (body req) "contents") = false
  /\ statusCode (fst (handler generateContent req)) = 500
  /\ statusCode (fst (handler generateContent req)) <> 400
  /\ getProp (payload (fst (handler generateContent req))) "error"
     = JStr "Gemini request failed"
  /\ snd (handler generateContent req) = [].
Proof.
  cbv zeta. repeat split; try reflexivity. discriminate.
Qed.

(** The same happens when the body is [null]. *)
Lemma handler_post_null_body :
  let req := {| method := "POST"; body := JNull |} in
  statusCode (fst (handler generateContent req)) = 500
  /\ snd (handler generateContent req) = [].
Proof. cbv zeta. split; reflexivity. Qed.

End Endpoint.

End ApiFacts.

(* ===================================================================== *)
(** ** The document converter *)
(* ===================================================================== *)

Module ConverterFacts.
Import FirebaseService.

(** The value stored under a path of keys of a document; [undefined] as
    soon as a key on the way is missing. *)
Definition lookupPath (data : gmap string JsVal) (path : list string) : JsVal :=
  fold_left getProp path (JObj data).

Definition missing (data : gmap string JsVal) (path : list string) : Prop :=
  lookupPath data path = JUndefined.

(** Reading a key of [v || {}] is reading it of [v]. *)
Lemma getProp_or_empty (v : JsVal) (k : string) :
  getProp (js_or v (JObj ∅)) k = getProp v k.
Proof.
  unfold js_or. destruct (truthy v) eqn:Ht; [ reflexivity | ].
  destruct v; try discriminate Ht; reflexivity.
Qed.

(** Every defaulted field is the stored value when that is truthy, and the
    default otherwise. *)
Lemma fromFirestore_fields (snapshot : QueryDocumentSnapshot) :
  let data := snapshot_data snapshot in
  let r := fromFirestore snapshot in
  let flag path := js_or (lookupPath data path) (JBool false) in
  let items path := js_or (lookupPath data path) (JArr []) in
  dmVerified (compliance r) = flag [ "compliance"; "dmVerified" ]
  /\ needDiscovery (compliance r) = flag [ "compliance"; "needDiscovery" ]
  /\ priceAdherence (compliance r) = flag [ "compliance"; "priceAdherence" ]
  /\ objectionHandled (compliance r) = flag [ "compliance"; "objectionHandled" ]
  /\ hardCloseAttempted (compliance r) = flag [ "compliance"; "hardCloseAttempted" ]
  /\ strengths (feedback r) = items [ "feedback"; "strengths" ]
  /\ weaknesses (feedback r) = items [ "feedback"; "weaknesses" ]
  /\ actionableSteps (feedback r) = items [ "feedback"; "actionableSteps" ]
  /\ missedOpportunities (feedback r) = items [ "feedback"; "missedOpportunities" ]
  /\ transcript r = items [ "transcript" ]
  /\ agentId r = js_or (lookupPath data [ "agentId" ]) (JStr "")
  /\ agentName r = js_or (lookupPath data [ "agentName" ]) (JStr "Unknown Agent")
  /\ deletedByResponder r = flag [ "deletedByResponder" ].
Proof.
  cbv zeta. unfold fromFirestore, lookupPath.
  cbn [fold_left dmVerified needDiscovery priceAdherence objectionHandled
       hardCloseAttempted strengths weaknesses actionableSteps
       missedOpportunities transcript agentId agentName deletedByResponder
       compliance feedback].
  rewrite !getProp_or_empty. repeat split.
Qed.

(** C8. In the record built from a document snapshot, each of the five
    compliance flags is [false] when it is missing from the document, each
    of the four feedback lists and the transcript is the empty list when
    missing, [agentId] is the empty string, [agentName] is 'Unknown Agent'
    and [deletedByResponder] is [false]. *)
Theorem fromFirestore_defaults :
  forall snapshot : QueryDocumentSnapshot,
    let data := snapshot_data snapshot in
    let r := fromFirestore snapshot in
    (missing data [ "compliance"; "dmVerified" ] ->
       dmVerified (compliance r) = JBool false)
    /\ (missing data [ "compliance"; "needDiscovery" ] ->
          needDiscovery (compliance r) = JBool false)
    /\ (missing data [ "compliance"; "priceAdherence" ] ->
          priceAdherence (compliance r) = JBool false)
    /\ (missing data [ "compliance"; "objectionHandled" ] ->
          objectionHandled (compliance r) = JBool false)
    /\ (missing data [ "compliance"; "hardCloseAttempted" ] ->
          hardCloseAttempted (compliance r) = JBool false)
    /\ (missing data [ "feedback"; "strengths" ] ->
          strengths (feedback r) = JArr [])
    /\ (missing data [ "feedback"; "weaknesses" ] ->
          weaknesses (feedback r) = JArr [])
    /\ (missing data [ "feedback"; "actionableSteps" ] ->
          actionableSteps (feedback r) = JArr [])
    /\ (missing data [ "feedback"; "missedOpportunities" ] ->
          missedOpportunities (feedback r) = JArr [])
    /\ (missing data [ "transcript" ] -> transcript r = JArr [])
    /\ (missing data [ "agentId" ] -> agentId r = JStr "")
    /\ (missing data [ "agentName" ] -> agentName r = JStr "Unknown Agent")
    /\ (missing data [ "deletedByResponder" ] ->
          deletedByResponder r = JBool false).
Proof.
  intros snapshot data r.
  pose proof (fromFirestore_fields snapshot) as H. cbv zeta in H.
  fold data in H. fold r in H.
  destruct H as (-> & -> & -> & -> & -> & -> & -> & -> & -> & -> & -> & -> & ->).
  unfold missing.
  repeat split; intros ->; reflexivity.
Qed.

(** A report stored with an agent name and two of the flags only. *)
Definition sparseSnapshot : QueryDocumentSnapshot :=
  {| snapshot_id := "report-1";
     snapshot_data :=
       list_to_map
         [ ("agentName", JStr "Asha");
           ("compliance",
             JObj (list_to_map [ ("dmVerified", JBool true);
                                 ("priceAdherence", JBool false) ])) ] |}.

Lemma fromFirestore_defaults_witness :
  (missing (snapshot_data sparseSnapshot) [ "compliance"; "needDiscovery" ]
   /\ missing (snapshot_data sparseSnapshot) [ "feedback"; "strengths" ]
   /\ missing (snapshot_data sparseSnapshot) [ "agentId" ])
  /\ needDiscovery (compliance (fromFirestore sparseSnapshot)) = JBool false
  /\ strengths (feedback (fromFirestore sparseSnapshot)) = JArr []
  /\ agentId (fromFirestore sparseSnapshot) = JStr "".
Proof.
  assert (Hc : missing (snapshot_data sparseSnapshot) [ "compliance"; "needDiscovery" ])
    by (vm_compute; reflexivity).
  assert (Hf : missing (snapshot_data sparseSnapshot) [ "feedback"; "strengths" ])
    by (vm_compute; reflexivity).
  assert (Ha : missing (snapshot_data sparseSnapshot) [ "agentId" ])
    by (vm_compute; reflexivity).
  pose proof (fromFirestore_defaults sparseSnapshot) as H. cbv zeta in H.
  destruct H as (_ & Hnd & _ & _ & _ & Hst & _ & _ & _ & _ & Hid & _).
  split; [ auto | ].
  split; [ exact (Hnd Hc) | ]. split; [ exact (Hst Hf) | exact (Hid Ha) ].
Defined.

End ConverterFacts.

(* ===================================================================== *)
(** ** Sets of reachable partial sums *)
(* ===================================================================== *)

Module Reach.
Import Enum.

(** A state pairs ten times the exact weighted sum so far with the
    floating-point partial sum the code holds at that point. *)
Definition State : Type := (Z * number)%type.

(** Finite sets of states, indexed by the exact sum. *)
Definition member (st : State) (states : gmap Z (list number)) : Prop :=
  exists fs : list number, states !! fst st = Some fs /\ In (snd st) fs.

Definition insert_state (st : State) (states : gmap Z (list number))
  : gmap Z (list number) :=
  let fs := default [] (states !! fst st) in
  if existsb (Num.eqb (snd st)) fs then states
  else <[ fst st := snd st :: fs ]> states.

Definition elements_of (states : gmap Z (list number)) : list State :=
  flat_map (fun entry => map (pair (fst entry)) (snd entry)) (map_to_list states).

(** All the states reached from [states] by one more choice. *)
Definition step {C : Type} (choices : list C) (next : State -> C -> State)
  (states : gmap Z (list number)) : gmap Z (list number) :=
  fold_right
    (fun st acc =>
       fold_right (fun c acc' => insert_state (next st c) acc') acc choices)
    ∅ (elements_of states).

Lemma member_insert_same (st : State) (states : gmap Z (list number)) :
  member st (insert_state st states).
Proof.
  unfold member, insert_state.
  destruct (existsb (Num.eqb (snd st)) (default [] (states !! fst st))) eqn:Hex.
  - apply existsb_exists in Hex as (f & Hin & Heq).
    apply eqb_eq in Heq. subst f.
    destruct (states !! fst st) as [ fs | ] eqn:Hlk; cbn [default] in Hin.
    + exists fs. split; [ reflexivity | exact Hin ].
    + destruct Hin.
  - eexists. split; [ apply lookup_insert_eq | left; reflexivity ].
Qed.

Lemma member_insert_other (st st' : State) (states : gmap Z (list number)) :
  member st states -> member st (insert_state st' states).
Proof.
  intros (fs & Hlk & Hin). unfold member, insert_state.
  destruct (existsb (Num.eqb (snd st')) (default [] (states !! fst st')));
    [ exists fs; split; assumption | ].
  destruct (decide (fst st' = fst st)) as [ Heq | Hne ].
  - rewrite Heq, Hlk. cbn [default].
    eexists. split; [ apply lookup_insert_eq | right; exact Hin ].
  - exists fs. split; [ rewrite lookup_insert_ne by exact Hne; exact Hlk | exact Hin ].
Qed.

Lemma member_elements (st : State) (states : gmap Z (list number)) :
  member st states -> In st (elements_of states).
Proof.
  intros (fs & Hlk & Hin). unfold elements_of. apply in_flat_map.
  exists (fst st, fs). split.
  - apply list_elem_of_In, elem_of_map_to_list. exact Hlk.
  - cbn [fst snd]. apply in_map_iff. exists (snd st).
    split; [ destruct st; reflexivity | exact Hin ].
Qed.

Lemma elements_member (st : State) (states : gmap Z (list number)) :
  In st (elements_of states) -> member st states.
Proof.
  unfold elements_of. intros Hin. apply in_flat_map in Hin as ([ n fs ] & Hentry & Hst).
  cbn [fst snd] in Hst. apply in_map_iff in Hst as (f & <- & Hf).
  apply list_elem_of_In, elem_of_map_to_list in Hentry.
  exists fs. split; assumption.
Qed.

Section Step.

Context {C : Type}.
Variable choices : list C.
Variable next : State -> C -> State.

Lemma fold_choices_keeps (st0 st : State) (acc : gmap Z (list number))
  (cs : list C) :
  member st acc ->
  member st (fold_right (fun c acc' => insert_state (next st0 c) acc') acc cs).
Proof.
  intros Hm. induction cs as [ | c cs IH ]; cbn [fold_right];
    [ exact Hm | apply member_insert_other, IH ].
Qed.

Lemma fold_choices_adds (st0 : State) (c : C) (acc : gmap Z (list number))
  (cs : list C) :
  In c cs ->
  member (next st0 c)
    (fold_right (fun c acc' => insert_state (next st0 c) acc') acc cs).
Proof.
  induction cs as [ | c' cs IH ]; cbn [fold_right In]; [ intros [] | ].
  intros [ -> | Hin ];
    [ apply member_insert_same | apply member_insert_other, IH, Hin ].
Qed.

Lemma step_member (st : State) (c : C) (states : gmap Z (list number)) :
  member st states -> In c choices -> member (next st c) (step choices next states).
Proof.
  intros Hst Hc. apply member_elements in Hst. unfold step.
  induction (elements_of states) as [ | st' sts IH ]; cbn [fold_right];
    [ destruct Hst | ].
  destruct Hst as [ -> | Hst ].
  - apply fold_choices_adds, Hc.
  - apply fold_choices_keeps, IH, Hst.
Qed.

End Step.

End Reach.

(* ===================================================================== *)
(** ** The lead strength *)
(* ===================================================================== *)

Module LeadFacts.
Import LeadAnalytics LeadSpec ScoreSpec Enum Reach.

(** The metric read through [field] is the integer [v], between 0 and 100;
    a metric that is missing from the analysis counts as 0. *)
Definition metricIs (analysis : CallAnalysis) (field : Metrics -> option number)
  (v : Z) : Prop :=
  0 <= v <= 100
  /\ ((exists m : Metrics, metrics analysis = Some m /\ field m = Some (of_Z v))
      \/ (v = 0
          /\ (metrics analysis = None
              \/ exists m : Metrics, metrics analysis = Some m /\ field m = None))).

(** Ten times the exact weighted sum. *)
Definition tenths (pk p al cl : Z) (handled : bool) : Z :=
  3 * pk + 3 * p + 2 * al + cl + (if handled then 100 else 0).

Lemma specLeadScore_tenths (pk p al cl : Z) (handled : bool) :
  specLeadScore pk p al cl handled = (tenths pk p al cl handled + 5) / 10.
Proof.
  unfold specLeadScore, Qround_half_up.
  assert (Heq : Qeq (Qplus (specWeightedSum pk p al cl handled) (1 # 2))
                    (Qmake (tenths pk p al cl handled + 5) 10)).
  { unfold specWeightedSum, tenths, Qeq.
    destruct handled; cbn [Qplus Qmult Qnum Qden inject_Z]; lia. }
  rewrite (Qfloor_comp _ _ Heq). reflexivity.
Qed.

(** Adding one term: [c] pairs ten times the exact value of the term with
    the product the code computes for it. *)
Definition advance (st : State) (c : State) : State :=
  (fst st + fst c, add (snd st) (snd c)).

(** The terms a metric between 0 and 100 can contribute under a weight. *)
Definition metricTerms (weightTenths : Z) (weight : number) : list State :=
  map (fun x => (weightTenths * x, mul (of_Z x) weight)) (range 101).

(** The two terms the objection flag can contribute. *)
Definition flagTerms : list State :=
  map (fun handled : bool =>
         (if handled then 100 else 0,
          mul (if handled then of_Z 100 else of_Z 0) lit_0_1))
    [ false; true ].

(** The partial sums the code can hold after each term, for integer
    metrics between 0 and 100. *)
Definition reach1 : gmap Z (list number) :=
  fold_right insert_state ∅ (metricTerms 3 lit_0_3).

Definition reach2 : gmap Z (list number) :=
  step (metricTerms 3 lit_0_3) advance reach1.

Definition reach3 : gmap Z (list number) :=
  step (metricTerms 2 lit_0_2) advance reach2.

Definition reach4 : gmap Z (list number) :=
  step (metricTerms 1 lit_0_1) advance reach3.

Definition reach5 : gmap Z (list number) :=
  step flagTerms advance reach4.

(** Rounding the floating-point sum gives the exactly rounded sum, or one
    less when the exact sum lies halfway between two integers. *)
Definition rounds_as_expected (st : State) : bool :=
  let z := (fst st + 5) / 10 in
  Num.eqb (Math_round (snd st)) (of_Z z)
  || ((fst st mod 10 =? 5) && Num.eqb (Math_round (snd st)) (of_Z (z - 1))).

Lemma reach5_rounds :
  forallb rounds_as_expected (elements_of reach5) = true.
Proof. vm_compute. reflexivity. Qed.

Lemma metricTerms_in (weightTenths : Z) (weight : number) (x : Z) :
  0 <= x <= 100 ->
  In (weightTenths * x, mul (of_Z x) weight) (metricTerms weightTenths weight).
Proof.
  intros Hx. unfold metricTerms. apply in_map_iff.
  exists x. split; [ reflexivity | apply in_range; lia ].
Qed.

Lemma reach1_member (x : Z) :
  0 <= x <= 100 -> member (3 * x, mul (of_Z x) lit_0_3) reach1.
Proof.
  intros Hx. unfold reach1.
  pose proof (metricTerms_in 3 lit_0_3 x Hx) as Hin.
  induction (metricTerms 3 lit_0_3) as [ | y ys IH ]; cbn [fold_right];
    [ destruct Hin | ].
  destruct Hin as [ -> | Hin ];
    [ apply member_insert_same | apply member_insert_other, IH, Hin ].
Qed.

Lemma reach5_member (pk p al cl : Z) (handled : bool) :
  0 <= pk <= 100 -> 0 <= p <= 100 -> 0 <= al <= 100 -> 0 <= cl <= 100 ->
  member
    (tenths pk p al cl handled,
     add (add (add (add (mul (of_Z pk) lit_0_3) (mul (of_Z p) lit_0_3))
                   (mul (of_Z al) lit_0_2))
              (mul (of_Z cl) lit_0_1))
         (mul (if handled then of_Z 100 else of_Z 0) lit_0_1))
    reach5.
Proof.
  intros Hpk Hp Hal Hcl.
  pose proof (reach1_member pk Hpk) as H1.
  pose proof (step_member (metricTerms 3 lit_0_3) advance _ _ reach1 H1
                (metricTerms_in 3 lit_0_3 p Hp)) as H2.
  pose proof (step_member (metricTerms 2 lit_0_2) advance _ _ _ H2
                (metricTerms_in 2 lit_0_2 al Hal)) as H3.
  pose proof (step_member (metricTerms 1 lit_0_1) advance _ _ _ H3
                (metricTerms_in 1 lit_0_1 cl Hcl)) as H4.
  assert (Hflag :
    In (if handled then 100 else 0,
        mul (if handled then of_Z 100 else of_Z 0) lit_0_1) flagTerms).
  { unfold flagTerms. apply in_map_iff. exists handled.
    split; [ reflexivity | destruct handled; cbn; tauto ]. }
  pose proof (step_member flagTerms advance _ _ _ H4 Hflag) as H5.
  unfold advance in H5. cbn [fst snd] in H5.
  replace (tenths pk p al cl handled)
    with (3 * pk + 3 * p + 2 * al + 1 * cl + (if handled then 100 else 0))
    by (unfold tenths; lia).
  exact H5.
Qed.

(** A positive integer is a truthy number. *)
Lemma of_Z_pos_truthy (v : positive) : toBoolean (of_Z (Zpos v)) = true.
Proof.
  destruct (Z.le_gt_cases 8 (Zpos v)) as [ Hbig | Hsmall ].
  - destruct (NumFacts.of_Z_ge_8 v Hbig) as [ (m' & e' & -> & _) | -> ];
      reflexivity.
  - assert (Hcases : In (Zpos v) (range 8)) by (apply in_range; lia).
    cbn [range seq map] in Hcases.
    repeat (destruct Hcases as [ H | Hcases ];
            [ try discriminate H; rewrite <- H; vm_compute; reflexivity | ]).
    destruct Hcases.
Qed.

(** What [metrics?.field || 0] evaluates to. *)
Lemma metricOrZero_value (analysis : CallAnalysis)
  (field : Metrics -> option number) (v : Z) :
  metricIs analysis field v -> metricOrZero (metrics analysis) field = of_Z v.
Proof.
  intros [ Hv [ (m & Hm & Hf) | (-> & [ Hm | (m & Hm & Hf) ]) ] ];
    unfold metricOrZero; rewrite Hm; try rewrite Hf; try reflexivity.
  destruct v as [ | v | v ]; [ reflexivity | | lia ].
  unfold or_else. rewrite of_Z_pos_truthy. reflexivity.
Qed.

(** The score is the rounded floating-point sum, and the label follows the
    two thresholds. *)
Lemma calculateLeadStrength_unfold (analysis : CallAnalysis) :
  score (calculateLeadStrength analysis) = Math_round (weightedSum analysis)
  /\ label (calculateLeadStrength analysis)
     = if geb (Math_round (weightedSum analysis)) (of_Z 75) then Hot
       else if geb (Math_round (weightedSum analysis)) (of_Z 45) then Warm
       else Cold.
Proof.
  unfold calculateLeadStrength.
  destruct (geb (Math_round (weightedSum analysis)) (of_Z 75));
    [ split; reflexivity | ].
  destruct (geb (Math_round (weightedSum analysis)) (of_Z 45)); split; reflexivity.
Qed.

(** A call whose exact weighted sum is 74.5. *)
Definition almostHot : CallAnalysis :=
  {| metrics :=
       Some {| politenessScore := Some (of_Z 80);
               activeListeningScore := Some (of_Z 94);
               productKnowledgeScore := Some (of_Z 24);
               empathyScore := None;
               clarityScore := Some (of_Z 91);
               persuasionScore := Some (of_Z 98) |};
     compliance :=
       {| dmVerified := true; needDiscovery := true; priceAdherence := false;
          objectionHandled := true; hardCloseAttempted := false |} |}.

(** C9, as stated, fails: the weighted sum of [almostHot] is 74.5, which
    rounds to 75, but the code returns 74, and hence the label Warm. *)
Lemma lead_score_not_the_rounded_sum :
  Qeq (specWeightedSum 24 98 94 91 true) (149 # 2)
  /\ specLeadScore 24 98 94 91 true = 75
  /\ score (calculateLeadStrength almostHot) = of_Z 74
  /\ score (calculateLeadStrength almostHot)
     <> of_Z (specLeadScore 24 98 94 91 true)
  /\ label (calculateLeadStrength almostHot) = Warm.
Proof.
  split; [ vm_compute; reflexivity | ].
  split; [ vm_compute; reflexivity | ].
  split; [ vm_compute; reflexivity | ].
  split; [ vm_compute; discriminate | vm_compute; reflexivity ].
Qed.

(** Integer metric scores.  For integer metric scores between 0 and 100 the returned
    score is an integer between 0 and 100: the weighted sum
    0.3*productKnowledge + 0.3*persuasion + 0.2*activeListening
    + 0.1*clarity + 0.1*(100 if objectionHandled else 0), added up in double
    precision and rounded.  It is the exactly rounded weighted sum, or one
    less, which can only happen when the exact sum lies halfway between two
    integers.  The label is Hot exactly when the score is at least 75, Warm
    exactly when it is at least 45 and below 75, and Cold otherwise. *)
Theorem lead_strength_score_and_label :
  forall (analysis : CallAnalysis) (pk p al cl : Z),
    metricIs analysis productKnowledgeScore pk ->
    metricIs analysis persuasionScore p ->
    metricIs analysis activeListeningScore al ->
    metricIs analysis clarityScore cl ->
    exists s : Z,
      score (calculateLeadStrength analysis) = of_Z s
      /\ 0 <= s <= 100
      /\ (s = specLeadScore pk p al cl (objectionHandled (compliance analysis))
          \/ (s = specLeadScore pk p al cl (objectionHandled (compliance analysis)) - 1
              /\ (3 * pk + 3 * p + 2 * al + cl) mod 10 = 5))
      /\ label (calculateLeadStrength analysis)
         = (if 75 <=? s then Hot else if 45 <=? s then Warm else Cold)
      /\ (label (calculateLeadStrength analysis) = Hot <-> 75 <= s)
      /\ (label (calculateLeadStrength analysis) = Warm <-> 45 <= s < 75)
      /\ (label (calculateLeadStrength analysis) = Cold <-> s < 45).
Proof.
  intros analysis pk p al cl Mpk Mp Mal Mcl.
  pose proof (metricOrZero_value _ _ _ Mpk) as Epk.
  pose proof (metricOrZero_value _ _ _ Mp) as Ep.
  pose proof (metricOrZero_value _ _ _ Mal) as Eal.
  pose proof (metricOrZero_value _ _ _ Mcl) as Ecl.
  destruct Mpk as [ Hpk _ ], Mp as [ Hp _ ], Mal as [ Hal _ ], Mcl as [ Hcl _ ].
  destruct (calculateLeadStrength_unfold analysis) as [ Hscore Hlabel ].
  rewrite Hscore, Hlabel. clear Hscore Hlabel.
  unfold weightedSum. rewrite Epk, Ep, Eal, Ecl.
  set (handled := objectionHandled (compliance analysis)).
  rewrite specLeadScore_tenths.
  pose proof (reach5_member pk p al cl handled Hpk Hp Hal Hcl) as Hmem.
  apply member_elements in Hmem.
  pose proof reach5_rounds as Hall. rewrite forallb_forall in Hall.
  specialize (Hall _ Hmem). unfold rounds_as_expected in Hall.
  cbn [fst snd] in Hall.
  set (n := tenths pk p al cl handled) in *.
  assert (Hn : 0 <= n <= 1000) by (unfold n, tenths; destruct handled; lia).
  assert (Hmod : n mod 10 = (3 * pk + 3 * p + 2 * al + cl) mod 10).
  { unfold n, tenths. destruct handled; [ | f_equal; lia ].
    replace (3 * pk + 3 * p + 2 * al + cl + 100)
      with (3 * pk + 3 * p + 2 * al + cl + 10 * 10) by lia.
    apply Z.mod_add. lia. }
  assert (Hz : 0 <= (n + 5) / 10 <= 100).
  { split; [ apply Z.div_pos; lia | ].
    assert ((n + 5) / 10 < 101); [ apply Z.div_lt_upper_bound; lia | lia ]. }
  assert (Hcase :
    exists s : Z,
      Math_round
        (add (add (add (add (mul (of_Z pk) lit_0_3) (mul (of_Z p) lit_0_3))
                       (mul (of_Z al) lit_0_2))
                  (mul (of_Z cl) lit_0_1))
             (mul (if handled then of_Z 100 else of_Z 0) lit_0_1)) = of_Z s
      /\ 0 <= s <= 100
      /\ (s = (n + 5) / 10 \/ (s = (n + 5) / 10 - 1 /\ n mod 10 = 5))).
  { apply orb_prop in Hall as [ Heq | Heq ].
    - apply eqb_eq in Heq. exists ((n + 5) / 10).
      split; [ exact Heq | ]. split; [ exact Hz | left; reflexivity ].
    - apply andb_prop in Heq as [ Hfive Heq ].
      apply Z.eqb_eq in Hfive. apply eqb_eq in Heq.
      exists ((n + 5) / 10 - 1). split; [ exact Heq | ].
      split; [ | right; split; [ reflexivity | exact Hfive ] ].
      assert (1 <= (n + 5) / 10); [ | lia ].
      apply Z.div_le_lower_bound; [ lia | ].
      pose proof (Z.mod_pos_bound n 10 ltac:(lia)).
      pose proof (Z.div_mod n 10 ltac:(lia)).
      assert (0 <= n / 10) by (apply Z.div_pos; lia). lia. }
  clear Hall Hmem.
  destruct Hcase as (s & -> & Hs & Hexact).
  exists s. split; [ reflexivity | ]. split; [ exact Hs | ].
  split; [ rewrite <- Hmod; exact Hexact | ].
  unfold geb. rewrite !Compare.leb_of_Z_exact by lia.
  split; [ reflexivity | ].
  destruct (75 <=? s) eqn:H75; [ apply Z.leb_le in H75 | apply Z.leb_gt in H75 ];
    [ repeat split; intros; try discriminate; try reflexivity; lia | ].
  destruct (45 <=? s) eqn:H45; [ apply Z.leb_le in H45 | apply Z.leb_gt in H45 ];
    repeat split; intros; try discriminate; try reflexivity; lia.
Qed.

Lemma lead_strength_score_and_label_witness :
  (metricIs almostHot productKnowledgeScore 24
   /\ metricIs almostHot persuasionScore 98
   /\ metricIs almostHot activeListeningScore 94
   /\ metricIs almostHot clarityScore 91)
  /\ exists s : Z,
       score (calculateLeadStrength almostHot) = of_Z s /\ 0 <= s <= 100.
Proof.
  assert (H24 : metricIs almostHot productKnowledgeScore 24)
    by (split; [ lia | left; eexists; split; reflexivity ]).
  assert (H98 : metricIs almostHot persuasionScore 98)
    by (split; [ lia | left; eexists; split; reflexivity ]).
  assert (H94 : metricIs almostHot activeListeningScore 94)
    by (split; [ lia | left; eexists; split; reflexivity ]).
  assert (H91 : metricIs almostHot clarityScore 91)
    by (split; [ lia | left; eexists; split; reflexivity ]).
  split;
    [ split; [ exact H24 | split; [ exact H98 | split; [ exact H94 | exact H91 ] ] ]
    | ].
  destruct (lead_strength_score_and_label almostHot 24 98 94 91 H24 H98 H94 H91)
    as (s & Hs & Hrange & _).
  exists s. split; assumption.
Defined.

End LeadFacts.

(* ===================================================================== *)
(** ** Integers as numbers, once more *)
(* ===================================================================== *)

Module CompareFacts.

(** Distinct integers between 0 and 100 are distinct numbers. *)
Lemma of_Z_inj (a b : Z) :
  0 <= a <= 100 -> 0 <= b <= 100 -> of_Z a = of_Z b -> a = b.
Proof.
  intros Ha Hb Heq.
  pose proof (Compare.leb_of_Z_exact a b Ha Hb) as Hab.
  pose proof (Compare.leb_of_Z_exact b a Hb Ha) as Hba.
  pose proof (Compare.leb_of_Z_exact a a Ha Ha) as Haa.
  rewrite <- Heq in Hba. rewrite Heq in Hab at 1.
  pose proof (Compare.leb_of_Z_exact b b Hb Hb) as Hbb.
  rewrite Hbb in Hab. rewrite Haa in Hba.
  rewrite Z.leb_refl in Hab, Hba.
  symmetry in Hab, Hba. apply Z.leb_le in Hab, Hba. lia.
Qed.

End CompareFacts.

(* ===================================================================== *)
(** ** Rounding errors of products and sums *)
(* ===================================================================== *)

Module RoundFacts.
Import NumFacts.

(** *** Powers of two, as rationals *)

Definition pow2 (e : Z) : Q := Qpower (2 # 1) e.

Lemma pow2_pos (e : Z) : (0 < pow2 e)%Q.
Proof. apply Qpower_0_lt. reflexivity. Qed.

Lemma pow2_add (a b : Z) : (pow2 (a + b) == pow2 a * pow2 b)%Q.
Proof. apply Qpower_plus. discriminate. Qed.

Lemma pow2_le (a b : Z) : a <= b -> (pow2 a <= pow2 b)%Q.
Proof. intros H. apply Qpower_le_compat_l; [ exact H | discriminate ]. Qed.

Lemma pow2_lt_inv (a b : Z) : (pow2 a < pow2 b)%Q -> a < b.
Proof.
  intros H. destruct (Z.lt_ge_cases a b) as [ Hlt | Hge ]; [ exact Hlt | ].
  exfalso. apply (Qlt_not_le _ _ H). apply pow2_le, Hge.
Qed.

Lemma pow2_inject (e : Z) : 0 <= e -> (pow2 e == inject_Z (2 ^ e))%Q.
Proof. intros He. unfold pow2. rewrite Zpower_Qpower by exact He. reflexivity. Qed.

(** *** Rounding a positive mantissa *)

Lemma fexp_eq (z : Z) : fexp prec emax z = Z.max (z - 53) (-1074).
Proof. reflexivity. Qed.

(** A positive below [2^k] has at most [k] binary digits. *)
Lemma digits_le (p : positive) (k : Z) :
  0 <= k -> Zpos p < 2 ^ k -> Zpos (digits2_pos p) <= k.
Proof.
  intros Hk Hp. pose proof (digits2_pos_bounds p) as [ Hlo _ ].
  destruct (Z.le_gt_cases (Zpos (digits2_pos p)) k) as [ H | H ]; [ exact H | ].
  exfalso.
  assert (2 ^ k <= 2 ^ (Zpos (digits2_pos p) - 1))
    by (apply Z.pow_le_mono_r; lia).
  lia.
Qed.

Lemma shr_fexp_noshift (m e : Z) (l : location) :
  fexp prec emax (Zdigits2 m + e) - e <= 0 ->
  shr_fexp prec emax m e l = (shr_record_of_loc m l, e).
Proof.
  intros H. unfold shr_fexp, shr.
  destruct (fexp prec emax (Zdigits2 m + e) - e); [ reflexivity | lia | reflexivity ].
Qed.

Lemma shr_fexp_shift (m : positive) (e : Z) :
  e < fexp prec emax (Zpos (digits2_pos m) + e) ->
  exists mrs : shr_record,
    shr_fexp prec emax (Zpos m) e loc_Exact
      = (mrs, fexp prec emax (Zpos (digits2_pos m) + e))
    /\ shr_m mrs = Zpos m / 2 ^ (fexp prec emax (Zpos (digits2_pos m) + e) - e).
Proof.
  intros Hf. unfold shr_fexp, shr. cbn [Zdigits2].
  set (f := fexp prec emax (Zpos (digits2_pos m) + e)) in *.
  destruct (f - e) as [ | n | n ] eqn:Hn; try lia.
  eexists. split; [ f_equal; lia | ].
  rewrite iter_shr_1_m by (cbn; lia). reflexivity.
Qed.

Lemma round_nearest_even_bounds (q : Z) (l : location) :
  q <= round_nearest_even q l <= q + 1.
Proof.
  destruct l as [ | [ | | ] ]; cbn [round_nearest_even]; try lia.
  destruct (Z.even q); lia.
Qed.

(** A mantissa that needs no shift is kept as it is. *)
Lemma binary_round_aux_exact (m : positive) (e : Z) :
  fexp prec emax (Zpos (digits2_pos m) + e) <= e -> e <= 971 ->
  binary_round_aux prec emax false (Zpos m) e loc_Exact = S754_finite false m e.
Proof.
  intros Hf He. unfold binary_round_aux.
  rewrite shr_fexp_noshift by (cbn [Zdigits2]; lia).
  cbn [shr_record_of_loc shr_m loc_of_shr_record round_nearest_even].
  rewrite shr_fexp_noshift by (cbn [Zdigits2]; lia).
  cbn [shr_record_of_loc shr_m].
  replace (e <=? emax - prec) with true; [ reflexivity | ].
  symmetry. apply Z.leb_le. unfold emax, prec. lia.
Qed.

(** A mantissa that is shifted down by [f - e] bits becomes its quotient by
    [2^(f - e)] or the next integer, at the exponent [f]. *)
Lemma binary_round_aux_shift (m : positive) (e : Z) :
  let f := fexp prec emax (Zpos (digits2_pos m) + e) in
  e < f -> f < 971 ->
  exists k : Z,
    Zpos m / 2 ^ (f - e) <= k <= Zpos m / 2 ^ (f - e) + 1
    /\ ((k = 0
         /\ binary_round_aux prec emax false (Zpos m) e loc_Exact = S754_zero false)
        \/ (exists p : positive,
              k = Zpos p /\ Zpos p < 2 ^ 53
              /\ binary_round_aux prec emax false (Zpos m) e loc_Exact
                 = S754_finite false p f)
        \/ (k = 2 ^ 53
            /\ binary_round_aux prec emax false (Zpos m) e loc_Exact
               = S754_finite false 4503599627370496 (f + 1))).
Proof.
  intros f Hf Hover.
  destruct (shr_fexp_shift m e Hf) as (mrs & Hs & Hm). fold f in Hs, Hm.
  unfold binary_round_aux. rewrite Hs.
  pose proof (round_nearest_even_bounds (shr_m mrs) (loc_of_shr_record mrs))
    as Hk.
  set (k := round_nearest_even (shr_m mrs) (loc_of_shr_record mrs)) in *.
  rewrite Hm in Hk.
  assert (Hpow : 0 < 2 ^ (f - e)) by (apply Z.pow_pos_nonneg; lia).
  assert (Hq0 : 0 <= Zpos m / 2 ^ (f - e)) by (apply Z.div_pos; lia).
  assert (Hq : Zpos m / 2 ^ (f - e) < 2 ^ 53).
  { apply Z.div_lt_upper_bound; [ exact Hpow | ].
    rewrite <- Z.pow_add_r by lia.
    pose proof (digits2_pos_bounds m) as [ _ Hhi ].
    apply Z.lt_le_trans with (1 := Hhi).
    apply Z.pow_le_mono_r; [ lia | ].
    unfold f. rewrite fexp_eq. lia. }
  assert (Hf0 : -1074 <= f) by (unfold f; rewrite fexp_eq; lia).
  exists k. split; [ exact Hk | ].
  destruct k as [ | p | p ] eqn:Ek; [ | | lia ].
  - left. split; [ reflexivity | ].
    rewrite shr_fexp_noshift by (cbn [Zdigits2]; rewrite fexp_eq; lia).
    reflexivity.
  - destruct (Z.eq_dec (Zpos p) (2 ^ 53)) as [ Heq | Hne ].
    + right. right. split; [ exact Heq | ].
      assert (Hp : p = 9007199254740992%positive) by (change (2 ^ 53) with 9007199254740992 in Heq; congruence).
      subst p. unfold shr_fexp, shr.
      replace (fexp prec emax (Zdigits2 9007199254740992 + f) - f) with 1
        by (rewrite fexp_eq; cbn [Zdigits2 digits2_pos Pos.succ]; lia).
      cbn [SpecFloat.iter_pos shr_record_of_loc shr_1 shr_m].
      replace (f + 1 <=? emax - prec) with true; [ reflexivity | ].
      symmetry. apply Z.leb_le. unfold emax, prec. lia.
    + right. left. exists p.
      assert (Hlt : Zpos p < 2 ^ 53) by lia.
      split; [ reflexivity | ]. split; [ exact Hlt | ].
      pose proof (digits_le p 53 ltac:(lia) Hlt) as Hd.
      rewrite shr_fexp_noshift by (cbn [Zdigits2]; rewrite fexp_eq; lia).
      cbn [shr_record_of_loc shr_m].
      replace (f <=? emax - prec) with true; [ reflexivity | ].
      symmetry. apply Z.leb_le. unfold emax, prec. lia.
Qed.

(** *** Non-negative numbers and the rationals they stand for *)

(** [x] is [+0] or a positive number with an exponent between -1074 and -1,
    and stands for the rational [w]. *)
Definition stands (x : number) (w : Q) : Prop :=
  (x = S754_zero false /\ (w == 0)%Q)
  \/ exists (m : positive) (e : Z),
       x = S754_finite false m e /\ -1074 <= e < 0
       /\ (w == inject_Z (Zpos m) * pow2 e)%Q.

Lemma stands_nonneg (x : number) (w : Q) : stands x w -> (0 <= w)%Q.
Proof.
  intros [ [ _ Hw ] | (m & e & _ & _ & Hw) ]; rewrite Hw; [ apply Qle_refl | ].
  apply Qmult_le_0_compat; [ | apply Qlt_le_weak, pow2_pos ].
  change 0%Q with (inject_Z 0). rewrite <- Zle_Qle. lia.
Qed.

Lemma stands_to_Q (x : number) (w : Q) : stands x w -> (to_Q x == w)%Q.
Proof.
  intros [ [ -> Hw ] | (m & e & -> & _ & Hw) ]; rewrite Hw; reflexivity.
Qed.

(** The rounding error allowed on a value [v]: one unit in the last place,
    relative for a normal result, absolute for a subnormal one. *)
Definition slack (v : Q) : Q := (v * pow2 (-52) + pow2 (-1074))%Q.

(** The value of a mantissa is at least the power of two of its digits. *)
Lemma value_ge_pow2 (m : positive) (e : Z) :
  (pow2 (Zpos (digits2_pos m) - 1 + e) <= inject_Z (Zpos m) * pow2 e)%Q.
Proof.
  rewrite pow2_add. apply Qmult_le_compat_r; [ | apply Qlt_le_weak, pow2_pos ].
  rewrite pow2_inject by lia. rewrite <- Zle_Qle.
  apply (digits2_pos_bounds m).
Qed.

(** Rounding a positive value below [2^10] commits an error within the
    slack, and gives a number that stands for a rational. *)
Lemma binary_round_aux_error (m : positive) (e : Z) :
  e < 0 ->
  (inject_Z (Zpos m) * pow2 e < pow2 10)%Q ->
  exists w : Q,
    stands (binary_round_aux prec emax false (Zpos m) e loc_Exact) w
    /\ (inject_Z (Zpos m) * pow2 e - slack (inject_Z (Zpos m) * pow2 e) <= w)%Q
    /\ (w <= inject_Z (Zpos m) * pow2 e + slack (inject_Z (Zpos m) * pow2 e))%Q.
Proof.
  intros He Hv.
  set (v := (inject_Z (Zpos m) * pow2 e)%Q) in *.
  set (d := Zpos (digits2_pos m)).
  pose proof (value_ge_pow2 m e) as Hlow. fold d v in Hlow.
  assert (Hd : d + e <= 10).
  { assert (d - 1 + e < 10); [ | lia ].
    apply pow2_lt_inv. eapply Qle_lt_trans; [ exact Hlow | exact Hv ]. }
  assert (Hv0 : (0 < v)%Q).
  { eapply Qlt_le_trans; [ apply pow2_pos | exact Hlow ]. }
  pose proof (pow2_pos (-52)) as Hu. pose proof (pow2_pos (-1074)) as Heta.
  assert (Hslack : (0 <= slack v)%Q).
  { unfold slack. apply Qlt_le_weak.
    assert (0 < v * pow2 (-52))%Q by (apply Qmult_lt_0_compat; assumption).
    lra. }
  set (f := fexp prec emax (d + e)).
  assert (Hf : f = Z.max (d + e - 53) (-1074)) by reflexivity.
  destruct (Z.le_gt_cases f e) as [ Hno | Hshift ].
  - (* no shift *)
    exists v. split; [ | split; lra ].
    right. exists m, e. split; [ | split; [ lia | reflexivity ] ].
    apply binary_round_aux_exact; [ exact Hno | lia ].
  - (* shift by [f - e] bits *)
    destruct (binary_round_aux_shift m e Hshift ltac:(fold d f; lia))
      as (k & Hk & Hres).
    fold d f in Hk, Hres.
    set (n := f - e) in *.
    assert (Hn : 0 < n) by (unfold n; lia).
    assert (HN : 0 < 2 ^ n) by (apply Z.pow_pos_nonneg; lia).
    pose proof (Z.mul_div_le (Zpos m) (2 ^ n) HN) as Hq1.
    pose proof (Z.mul_succ_div_gt (Zpos m) (2 ^ n) HN) as Hq2.
    set (q := Zpos m / 2 ^ n) in *.
    (* the value of the result *)
    assert (Hpf : (pow2 f == inject_Z (2 ^ n) * pow2 e)%Q).
    { replace f with (n + e) by (unfold n; lia).
      rewrite pow2_add, pow2_inject by lia. reflexivity. }
    assert (Hlo : (v - pow2 f <= inject_Z k * pow2 f)%Q).
    { rewrite Hpf. unfold v.
      assert (H : (inject_Z (Zpos m) - inject_Z (2 ^ n)
                   <= inject_Z k * inject_Z (2 ^ n))%Q).
      { unfold Qminus.
        rewrite <- inject_Z_mult, <- inject_Z_opp, <- inject_Z_plus, <- Zle_Qle.
        nia. }
      pose proof (pow2_pos e) as Hpe. nra. }
    assert (Hhi : (inject_Z k * pow2 f <= v + pow2 f)%Q).
    { rewrite Hpf. unfold v.
      assert (H : (inject_Z k * inject_Z (2 ^ n)
                   <= inject_Z (Zpos m) + inject_Z (2 ^ n))%Q).
      { rewrite <- inject_Z_mult, <- inject_Z_plus, <- Zle_Qle. nia. }
      pose proof (pow2_pos e) as Hpe. nra. }
    assert (Hulp : (pow2 f <= slack v)%Q).
    { unfold slack. destruct (Z.max_spec (d + e - 53) (-1074)) as [ [ _ Hm ] | [ _ Hm ] ];
        rewrite Hm in Hf.
      - rewrite Hf.
        assert (0 <= v * pow2 (-52))%Q
          by (apply Qmult_le_0_compat; apply Qlt_le_weak; assumption).
        lra.
      - rewrite Hf. replace (d + e - 53) with ((d - 1 + e) + (-52)) by lia.
        rewrite pow2_add.
        assert (pow2 (d - 1 + e) * pow2 (-52) <= v * pow2 (-52))%Q
          by (apply Qmult_le_compat_r; [ exact Hlow | apply Qlt_le_weak, Hu ]).
        lra. }
    exists (inject_Z k * pow2 f)%Q.
    split; [ | split; lra ].
    assert (Hfr : -1074 <= f <= -43) by lia.
    destruct Hres as [ [ -> Hr ] | [ (p & -> & Hp & Hr) | [ -> Hr ] ] ]; rewrite Hr.
    + left. split; [ reflexivity | ]. ring.
    + right. exists p, f. split; [ reflexivity | ]. split; [ lia | reflexivity ].
    + right. exists 4503599627370496%positive, (f + 1).
      split; [ reflexivity | ]. split; [ lia | ].
      rewrite (Z.add_comm f 1), pow2_add.
      change (inject_Z (2 ^ 53)) with (inject_Z 4503599627370496 * pow2 1)%Q.
      ring.
Qed.

#[local] Instance slack_proper : Proper (Qeq ==> Qeq) slack.
Proof. intros v v' Hv. unfold slack. rewrite Hv. reflexivity. Qed.

Lemma slack_nonneg (v : Q) : (0 <= v)%Q -> (0 < slack v)%Q.
Proof.
  intros Hv. unfold slack.
  pose proof (pow2_pos (-52)) as Hu. pose proof (pow2_pos (-1074)) as Heta.
  assert (0 <= v * pow2 (-52))%Q
    by (apply Qmult_le_0_compat; [ exact Hv | apply Qlt_le_weak, Hu ]).
  lra.
Qed.

(** *** Products *)

Lemma mul_error (x y : number) (a b : Q) :
  stands x a -> stands y b -> (a * b < pow2 10)%Q ->
  exists w : Q,
    stands (mul x y) w
    /\ (a * b - slack (a * b) <= w)%Q /\ (w <= a * b + slack (a * b))%Q.
Proof.
  intros Hx Hy Hbound.
  assert (Hzero : (a == 0)%Q \/ (b == 0)%Q ->
            mul x y = S754_zero false ->
            exists w : Q,
              stands (mul x y) w
              /\ (a * b - slack (a * b) <= w)%Q
              /\ (w <= a * b + slack (a * b))%Q).
  { intros Hab Hmul. exists 0%Q.
    split; [ left; split; [ exact Hmul | reflexivity ] | ].
    assert (Hp : (a * b == 0)%Q) by (destruct Hab as [ -> | -> ]; ring).
    rewrite Hp. pose proof (slack_nonneg 0 ltac:(apply Qle_refl)). lra. }
  destruct Hx as [ [ -> Ha ] | (mx & ex & -> & Hex & Ha) ].
  - apply Hzero; [ left; exact Ha | ].
    destruct Hy as [ [ -> _ ] | (my & ey & -> & _ & _) ]; reflexivity.
  - destruct Hy as [ [ -> Hb ] | (my & ey & -> & Hey & Hb) ].
    + apply Hzero; [ right; exact Hb | reflexivity ].
    + assert (Hv : (inject_Z (Zpos (mx * my)) * pow2 (ex + ey) == a * b)%Q).
      { rewrite Ha, Hb, Pos2Z.inj_mul, inject_Z_mult, pow2_add. ring. }
      change (mul (S754_finite false mx ex) (S754_finite false my ey))
        with (binary_round_aux prec emax false (Zpos (mx * my)) (ex + ey) loc_Exact).
      destruct (binary_round_aux_error (mx * my) (ex + ey) ltac:(lia)
                  ltac:(rewrite Hv; exact Hbound))
        as (w & Hw & Hlo & Hhi).
      exists w. rewrite Hv in Hlo, Hhi. split; [ exact Hw | split; assumption ].
Qed.

(** *** Sums *)

Lemma shl_align_value (m : positive) (e e' : Z) :
  (inject_Z (Zpos (fst (shl_align m e e'))) * pow2 (snd (shl_align m e e'))
   == inject_Z (Zpos m) * pow2 e)%Q
  /\ snd (shl_align m e e') = Z.min e e'.
Proof.
  unfold shl_align. destruct (e' - e) as [ | d | d ] eqn:Hd; cbn [fst snd].
  - split; [ reflexivity | lia ].
  - split; [ reflexivity | lia ].
  - split; [ | lia ].
    change (Pos.iter xO m d) with (shift_pos d m).
    rewrite shift_pos_correct.
    change (Z.pow_pos 2 d) with (2 ^ Zpos d).
    assert (He : (pow2 e == pow2 (Zpos d) * pow2 e')%Q).
    { replace e with (Zpos d + e') by lia. apply pow2_add. }
    rewrite He, (pow2_inject (Zpos d)) by lia.
    rewrite inject_Z_mult. ring.
Qed.

Lemma add_error (x y : number) (a b : Q) :
  stands x a -> stands y b -> (a + b < pow2 10)%Q ->
  exists w : Q,
    stands (add x y) w
    /\ (a + b - slack (a + b) <= w)%Q /\ (w <= a + b + slack (a + b))%Q.
Proof.
  intros Hx Hy Hbound.
  pose proof (stands_nonneg x a Hx) as Ha0.
  pose proof (stands_nonneg y b Hy) as Hb0.
  pose proof (slack_nonneg (a + b) ltac:(lra)) as Hs.
  destruct Hx as [ [ -> Ha ] | (mx & ex & -> & Hex & Ha) ].
  - exists b. split; [ | split; lra ].
    destruct Hy as [ [ -> Hb ] | (my & ey & -> & Hey & Hb) ].
    + left. split; [ reflexivity | exact Hb ].
    + right. exists my, ey. split; [ reflexivity | split; assumption ].
  - destruct Hy as [ [ -> Hb ] | (my & ey & -> & Hey & Hb) ].
    + exists a. split; [ | split; lra ].
      right. exists mx, ex. split; [ reflexivity | split; assumption ].
    + set (ez := Z.min ex ey).
      destruct (shl_align_value mx ex ez) as [ Vx Ex ].
      destruct (shl_align_value my ey ez) as [ Vy Ey ].
      set (px := fst (shl_align mx ex ez)) in *.
      set (py := fst (shl_align my ey ez)) in *.
      replace (snd (shl_align mx ex ez)) with ez in Vx by (rewrite Ex; unfold ez; lia).
      replace (snd (shl_align my ey ez)) with ez in Vy by (rewrite Ey; unfold ez; lia).
      assert (Hadd : add (S754_finite false mx ex) (S754_finite false my ey)
                     = binary_round prec emax false (px + py) ez) by reflexivity.
      rewrite Hadd. unfold binary_round.
      destruct (shl_align_value (px + py) ez
                  (fexp prec emax (Zpos (digits2_pos (px + py)) + ez)))
        as [ Vz Ez ].
      destruct (shl_align (px + py) ez
                  (fexp prec emax (Zpos (digits2_pos (px + py)) + ez)))
        as [ mz ez' ].
      cbn [fst snd] in Vz, Ez.
      assert (Hv : (inject_Z (Zpos mz) * pow2 ez' == a + b)%Q).
      { rewrite Vz, Pos2Z.inj_add, inject_Z_plus, Ha, Hb, <- Vx, <- Vy. ring. }
      destruct (binary_round_aux_error mz ez' ltac:(unfold ez in *; lia)
                  ltac:(rewrite Hv; exact Hbound))
        as (w & Hw & Hlo & Hhi).
      exists w. rewrite Hv in Hlo, Hhi. split; [ exact Hw | split; assumption ].
Qed.

End RoundFacts.

(* ===================================================================== *)
(** ** The lead strength for scores of any kind *)
(* ===================================================================== *)

Module LeadRange.
Import LeadAnalytics LeadSpec ScoreSpec RoundFacts LeadFacts.

(** [Math.round] of a non-negative number is the floor of its value plus a
    half. *)
Lemma Math_round_stands (x : number) (w : Q) :
  stands x w -> Math_round x = of_Z (Qfloor (w + (1 # 2))).
Proof.
  intros [ [ -> Hw ] | (m & e & -> & He & Hw) ]; rewrite Hw.
  - reflexivity.
  - unfold Math_round.
    replace (0 <=? e) with false by (symmetry; apply Z.leb_gt; lia).
    assert (Hz : round_half_up false m e
                 = Qfloor (inject_Z (Zpos m) * pow2 e + (1 # 2))).
    { unfold round_half_up. cbn [cond_Zopp]. rewrite Zdiv_Qdiv.
      apply Qfloor_comp.
      assert (HE : (pow2 e * inject_Z (2 ^ (- e)) == 1)%Q).
      { rewrite <- pow2_inject by lia. rewrite <- pow2_add.
        replace (e + - e) with 0 by lia. reflexivity. }
      assert (HE0 : ~ (inject_Z (2 ^ (- e)) == 0)%Q).
      { intros H0. rewrite H0 in HE. revert HE. rewrite Qmult_0_r. discriminate. }
      replace (1 - e) with (1 + - e) by lia.
      rewrite Z.pow_add_r by lia. change (2 ^ 1) with 2.
      rewrite inject_Z_plus, !inject_Z_mult.
      set (E := inject_Z (2 ^ (- e))) in *.
      assert (Hp : (pow2 e == / E)%Q).
      { apply (Qmult_inj_r _ _ E HE0). rewrite HE. field. exact HE0. }
      rewrite Hp. field. exact HE0. }
    rewrite <- Hz.
    destruct (round_half_up false m e =? 0) eqn:Hzero; [ | reflexivity ].
    apply Z.eqb_eq in Hzero. rewrite Hzero. reflexivity.
Qed.

(** A score in range is read as a number that stands for its value. *)
Lemma inRange_stands (x : number) :
  inRange x = true ->
  stands (or_else x (of_Z 0)) (to_Q x) /\ (0 <= to_Q x)%Q /\ (to_Q x <= 100 # 1)%Q.
Proof.
  destruct x as [ s | s | | [ | ] m e ]; cbn [inRange]; try discriminate.
  - intros _. split; [ left; split; reflexivity | split; discriminate ].
  - intros H. apply andb_prop in H as [ Hb Hle ].
    apply Qle_bool_iff in Hle.
    unfold bounded in Hb. apply andb_prop in Hb as [ Hc _ ].
    unfold canonical_mantissa in Hc. apply Z.eqb_eq in Hc.
    rewrite fexp_eq in Hc.
    pose proof (value_ge_pow2 m e) as Hlow.
    assert (Hv : (to_Q (S754_finite false m e) == inject_Z (Zpos m) * pow2 e)%Q)
      by reflexivity.
    assert (Hd : Zpos (digits2_pos m) - 1 + e < 7).
    { apply pow2_lt_inv. rewrite Hv in Hle.
      eapply Qle_lt_trans; [ exact Hlow | ].
      eapply Qle_lt_trans; [ exact Hle | ]. reflexivity. }
    assert (H0 : (0 < inject_Z (Zpos m) * pow2 e)%Q).
    { eapply Qlt_le_trans; [ apply pow2_pos | exact Hlow ]. }
    split; [ | split; [ rewrite Hv; apply Qlt_le_weak, H0 | exact Hle ] ].
    right. exists m, e. split; [ reflexivity | ].
    split; [ lia | exact Hv ].
Qed.

(** The weights and the two values of the objection flag. *)
Lemma stands_lit_0_3 : stands lit_0_3 (5404319552844595 # 18014398509481984).
Proof.
  right. exists 5404319552844595%positive, (-54).
  split; [ reflexivity | ]. split; [ lia | vm_compute; reflexivity ].
Qed.

Lemma stands_lit_0_2 : stands lit_0_2 (7205759403792794 # 36028797018963968).
Proof.
  right. exists 7205759403792794%positive, (-55).
  split; [ reflexivity | ]. split; [ lia | vm_compute; reflexivity ].
Qed.

Lemma stands_lit_0_1 : stands lit_0_1 (7205759403792794 # 72057594037927936).
Proof.
  right. exists 7205759403792794%positive, (-56).
  split; [ reflexivity | ]. split; [ lia | vm_compute; reflexivity ].
Qed.

Lemma stands_flag (handled : bool) :
  stands (if handled then of_Z 100 else of_Z 0)
         (if handled then 100 # 1 else 0 # 1).
Proof.
  destruct handled.
  - right. exists 7036874417766400%positive, (-46).
    split; [ vm_compute; reflexivity | ]. split; [ lia | vm_compute; reflexivity ].
  - left. split; reflexivity.
Qed.

Lemma pow2_10 : (pow2 10 == 1024 # 1)%Q.
Proof. vm_compute. reflexivity. Qed.

Lemma pow2_m52 : (pow2 (-52) == 1 # 4503599627370496)%Q.
Proof. vm_compute. reflexivity. Qed.

Lemma pow2_m1074 : (pow2 (-1074) <= 1 # 1267650600228229401496703205376)%Q.
Proof.
  apply Qle_trans with (pow2 (-100)); [ apply pow2_le; lia | ].
  vm_compute. discriminate.
Qed.

(** One product or sum, with the constants spelled out. *)
Lemma mul_step (x y : number) (a b : Q) :
  stands x a -> stands y b -> (a * b < 1024 # 1)%Q ->
  exists w : Q,
    stands (mul x y) w
    /\ (a * b - (a * b * (1 # 4503599627370496) + pow2 (-1074)) <= w)%Q
    /\ (w <= a * b + (a * b * (1 # 4503599627370496) + pow2 (-1074)))%Q.
Proof.
  intros Hx Hy Hb. rewrite <- pow2_10 in Hb.
  destruct (mul_error x y a b Hx Hy Hb) as (w & Hw & Hlo & Hhi).
  unfold slack in Hlo, Hhi. rewrite pow2_m52 in Hlo, Hhi.
  exists w. split; [ exact Hw | split; assumption ].
Qed.

Lemma add_step (x y : number) (a b : Q) :
  stands x a -> stands y b -> (a + b < 1024 # 1)%Q ->
  exists w : Q,
    stands (add x y) w
    /\ (a + b - ((a + b) * (1 # 4503599627370496) + pow2 (-1074)) <= w)%Q
    /\ (w <= a + b + ((a + b) * (1 # 4503599627370496) + pow2 (-1074)))%Q.
Proof.
  intros Hx Hy Hb. rewrite <- pow2_10 in Hb.
  destruct (add_error x y a b Hx Hy Hb) as (w & Hw & Hlo & Hhi).
  unfold slack in Hlo, Hhi. rewrite pow2_m52 in Hlo, Hhi.
  exists w. split; [ exact Hw | split; assumption ].
Qed.

(** The sum computed in double precision stands for a rational within the
    tolerance of the exact weighted sum. *)
Lemma weightedSum_error (x1 x2 x3 x4 : number) (a1 a2 a3 a4 : Q) (handled : bool) :
  stands x1 a1 -> stands x2 a2 -> stands x3 a3 -> stands x4 a4 ->
  (a1 <= 100 # 1)%Q -> (a2 <= 100 # 1)%Q -> (a3 <= 100 # 1)%Q -> (a4 <= 100 # 1)%Q ->
  exists w : Q,
    stands
      (add (add (add (add (mul x1 lit_0_3) (mul x2 lit_0_3)) (mul x3 lit_0_2))
                (mul x4 lit_0_1))
           (mul (if handled then of_Z 100 else of_Z 0) lit_0_1))
      w
    /\ (weightedSumOf a1 a2 a3 a4 handled - tolerance <= w)%Q
    /\ (w <= weightedSumOf a1 a2 a3 a4 handled + tolerance)%Q.
Proof.
  intros H1 H2 H3 H4 B1 B2 B3 B4.
  pose proof (stands_nonneg _ _ H1) as N1. pose proof (stands_nonneg _ _ H2) as N2.
  pose proof (stands_nonneg _ _ H3) as N3. pose proof (stands_nonneg _ _ H4) as N4.
  pose proof (pow2_pos (-1074)) as Heta0. pose proof pow2_m1074 as Heta.
  set (eta := pow2 (-1074)) in *.
  pose proof (stands_flag handled) as H5.
  set (a5 := if handled then 100 # 1 else 0 # 1) in *.
  assert (N5 : (0 <= a5)%Q) by (destruct handled; discriminate).
  assert (B5 : (a5 <= 100 # 1)%Q) by (destruct handled; discriminate).
  destruct (mul_step x1 lit_0_3 _ _ H1 stands_lit_0_3 ltac:(lra))
    as (t1 & T1 & L1 & U1).
  destruct (mul_step x2 lit_0_3 _ _ H2 stands_lit_0_3 ltac:(lra))
    as (t2 & T2 & L2 & U2).
  destruct (mul_step x3 lit_0_2 _ _ H3 stands_lit_0_2 ltac:(lra))
    as (t3 & T3 & L3 & U3).
  destruct (mul_step x4 lit_0_1 _ _ H4 stands_lit_0_1 ltac:(lra))
    as (t4 & T4 & L4 & U4).
  destruct (mul_step _ lit_0_1 _ _ H5 stands_lit_0_1 ltac:(lra))
    as (t5 & T5 & L5 & U5).
  fold eta in L1, U1, L2, U2, L3, U3, L4, U4, L5, U5.
  destruct (add_step _ _ _ _ T1 T2 ltac:(lra)) as (s1 & S1 & M1 & V1).
  fold eta in M1, V1.
  destruct (add_step _ _ _ _ S1 T3 ltac:(lra)) as (s2 & S2 & M2 & V2).
  fold eta in M2, V2.
  destruct (add_step _ _ _ _ S2 T4 ltac:(lra)) as (s3 & S3 & M3 & V3).
  fold eta in M3, V3.
  destruct (add_step _ _ _ _ S3 T5 ltac:(lra)) as (s4 & S4 & M4 & V4).
  fold eta in M4, V4.
  exists s4. split; [ exact S4 | ].
  unfold weightedSumOf, tolerance. fold a5.
  split; lra.
Qed.

(** The metric read through [field] is the number [x], between 0 and 100; a
    metric that is missing from the analysis counts as 0. *)
Definition metricScore (analysis : CallAnalysis) (field : Metrics -> option number)
  (x : number) : Prop :=
  inRange x = true
  /\ ((exists m : Metrics, metrics analysis = Some m /\ field m = Some x)
      \/ (x = of_Z 0
          /\ (metrics analysis = None
              \/ exists m : Metrics, metrics analysis = Some m /\ field m = None))).

Lemma metricOrZero_number (analysis : CallAnalysis)
  (field : Metrics -> option number) (x : number) :
  metricScore analysis field x ->
  metricOrZero (metrics analysis) field = or_else x (of_Z 0).
Proof.
  intros [ _ [ (m & Hm & Hf) | (-> & [ Hm | (m & Hm & Hf) ]) ] ];
    unfold metricOrZero; rewrite Hm; try rewrite Hf; reflexivity.
Qed.

(** An integer score is a score in the sense of [LeadFacts]. *)
Lemma metricScore_integer (analysis : CallAnalysis)
  (field : Metrics -> option number) (v : Z) :
  0 <= v <= 100 -> metricScore analysis field (of_Z v) -> metricIs analysis field v.
Proof.
  intros Hv [ _ [ Hsome | (Hzero & Hmissing) ] ]; split; try exact Hv.
  - left. exact Hsome.
  - right. split; [ | exact Hmissing ].
    apply CompareFacts.of_Z_inj; [ exact Hv | lia | exact Hzero ].
Qed.

(** From an inequality between rationals to one between integers. *)
Lemma below_by_less_than_one (a b : Z) (q : Q) :
  (inject_Z a - q < inject_Z b)%Q -> (q <= 1)%Q -> a <= b.
Proof.
  intros H Hq.
  assert (Hlt : (inject_Z (a + -1) < inject_Z b)%Q).
  { rewrite inject_Z_plus. change (inject_Z (-1)) with (-1 # 1)%Q. lra. }
  rewrite <- Zlt_Qlt in Hlt. lia.
Qed.

(** A call whose product knowledge was scored 74.5 and nothing else. *)
Definition halfPoint : CallAnalysis :=
  {| metrics :=
       Some {| politenessScore := None;
               activeListeningScore := None;
               productKnowledgeScore :=
                 Some (S754_finite false 5242471441235968 (-46));
               empathyScore := None;
               clarityScore := Some (of_Z 0);
               persuasionScore := None |};
     compliance :=
       {| dmVerified := false; needDiscovery := false; priceAdherence := false;
          objectionHandled := false; hardCloseAttempted := false |} |}.

(** C9, amended. For metric scores that are numbers between 0 and 100,
    integers or not, the returned score is an integer between 0 and 100:
    the weighted sum 0.3*productKnowledge + 0.3*persuasion
    + 0.2*activeListening + 0.1*clarity + 0.1*(100 if objectionHandled
    else 0), added up in double precision and rounded.  It lies within
    1/2 + 10^-12 of the exact weighted sum, so it is the exactly rounded
    weighted sum unless that sum is within 10^-12 of the midpoint of two
    integers, where it is one of the two; for integer metric scores it is
    the exactly rounded sum, or one less when the exact sum is such a
    midpoint.  The label is Hot exactly when the score is at least 75, Warm
    exactly when it is at least 45 and below 75, and Cold otherwise. *)
Theorem lead_strength_in_range :
  forall (analysis : CallAnalysis) (pk p al cl : number),
    metricScore analysis productKnowledgeScore pk ->
    metricScore analysis persuasionScore p ->
    metricScore analysis activeListeningScore al ->
    metricScore analysis clarityScore cl ->
    let handled := objectionHandled (compliance analysis) in
    let exact := weightedSumOf (to_Q pk) (to_Q p) (to_Q al) (to_Q cl) handled in
    exists s : Z,
      score (calculateLeadStrength analysis) = of_Z s
      /\ 0 <= s <= 100
      /\ score (calculateLeadStrength analysis) = Math_round (weightedSum analysis)
      /\ (exact - (1 # 2) - tolerance < inject_Z s)%Q
      /\ (inject_Z s <= exact + (1 # 2) + tolerance)%Q
      /\ (s = Qround_half_up exact
          \/ (s = Qround_half_up exact - 1
              /\ (exact + (1 # 2) < inject_Z (Qround_half_up exact) + tolerance)%Q)
          \/ (s = Qround_half_up exact + 1
              /\ (inject_Z (Qround_half_up exact) + 1 - tolerance
                  <= exact + (1 # 2))%Q))
      /\ (forall zpk zp zal zcl : Z,
            0 <= zpk <= 100 -> 0 <= zp <= 100 ->
            0 <= zal <= 100 -> 0 <= zcl <= 100 ->
            pk = of_Z zpk -> p = of_Z zp -> al = of_Z zal -> cl = of_Z zcl ->
            s = specLeadScore zpk zp zal zcl handled
            \/ (s = specLeadScore zpk zp zal zcl handled - 1
                /\ (3 * zpk + 3 * zp + 2 * zal + zcl) mod 10 = 5))
      /\ label (calculateLeadStrength analysis)
         = (if 75 <=? s then Hot else if 45 <=? s then Warm else Cold)
      /\ (label (calculateLeadStrength analysis) = Hot <-> 75 <= s)
      /\ (label (calculateLeadStrength analysis) = Warm <-> 45 <= s < 75)
      /\ (label (calculateLeadStrength analysis) = Cold <-> s < 45).
Proof.
  intros analysis pk p al cl Mpk Mp Mal Mcl handled exact.
  pose proof (metricOrZero_number _ _ _ Mpk) as Epk.
  pose proof (metricOrZero_number _ _ _ Mp) as Ep.
  pose proof (metricOrZero_number _ _ _ Mal) as Eal.
  pose proof (metricOrZero_number _ _ _ Mcl) as Ecl.
  destruct (inRange_stands pk (proj1 Mpk)) as (Spk & Npk & Bpk).
  destruct (inRange_stands p (proj1 Mp)) as (Sp & Np & Bp).
  destruct (inRange_stands al (proj1 Mal)) as (Sal & Nal & Bal).
  destruct (inRange_stands cl (proj1 Mcl)) as (Scl & Ncl & Bcl).
  destruct (weightedSum_error _ _ _ _ _ _ _ _ handled Spk Sp Sal Scl Bpk Bp Bal Bcl)
    as (w & Hw & Hlo & Hhi).
  fold exact in Hlo, Hhi.
  assert (Hsum :
    weightedSum analysis
    = add (add (add (add (mul (or_else pk (of_Z 0)) lit_0_3)
                         (mul (or_else p (of_Z 0)) lit_0_3))
                    (mul (or_else al (of_Z 0)) lit_0_2))
               (mul (or_else cl (of_Z 0)) lit_0_1))
          (mul (if handled then of_Z 100 else of_Z 0) lit_0_1)).
  { unfold weightedSum. rewrite Epk, Ep, Eal, Ecl. reflexivity. }
  pose proof (Math_round_stands _ _ Hw) as Hround. rewrite <- Hsum in Hround.
  pose proof (stands_nonneg _ _ Hw) as Hw0.
  clear Hw Hsum Spk Sp Sal Scl Epk Ep Eal Ecl.
  set (s := Qfloor (w + (1 # 2))) in *.
  pose proof (Qfloor_le (w + (1 # 2))) as Hs1.
  pose proof (Qlt_floor (w + (1 # 2))) as Hs2.
  fold s in Hs1, Hs2. rewrite inject_Z_plus in Hs2.
  change (inject_Z 1) with 1%Q in Hs2.
  assert (Hexact : (0 <= exact)%Q /\ (exact <= 100 # 1)%Q).
  { unfold exact, weightedSumOf. destruct handled; split; lra. }
  destruct Hexact as [ Hex0 Hex100 ].
  assert (Htol : (tolerance == 1 # 1000000000000)%Q) by reflexivity.
  assert (Hs : 0 <= s <= 100).
  { split.
    - apply (below_by_less_than_one 0 s (1 # 2)); [ | discriminate ].
      change (inject_Z 0) with 0%Q. lra.
    - assert (Hlt : (inject_Z s < inject_Z 101)%Q)
        by (change (inject_Z 101) with (101 # 1)%Q; lra).
      rewrite <- Zlt_Qlt in Hlt. lia. }
  destruct (calculateLeadStrength_unfold analysis) as [ Hscore Hlabel ].
  rewrite Hscore, Hlabel, Hround. clear Hlabel.
  exists s. split; [ reflexivity | ]. split; [ exact Hs | ].
  split; [ reflexivity | ].
  split; [ lra | ]. split; [ lra | ].
  split.
  { pose proof (Qfloor_le (exact + (1 # 2))) as Hr1.
    pose proof (Qlt_floor (exact + (1 # 2))) as Hr2.
    fold (Qround_half_up exact) in Hr1, Hr2.
    set (r := Qround_half_up exact) in *.
    rewrite inject_Z_plus in Hr2. change (inject_Z 1) with 1%Q in Hr2.
    assert (Hlow : r - 1 <= s).
    { apply (below_by_less_than_one (r - 1) s (1 # 1000000000000));
        [ | discriminate ].
      unfold Z.sub. rewrite inject_Z_plus.
      change (inject_Z (- (1))) with (-1 # 1)%Q. lra. }
    assert (Hup : s <= r + 1).
    { apply (below_by_less_than_one s (r + 1) (1 # 1000000000000));
        [ | discriminate ].
      rewrite inject_Z_plus. change (inject_Z 1) with 1%Q. lra. }
    destruct (Z.eq_dec s r) as [ Heq | Hne ]; [ left; exact Heq | right ].
    destruct (Z.eq_dec s (r - 1)) as [ Heq | Hne' ].
    - left. split; [ exact Heq | ].
      assert (Hi : (inject_Z s == inject_Z r - 1)%Q).
      { rewrite Heq. unfold Z.sub. rewrite inject_Z_plus.
        change (inject_Z (- (1))) with (-1 # 1)%Q. lra. }
      lra.
    - right. assert (Heq : s = r + 1) by lia. split; [ exact Heq | ].
      assert (Hi : (inject_Z s == inject_Z r + 1)%Q).
      { rewrite Heq, inject_Z_plus. reflexivity. }
      lra. }
  split.
  { intros zpk zp zal zcl Hzpk Hzp Hzal Hzcl -> -> -> ->.
    destruct (lead_strength_score_and_label analysis zpk zp zal zcl
                (metricScore_integer _ _ _ Hzpk Mpk)
                (metricScore_integer _ _ _ Hzp Mp)
                (metricScore_integer _ _ _ Hzal Mal)
                (metricScore_integer _ _ _ Hzcl Mcl))
      as (s' & Hs' & Hr' & Hcases & _).
    rewrite Hscore, Hround in Hs'.
    apply CompareFacts.of_Z_inj in Hs'; [ | exact Hs | exact Hr' ].
    rewrite Hs'. exact Hcases. }
  unfold geb. rewrite !Compare.leb_of_Z_exact by lia.
  split; [ reflexivity | ].
  destruct (75 <=? s) eqn:H75; [ apply Z.leb_le in H75 | apply Z.leb_gt in H75 ];
    [ repeat split; intros; try discriminate; try reflexivity; lia | ].
  destruct (45 <=? s) eqn:H45; [ apply Z.leb_le in H45 | apply Z.leb_gt in H45 ];
    repeat split; intros; try discriminate; try reflexivity; lia.
Qed.

Lemma lead_strength_in_range_witness :
  (metricScore halfPoint productKnowledgeScore
     (S754_finite false 5242471441235968 (-46))
   /\ metricScore halfPoint persuasionScore (of_Z 0)
   /\ metricScore halfPoint activeListeningScore (of_Z 0)
   /\ metricScore halfPoint clarityScore (of_Z 0))
  /\ (to_Q (S754_finite false 5242471441235968 (-46)) == 149 # 2)%Q
  /\ exists s : Z,
       score (calculateLeadStrength halfPoint) = of_Z s /\ 0 <= s <= 100.
Proof.
  assert (H1 : metricScore halfPoint productKnowledgeScore
                 (S754_finite false 5242471441235968 (-46))).
  { split; [ vm_compute; reflexivity | left; eexists; split; reflexivity ]. }
  assert (H2 : metricScore halfPoint persuasionScore (of_Z 0)).
  { split; [ vm_compute; reflexivity | right ].
    split; [ reflexivity | right; eexists; split; reflexivity ]. }
  assert (H3 : metricScore halfPoint activeListeningScore (of_Z 0)).
  { split; [ vm_compute; reflexivity | right ].
    split; [ reflexivity | right; eexists; split; reflexivity ]. }
  assert (H4 : metricScore halfPoint clarityScore (of_Z 0)).
  { split; [ vm_compute; reflexivity | left; eexists; split; reflexivity ]. }
  split; [ split; [ exact H1 | split; [ exact H2 | split; [ exact H3 | exact H4 ] ] ] | ].
  split; [ vm_compute; reflexivity | ].
  destruct (lead_strength_in_range halfPoint _ _ _ _ H1 H2 H3 H4)
    as (s & Hs & Hrange & _).
  exists s. split; assumption.
Defined.

(** The score and the label of [halfPoint]: 0.3 * 74.5 = 22.35. *)
Example half_point_is_cold :
  score (calculateLeadStrength halfPoint) = of_Z 22
  /\ label (calculateLeadStrength halfPoint) = Cold.
Proof. split; vm_compute; reflexivity. Qed.

End LeadRange.

(* ===================================================================== *)
(** ** The media type of an upload *)
(* ===================================================================== *)

Module MediaFacts.
Import Str GeminiServiceMedia FileUpload.

(** [sep] does not occur in [s]. *)
Fixpoint lacks (sep : ascii) (s : string) : bool :=
  match s with
  | EmptyString => true
  | String c rest => negb (Ascii.eqb c sep) && lacks sep rest
  end.


Lemma split_nonempty (sep : ascii) (s : string) : split sep s <> [].
Proof.
  induction s as [ | c s IH ]; cbn [split]; [ discriminate | ].
  destruct (Ascii.eqb c sep); [ discriminate | ].
  destruct (split sep s); [ congruence | discriminate ].
Qed.




Lemma split_lacks (sep : ascii) (s : string) :
  lacks sep s = true -> split sep s = [ s ].
Proof.
  induction s as [ | c s IH ]; cbn [lacks split]; [ reflexivity | ].
  intros H. apply andb_prop in H as [ Hc Hs ].
  apply negb_true_iff in Hc. rewrite Hc, (IH Hs). reflexivity.
Qed.

Lemma split_app (sep : ascii) (pre rest : string) :
  split sep (String.append pre (String sep rest))
  = app (split sep pre) (split sep rest).
Proof.
  induction pre as [ | c pre IH ].
  - change (String.append "" (String sep rest)) with (String sep rest).
    cbn [split app]. rewrite Ascii.eqb_refl. reflexivity.
  - rewrite StringFacts.append_cons. cbn [split]. rewrite IH.
    destruct (Ascii.eqb c sep); [ reflexivity | ].
    pose proof (split_nonempty sep pre) as Hne.
    destruct (split sep pre) as [ | p ps ]; [ congruence | reflexivity ].
Qed.

(** The part after the last dot of [pre.ext] is [ext]. *)
Lemma lastPart_app (pre ext : string) :
  lacks "." ext = true ->
  lastPart "." (String.append pre (String "." ext)) = ext.
Proof.
  intros Hext. unfold lastPart. rewrite split_app, (split_lacks _ _ Hext).
  apply last_last.
Qed.



Lemma ownEntry_in (table : list (string * string)) (key value : string) :
  ownEntry table key = Some value -> In (key, value) table.
Proof.
  induction table as [ | [ k v ] table IH ]; cbn [ownEntry]; [ discriminate | ].
  destruct (String.eqb_spec key k) as [ -> | Hne ].
  - intros [= ->]. left. reflexivity.
  - intros H. right. exact (IH H).
Qed.

(** Every media type of the table is a proper one. *)
Lemma typeMap_values (key value : string) :
  In (key, value) typeMap ->
  key <> "" /\ value <> "" /\ value <> "application/octet-stream".
Proof.
  intros Hin. cbn [typeMap In] in Hin.
  repeat (destruct Hin as [ [= <- <-] | Hin ];
          [ repeat split; discriminate | ]).
  destruct Hin.
Qed.

(** X1. What is sent as the media type is never the empty string and never
    [application/octet-stream]; it fails to be a string only for a file
    whose extension is [constructor] or [__proto__], which a plain object
    answers with an inherited member. *)
Theorem resolveMimeType_proper :
  forall fileType fileName : string,
    match resolveMimeType fileType fileName with
    | Mime type => type <> "" /\ type <> "application/octet-stream"
    | Inherited member =>
        toLowerCase (lastPart "." fileName) = member
        /\ (member = "constructor" \/ member = "__proto__")
    end.
Proof.
  intros fileType fileName. unfold resolveMimeType.
  set (ext := toLowerCase (lastPart "." fileName)).
  assert (Hfallback :
    match
      (if String.eqb fileType "" || String.eqb fileType "application/octet-stream"
       then Mime "audio/mpeg" else Mime fileType)
    with
    | Mime type => type <> "" /\ type <> "application/octet-stream"
    | Inherited member =>
        ext = member /\ (member = "constructor" \/ member = "__proto__")
    end).
  { destruct (String.eqb_spec fileType ""); cbn [orb];
      [ split; discriminate | ].
    destruct (String.eqb_spec fileType "application/octet-stream");
      [ split; discriminate | split; assumption ]. }
  destruct (String.eqb ext ""); [ exact Hfallback | ].
  unfold typeMapEntry.
  destruct (ownEntry typeMap ext) as [ type | ] eqn:Hown.
  - apply ownEntry_in, typeMap_values in Hown. tauto.
  - destruct (existsb (String.eqb ext) inheritedMembers) eqn:Hinh;
      [ | exact Hfallback ].
    split; [ reflexivity | ].
    apply existsb_exists in Hinh as (k & Hk & Heq).
    apply String.eqb_eq in Heq. subst k.
    cbn [inheritedMembers In] in Hk. intuition.
Qed.

(** X2. A known extension decides the media type, whatever the case of its
    letters and whatever type the browser reported. *)
Theorem resolveMimeType_extension_wins :
  forall (fileType base ext type : string),
    lacks "." ext = true ->
    ownEntry typeMap (toLowerCase ext) = Some type ->
    resolveMimeType fileType (String.append base (String "." ext)) = Mime type.
Proof.
  intros fileType base ext type Hdot Hown. unfold resolveMimeType.
  rewrite (lastPart_app base ext Hdot).
  destruct (String.eqb_spec (toLowerCase ext) "") as [ Hempty | _ ].
  - rewrite Hempty in Hown. discriminate Hown.
  - unfold typeMapEntry. rewrite Hown. reflexivity.
Qed.

Lemma resolveMimeType_extension_wins_witness :
  (lacks "." "MP3" = true /\ ownEntry typeMap (toLowerCase "MP3") = Some "audio/mpeg")
  /\ resolveMimeType "application/octet-stream" "Call Recording.MP3"
     = Mime "audio/mpeg".
Proof.
  split; [ split; reflexivity | ].
  apply (resolveMimeType_extension_wins
           "application/octet-stream" "Call Recording" "MP3" "audio/mpeg");
    reflexivity.
Defined.






(** The exception happens: a file named [a.constructor] that the browser
    reports as [audio/mpeg] passes the check of the upload form and is
    sent with the inherited member. *)
Lemma inherited_member_accepted :
  isSupportedFormat "audio/mpeg" "a.constructor" = true
  /\ resolveMimeType "audio/mpeg" "a.constructor" = Inherited "constructor".
Proof. split; reflexivity. Qed.

(** A recording with the extension [webm] is in the table of the analysis
    but is turned away by the upload form, unless the browser reports one
    of the supported types for it. *)
Lemma webm_refused :
  resolveMimeType "audio/webm" "call.webm" = Mime "audio/webm"
  /\ isSupportedFormat "audio/webm" "call.webm" = false.
Proof. split; reflexivity. Qed.

End MediaFacts.

(* ===================================================================== *)
(** ** More on the score *)
(* ===================================================================== *)

Module ScoreBounds.
Import GeminiService ScoreSpec Enum ScoreFacts CompareFacts.

(** The record of the checks is read only at the applicable checks, and
    only for whether the entry is [true]. *)
Lemma passedChecks_ext (c1 c2 : JsVal) leadType relationshipType :
  (forall key : string,
     In key (applicableChecks leadType relationshipType) ->
     is_true (optProp c1 key) = is_true (optProp c2 key)) ->
  passedChecks c1 leadType relationshipType
  = passedChecks c2 leadType relationshipType.
Proof.
  intros Hsame. unfold passedChecks.
  induction (applicableChecks leadType relationshipType) as [ | key keys IH ];
    [ reflexivity | ].
  cbn [List.filter]. rewrite (Hsame key (or_introl eq_refl)).
  rewrite IH; [ reflexivity | ].
  intros k Hk. apply Hsame. right. exact Hk.
Qed.

(** X4. The score reads the record of the checks only at the applicable
    checks, and only for whether each entry is exactly [true]: two records
    that agree there get the same score, whatever the count of buying
    signals.  So for an old lead or an existing client the entries
    [dmVerified] and [needDiscovery] are never looked at. *)
Theorem score_reads_applicable_checks_only :
  forall (c1 c2 : JsVal) (buyingSignals : number) (leadType : LeadType)
         (relationshipType : RelationshipType) (dealOutcome : string),
    (forall key : string,
       In key (applicableChecks leadType relationshipType) ->
       is_true (optProp c1 key) = is_true (optProp c2 key)) ->
    calculateDeterministicScore c1 buyingSignals leadType relationshipType dealOutcome
    = calculateDeterministicScore c2 buyingSignals leadType relationshipType
        dealOutcome.
Proof.
  intros c1 c2 buyingSignals leadType relationshipType dealOutcome Hsame.
  unfold calculateDeterministicScore, preRejectionScore, percentage.
  rewrite (passedChecks_ext c1 c2 leadType relationshipType Hsame).
  reflexivity.
Qed.

(** A record with the three later checks passed and the two intro-related
    ones failed. *)
Definition introFailed : JsVal :=
  JObj (list_to_map
          [ ("dmVerified", JBool false); ("needDiscovery", JStr "yes");
            ("priceAdherence", JBool true); ("objectionHandled", JBool true);
            ("hardCloseAttempted", JBool true) ]).

Lemma score_reads_applicable_checks_only_witness :
  (forall key : string,
     In key (applicableChecks OLD_LEAD CLIENT) ->
     is_true (optProp introFailed key) = is_true (optProp allPassed key))
  /\ calculateDeterministicScore introFailed (of_Z 2) OLD_LEAD CLIENT "Neutral"
     = calculateDeterministicScore allPassed (of_Z 2) OLD_LEAD CLIENT "Neutral".
Proof.
  assert (Hsame : forall key : string,
            In key (applicableChecks OLD_LEAD CLIENT) ->
            is_true (optProp introFailed key) = is_true (optProp allPassed key)).
  { intros key Hin. vm_compute in Hin.
    destruct Hin as [ <- | [ <- | [ <- | [] ] ] ]; vm_compute; reflexivity. }
  split; [ exact Hsame | ].
  exact (score_reads_applicable_checks_only introFailed allPassed (of_Z 2)
           OLD_LEAD CLIENT "Neutral" Hsame).
Defined.

(** X5. Buying signals beyond the fifth change nothing. *)
Theorem signals_beyond_five_ignored :
  forall (compliance : JsVal) (n : Z) (leadType : LeadType)
         (relationshipType : RelationshipType) (dealOutcome : string),
    5 <= n ->
    calculateDeterministicScore compliance (of_Z n) leadType relationshipType
      dealOutcome
    = calculateDeterministicScore compliance (of_Z 5) leadType relationshipType
        dealOutcome.
Proof.
  intros compliance n leadType relationshipType dealOutcome Hn.
  destruct (score_exact compliance n leadType relationshipType dealOutcome
              ltac:(lia)) as [ -> _ ].
  destruct (score_exact compliance 5 leadType relationshipType dealOutcome
              ltac:(lia)) as [ -> _ ].
  rewrite (spec_min_signals _ _ n). rewrite Z.min_r by lia. reflexivity.
Qed.

Lemma signals_beyond_five_ignored_witness :
  5 <= 1000000
  /\ calculateDeterministicScore priceOnly (of_Z 1000000) NEW_LEAD LEAD "Neutral"
     = calculateDeterministicScore priceOnly (of_Z 5) NEW_LEAD LEAD "Neutral".
Proof.
  split; [ lia | ].
  apply (signals_beyond_five_ignored priceOnly 1000000 NEW_LEAD LEAD "Neutral").
  lia.
Defined.

(** X6. A count of buying signals that is falsy (0, -0 or NaN) counts as no
    signal at all. *)
Theorem falsy_signals_count_as_zero :
  forall (compliance : JsVal) (buyingSignals : number) (leadType : LeadType)
         (relationshipType : RelationshipType) (dealOutcome : string),
    toBoolean buyingSignals = false ->
    calculateDeterministicScore compliance buyingSignals leadType relationshipType
      dealOutcome
    = calculateDeterministicScore compliance (of_Z 0) leadType relationshipType
        dealOutcome.
Proof.
  intros compliance buyingSignals leadType relationshipType dealOutcome Hfalsy.
  unfold calculateDeterministicScore, preRejectionScore, buyingBoost, or_else.
  rewrite Hfalsy.
  replace (toBoolean (of_Z 0)) with false by (vm_compute; reflexivity).
  reflexivity.
Qed.

Lemma falsy_signals_count_as_zero_witness :
  toBoolean S754_nan = false
  /\ calculateDeterministicScore allPassed S754_nan NEW_LEAD LEAD "Neutral"
     = calculateDeterministicScore allPassed (of_Z 0) NEW_LEAD LEAD "Neutral".
Proof.
  split; [ reflexivity | ].
  apply (falsy_signals_count_as_zero allPassed S754_nan NEW_LEAD LEAD "Neutral").
  reflexivity.
Defined.

(** The penalties over the integers from 0 to 100. *)
Definition penalty_entry (s : Z) : bool :=
  (specScaled 15 s <=? specScaled 60 s)
  && (specScaled 60 s <=? s)
  && (specScaled 15 s <=? 15)
  && (specScaled 60 s <=? 60).

Lemma penalty_table_ok : forallb penalty_entry (range 101) = true.
Proof. vm_compute. reflexivity. Qed.

(** X7. A rejection never raises the score: for the same call the score
    under a hard rejection is at most the score under a soft rejection,
    which is at most the score under any other outcome; and a hard
    rejection scores at most 15, a soft one at most 60. *)
Theorem rejection_lowers_score :
  forall (compliance : JsVal) (n : Z) (leadType : LeadType)
         (relationshipType : RelationshipType) (dealOutcome : string),
    0 <= n ->
    dealOutcome <> "HardRejection" -> dealOutcome <> "SoftRejection" ->
    exists hard soft plain : Z,
      calculateDeterministicScore compliance (of_Z n) leadType relationshipType
        "HardRejection" = of_Z hard
      /\ calculateDeterministicScore compliance (of_Z n) leadType relationshipType
           "SoftRejection" = of_Z soft
      /\ calculateDeterministicScore compliance (of_Z n) leadType relationshipType
           dealOutcome = of_Z plain
      /\ 0 <= hard /\ hard <= soft /\ soft <= plain /\ plain <= 100
      /\ hard <= 15 /\ soft <= 60.
Proof.
  intros compliance n leadType relationshipType dealOutcome Hn Hh Hs.
  destruct (score_exact compliance n leadType relationshipType "HardRejection" Hn)
    as [ Ehard Rhard ].
  destruct (score_exact compliance n leadType relationshipType "SoftRejection" Hn)
    as [ Esoft Rsoft ].
  destruct (score_exact compliance n leadType relationshipType dealOutcome Hn)
    as [ Eplain Rplain ].
  rewrite specOutcome_other in Eplain, Rplain by assumption.
  set (s := specPreRejection
              (Z.of_nat (length (passedChecks compliance leadType relationshipType)))
              (Z.of_nat (length (applicableChecks leadType relationshipType))) n)
    in *.
  change (specOutcome s "HardRejection") with (specScaled 15 s) in *.
  change (specOutcome s "SoftRejection") with (specScaled 60 s) in *.
  pose proof (forallb_range penalty_entry 101 penalty_table_ok s ltac:(lia)) as H.
  unfold penalty_entry in H.
  apply andb_prop in H as [ H H60 ]. apply andb_prop in H as [ H H15 ].
  apply andb_prop in H as [ Hhs Hsp ].
  apply Z.leb_le in H60, H15, Hhs, Hsp.
  exists (specScaled 15 s), (specScaled 60 s), s.
  split; [ exact Ehard | ]. split; [ exact Esoft | ]. split; [ exact Eplain | ].
  lia.
Qed.

Lemma rejection_lowers_score_witness :
  (0 <= 3 /\ "Neutral" <> "HardRejection" /\ "Neutral" <> "SoftRejection")
  /\ exists hard soft plain : Z,
       calculateDeterministicScore allPassed (of_Z 3) NEW_LEAD LEAD "HardRejection"
         = of_Z hard
       /\ calculateDeterministicScore allPassed (of_Z 3) NEW_LEAD LEAD "SoftRejection"
            = of_Z soft
       /\ calculateDeterministicScore allPassed (of_Z 3) NEW_LEAD LEAD "Neutral"
            = of_Z plain
       /\ hard <= soft /\ soft <= plain.
Proof.
  assert (Hh : "Neutral" <> "HardRejection") by discriminate.
  assert (Hs : "Neutral" <> "SoftRejection") by discriminate.
  split; [ split; [ lia | split; assumption ] | ].
  destruct (rejection_lowers_score allPassed 3 NEW_LEAD LEAD "Neutral"
              ltac:(lia) Hh Hs)
    as (hard & soft & plain & E1 & E2 & E3 & _ & H1 & H2 & _).
  exists hard, soft, plain.
  split; [ exact E1 | ]. split; [ exact E2 | ]. split; [ exact E3 | ].
  split; assumption.
Defined.

(** When the exact score before the penalties reaches 100. *)
Definition full_entry (applicable : Z) (p k : Z) : bool :=
  Bool.eqb (specPreRejection p applicable k =? 100)
           ((p =? applicable) && (k =? 5)).

Lemma full_table_ok :
  forallb (fun p => forallb (full_entry 3 p) (range 6)) (range 4) = true
  /\ forallb (fun p => forallb (full_entry 5 p) (range 6)) (range 6) = true.
Proof. split; vm_compute; reflexivity. Qed.

(** X8. The score is 100 exactly when every applicable check passed, at
    least five buying signals were counted and the outcome is not a
    rejection. *)
Theorem full_score_iff :
  forall (compliance : JsVal) (n : Z) (leadType : LeadType)
         (relationshipType : RelationshipType) (dealOutcome : string),
    0 <= n ->
    calculateDeterministicScore compliance (of_Z n) leadType relationshipType
      dealOutcome = of_Z 100
    <-> (passedChecks compliance leadType relationshipType
         = applicableChecks leadType relationshipType
         /\ 5 <= n
         /\ dealOutcome <> "HardRejection" /\ dealOutcome <> "SoftRejection").
Proof.
  intros compliance n leadType relationshipType dealOutcome Hn.
  destruct (score_exact compliance n leadType relationshipType dealOutcome Hn)
    as [ -> Hrange ].
  pose proof (ScoreChecks.passed_le_applicable compliance leadType relationshipType)
    as Hle.
  set (passed := passedChecks compliance leadType relationshipType) in *.
  set (applicable := applicableChecks leadType relationshipType) in *.
  (* all passed, as a count *)
  assert (Hall : passed = applicable <-> length passed = length applicable).
  { split; [ intros ->; reflexivity | ].
    unfold passed, passedChecks. fold applicable. clear.
    induction applicable as [ | key keys IH ]; [ reflexivity | ].
    cbn [List.filter].
    destruct (is_true (optProp compliance key)).
    - cbn [length]. intros H. f_equal. apply IH. lia.
    - intros H. exfalso.
      pose proof (List.filter_length_le
                    (fun key => is_true (optProp compliance key)) keys) as Hl.
      cbn [length] in H. lia. }
  (* the exact score before the penalties *)
  assert (Hfull :
    specPreRejection (Z.of_nat (length passed)) (Z.of_nat (length applicable)) n
      = 100
    <-> (length passed = length applicable /\ 5 <= n)).
  { rewrite (spec_min_signals _ _ n).
    destruct full_table_ok as [ H3 H5 ].
    assert (Hrow :
      Bool.eqb
        (specPreRejection (Z.of_nat (length passed)) (Z.of_nat (length applicable))
           (Z.min n 5) =? 100)
        ((Z.of_nat (length passed) =? Z.of_nat (length applicable))
         && (Z.min n 5 =? 5)) = true).
    { destruct (applicable_3_or_5 leadType relationshipType) as [ Ha | Ha ];
        fold applicable in Ha; rewrite Ha in *.
      - exact (forallb_range2 (full_entry 3) 4 6 H3 (Z.of_nat (length passed))
                 (Z.min n 5) ltac:(lia) ltac:(lia)).
      - exact (forallb_range2 (full_entry 5) 6 6 H5 (Z.of_nat (length passed))
                 (Z.min n 5) ltac:(lia) ltac:(lia)). }
    apply Bool.eqb_prop in Hrow.
    rewrite <- Z.eqb_eq, Hrow, andb_true_iff, !Z.eqb_eq.
    split; intros [ H1 H2 ]; split; lia. }
  set (s := specPreRejection (Z.of_nat (length passed))
              (Z.of_nat (length applicable)) n) in *.
  assert (Hs : 0 <= s <= 100).
  { destruct (preRejectionScore_exact compliance n leadType relationshipType Hn)
      as [ _ H ]. exact H. }
  pose proof (forallb_range penalty_entry 101 penalty_table_ok s ltac:(lia)) as Hp.
  unfold penalty_entry in Hp.
  apply andb_prop in Hp as [ Hp H60 ]. apply andb_prop in Hp as [ Hp H15 ].
  apply Z.leb_le in H60, H15.
  split.
  - intros Heq. apply of_Z_inj in Heq; [ | exact Hrange | lia ].
    destruct (outcome_cases dealOutcome) as [ -> | [ -> | [ Hh Hsf ] ] ].
    + change (specOutcome s "HardRejection") with (specScaled 15 s) in Heq. lia.
    + change (specOutcome s "SoftRejection") with (specScaled 60 s) in Heq. lia.
    + rewrite specOutcome_other in Heq by assumption.
      apply Hfull in Heq as [ Hlen H5 ]. apply Hall in Hlen. tauto.
  - intros (Hpassed & H5 & Hh & Hsf).
    rewrite specOutcome_other by assumption. f_equal.
    apply Hfull. split; [ apply Hall, Hpassed | exact H5 ].
Qed.

Lemma full_score_iff_witness :
  0 <= 6
  /\ calculateDeterministicScore allPassed (of_Z 6) NEW_LEAD LEAD "Neutral"
     = of_Z 100.
Proof.
  split; [ lia | ].
  apply (full_score_iff allPassed 6 NEW_LEAD LEAD "Neutral"); [ lia | ].
  split; [ vm_compute; reflexivity | ].
  split; [ lia | split; discriminate ].
Defined.

End ScoreBounds.

(* ===================================================================== *)
(** ** More on the lead strength *)
(* ===================================================================== *)

Module LeadOrder.
Import LeadAnalytics Enum Reach LeadFacts CompareFacts.

(** The score of an analysis with integer metrics, against ten times its
    exact weighted sum: the nearest integer, or one less at a tie. *)
Lemma lead_score_cases (analysis : CallAnalysis) (pk p al cl : Z) :
  metricIs analysis productKnowledgeScore pk ->
  metricIs analysis persuasionScore p ->
  metricIs analysis activeListeningScore al ->
  metricIs analysis clarityScore cl ->
  let n := tenths pk p al cl (objectionHandled (compliance analysis)) in
  exists s : Z,
    Math_round (weightedSum analysis) = of_Z s
    /\ 0 <= s <= 100
    /\ (s = (n + 5) / 10 \/ (s = (n + 5) / 10 - 1 /\ n mod 10 = 5)).
Proof.
  intros Mpk Mp Mal Mcl.
  pose proof (metricOrZero_value _ _ _ Mpk) as Epk.
  pose proof (metricOrZero_value _ _ _ Mp) as Ep.
  pose proof (metricOrZero_value _ _ _ Mal) as Eal.
  pose proof (metricOrZero_value _ _ _ Mcl) as Ecl.
  destruct Mpk as [ Hpk _ ], Mp as [ Hp _ ], Mal as [ Hal _ ], Mcl as [ Hcl _ ].
  unfold weightedSum. rewrite Epk, Ep, Eal, Ecl.
  set (handled := objectionHandled (compliance analysis)).
  pose proof (reach5_member pk p al cl handled Hpk Hp Hal Hcl) as Hmem.
  apply member_elements in Hmem.
  pose proof reach5_rounds as Hall. rewrite forallb_forall in Hall.
  specialize (Hall _ Hmem). unfold rounds_as_expected in Hall.
  cbn [fst snd] in Hall. cbv zeta.
  set (n := tenths pk p al cl handled) in *.
  assert (Hn : 0 <= n <= 1000) by (unfold n, tenths; destruct handled; lia).
  assert (Hz : 0 <= (n + 5) / 10 <= 100).
  { split; [ apply Z.div_pos; lia | ].
    assert ((n + 5) / 10 < 101); [ apply Z.div_lt_upper_bound; lia | lia ]. }
  apply orb_prop in Hall as [ Heq | Heq ].
  - apply eqb_eq in Heq. exists ((n + 5) / 10).
    split; [ exact Heq | ]. split; [ exact Hz | left; reflexivity ].
  - apply andb_prop in Heq as [ Hfive Heq ].
    apply Z.eqb_eq in Hfive. apply eqb_eq in Heq.
    exists ((n + 5) / 10 - 1). split; [ exact Heq | ].
    split; [ | right; split; [ reflexivity | exact Hfive ] ].
    assert (1 <= (n + 5) / 10); [ | lia ].
    apply Z.div_le_lower_bound; [ lia | ].
    pose proof (Z.mod_pos_bound n 10 ltac:(lia)).
    pose proof (Z.div_mod n 10 ltac:(lia)).
    assert (0 <= n / 10) by (apply Z.div_pos; lia). lia.
Qed.

(** The labels, from the weakest to the strongest. *)
Definition rank (l : Label) : Z :=
  match l with Cold => 0 | Warm => 1 | Hot => 2 end.

(** X9. Better metrics never give a weaker lead: when each of the four
    weighted metrics of one analysis is at most that of another, and the
    objection was handled in the second if it was in the first, the score
    of the first is at most the score of the second and its label is not
    stronger.  The rounding error of the floating-point sum cannot reverse
    the order. *)
Theorem lead_strength_monotone :
  forall (a1 a2 : CallAnalysis) (pk1 p1 al1 cl1 pk2 p2 al2 cl2 : Z),
    metricIs a1 productKnowledgeScore pk1 ->
    metricIs a1 persuasionScore p1 ->
    metricIs a1 activeListeningScore al1 ->
    metricIs a1 clarityScore cl1 ->
    metricIs a2 productKnowledgeScore pk2 ->
    metricIs a2 persuasionScore p2 ->
    metricIs a2 activeListeningScore al2 ->
    metricIs a2 clarityScore cl2 ->
    pk1 <= pk2 -> p1 <= p2 -> al1 <= al2 -> cl1 <= cl2 ->
    (objectionHandled (compliance a1) = true ->
     objectionHandled (compliance a2) = true) ->
    leb (score (calculateLeadStrength a1)) (score (calculateLeadStrength a2)) = true
    /\ rank (label (calculateLeadStrength a1))
       <= rank (label (calculateLeadStrength a2)).
Proof.
  intros a1 a2 pk1 p1 al1 cl1 pk2 p2 al2 cl2
         Mpk1 Mp1 Mal1 Mcl1 Mpk2 Mp2 Mal2 Mcl2 Hpk Hp Hal Hcl Hflag.
  destruct (calculateLeadStrength_unfold a1) as [ -> -> ].
  destruct (calculateLeadStrength_unfold a2) as [ -> -> ].
  destruct (lead_score_cases a1 pk1 p1 al1 cl1 Mpk1 Mp1 Mal1 Mcl1)
    as (s1 & E1 & R1 & C1).
  destruct (lead_score_cases a2 pk2 p2 al2 cl2 Mpk2 Mp2 Mal2 Mcl2)
    as (s2 & E2 & R2 & C2).
  cbv zeta in C1, C2.
  set (n1 := tenths pk1 p1 al1 cl1 (objectionHandled (compliance a1))) in *.
  set (n2 := tenths pk2 p2 al2 cl2 (objectionHandled (compliance a2))) in *.
  assert (Hn : n1 <= n2).
  { unfold n1, n2, tenths.
    destruct (objectionHandled (compliance a1)), (objectionHandled (compliance a2));
      try lia; specialize (Hflag eq_refl); discriminate Hflag. }
  assert (Hs : s1 <= s2).
  { destruct (Z.eq_dec n1 n2) as [ Heq | Hne ].
    - (* the same sum: the same metrics, hence the same computation *)
      assert (Hsame : pk1 = pk2 /\ p1 = p2 /\ al1 = al2 /\ cl1 = cl2
                      /\ objectionHandled (compliance a1)
                         = objectionHandled (compliance a2)).
      { unfold n1, n2, tenths in Heq.
        destruct (objectionHandled (compliance a1)),
                 (objectionHandled (compliance a2));
          try (repeat split; lia);
          specialize (Hflag eq_refl); discriminate Hflag. }
      destruct Hsame as (<- & <- & <- & <- & Hh).
      assert (Hsum : weightedSum a1 = weightedSum a2).
      { unfold weightedSum.
        rewrite (metricOrZero_value _ _ _ Mpk1), (metricOrZero_value _ _ _ Mp1),
                (metricOrZero_value _ _ _ Mal1), (metricOrZero_value _ _ _ Mcl1),
                (metricOrZero_value _ _ _ Mpk2), (metricOrZero_value _ _ _ Mp2),
                (metricOrZero_value _ _ _ Mal2), (metricOrZero_value _ _ _ Mcl2),
                Hh.
        reflexivity. }
      rewrite Hsum, E2 in E1.
      assert (s2 = s1); [ | lia ].
      apply of_Z_inj in E1; [ exact E1 | exact R2 | exact R1 ].
    - assert (Hlt : n1 + 1 <= n2) by lia.
      assert (Hup : s1 <= (n1 + 5) / 10) by (destruct C1 as [ -> | [ -> _ ] ]; lia).
      destruct C2 as [ -> | [ -> Hmod ] ].
      + pose proof (Z.div_le_mono (n1 + 5) (n2 + 5) 10 ltac:(lia) ltac:(lia)). lia.
      + pose proof (Z.div_mod n2 10 ltac:(lia)) as Hdm. rewrite Hmod in Hdm.
        assert (Hq : (n2 + 5) / 10 = n2 / 10 + 1).
        { replace (n2 + 5) with ((n2 / 10 + 1) * 10) by lia.
          apply Z.div_mul. lia. }
        assert (Hq1 : (n1 + 5) / 10 <= n2 / 10).
        { assert ((n1 + 5) / 10 < n2 / 10 + 1); [ | lia ].
          apply Z.div_lt_upper_bound; lia. }
        lia. }
  rewrite E1, E2. clear E1 E2.
  split.
  - rewrite Compare.leb_of_Z_exact by lia. apply Z.leb_le. exact Hs.
  - unfold geb. rewrite !Compare.leb_of_Z_exact by lia.
    destruct (75 <=? s1) eqn:A1; destruct (75 <=? s2) eqn:A2;
      destruct (45 <=? s1) eqn:B1; destruct (45 <=? s2) eqn:B2;
      cbn [rank]; try lia;
      rewrite ?Z.leb_le, ?Z.leb_gt in *; lia.
Qed.

(** An analysis with the given metrics, the objection handled or not. *)
Definition analysisOf (pk p al cl : Z) (handled : bool) : CallAnalysis :=
  {| metrics :=
       Some {| politenessScore := None;
               activeListeningScore := Some (of_Z al);
               productKnowledgeScore := Some (of_Z pk);
               empathyScore := None;
               clarityScore := Some (of_Z cl);
               persuasionScore := Some (of_Z p) |};
     compliance :=
       {| dmVerified := false; needDiscovery := false; priceAdherence := false;
          objectionHandled := handled; hardCloseAttempted := false |} |}.

Lemma analysisOf_metrics (pk p al cl : Z) (handled : bool) :
  0 <= pk <= 100 -> 0 <= p <= 100 -> 0 <= al <= 100 -> 0 <= cl <= 100 ->
  metricIs (analysisOf pk p al cl handled) productKnowledgeScore pk
  /\ metricIs (analysisOf pk p al cl handled) persuasionScore p
  /\ metricIs (analysisOf pk p al cl handled) activeListeningScore al
  /\ metricIs (analysisOf pk p al cl handled) clarityScore cl.
Proof.
  intros Hpk Hp Hal Hcl.
  split; [ split; [ exact Hpk | left; eexists; split; reflexivity ] | ].
  split; [ split; [ exact Hp | left; eexists; split; reflexivity ] | ].
  split; [ split; [ exact Hal | left; eexists; split; reflexivity ] | ].
  split; [ exact Hcl | left; eexists; split; reflexivity ].
Qed.

Lemma lead_strength_monotone_witness :
  (metricIs (analysisOf 24 98 94 91 true) clarityScore 91
   /\ metricIs (analysisOf 24 98 94 92 true) clarityScore 92
   /\ 91 <= 92)
  /\ leb (score (calculateLeadStrength (analysisOf 24 98 94 91 true)))
         (score (calculateLeadStrength (analysisOf 24 98 94 92 true))) = true
  /\ rank (label (calculateLeadStrength (analysisOf 24 98 94 91 true)))
     <= rank (label (calculateLeadStrength (analysisOf 24 98 94 92 true))).
Proof.
  destruct (analysisOf_metrics 24 98 94 91 true
              ltac:(lia) ltac:(lia) ltac:(lia) ltac:(lia))
    as (A1 & A2 & A3 & A4).
  destruct (analysisOf_metrics 24 98 94 92 true
              ltac:(lia) ltac:(lia) ltac:(lia) ltac:(lia))
    as (B1 & B2 & B3 & B4).
  split; [ split; [ exact A4 | split; [ exact B4 | lia ] ] | ].
  exact (lead_strength_monotone _ _ 24 98 94 91 24 98 94 92
           A1 A2 A3 A4 B1 B2 B3 B4
           ltac:(lia) ltac:(lia) ltac:(lia) ltac:(lia) (fun H => H)).
Defined.

(** X10. The lead strength reads four metrics and one flag: the politeness
    and empathy scores and the four other checks have no influence, a
    missing metric counts as 0, and the colour always goes with the
    label. *)
Theorem lead_strength_reads :
  forall a1 a2 : CallAnalysis,
    metricOrZero (metrics a1) productKnowledgeScore
      = metricOrZero (metrics a2) productKnowledgeScore ->
    metricOrZero (metrics a1) persuasionScore
      = metricOrZero (metrics a2) persuasionScore ->
    metricOrZero (metrics a1) activeListeningScore
      = metricOrZero (metrics a2) activeListeningScore ->
    metricOrZero (metrics a1) clarityScore
      = metricOrZero (metrics a2) clarityScore ->
    objectionHandled (compliance a1) = objectionHandled (compliance a2) ->
    calculateLeadStrength a1 = calculateLeadStrength a2
    /\ color (calculateLeadStrength a1)
       = match label (calculateLeadStrength a1) with
         | Hot => "#20b384" | Warm => "#F59E0B" | Cold => "#E11D48"
         end.
Proof.
  intros a1 a2 Hpk Hp Hal Hcl Hflag.
  assert (Hsum : weightedSum a1 = weightedSum a2).
  { unfold weightedSum. rewrite Hpk, Hp, Hal, Hcl, Hflag. reflexivity. }
  unfold calculateLeadStrength. rewrite Hsum.
  split; [ reflexivity | ].
  destruct (geb (Math_round (weightedSum a2)) (of_Z 75)); [ reflexivity | ].
  destruct (geb (Math_round (weightedSum a2)) (of_Z 45)); reflexivity.
Qed.

Lemma lead_strength_reads_witness :
  politenessScore <$> metrics almostHot
    <> politenessScore <$> metrics (analysisOf 24 98 94 91 true)
  /\ calculateLeadStrength almostHot
     = calculateLeadStrength (analysisOf 24 98 94 91 true).
Proof.
  split; [ discriminate | ].
  apply (lead_strength_reads almostHot (analysisOf 24 98 94 91 true));
    reflexivity.
Defined.

End LeadOrder.

(* ===================================================================== *)
(** ** More on [withRetry] *)
(* ===================================================================== *)

Module RetryTrace.
Import GeminiService RetryFacts.

(** The delays slept through, in order. *)
Definition delaysOf (events : list Event) : list Z :=
  flat_map (fun ev => match ev with Sleep delay => [ delay ] | _ => [] end) events.

Section Trace.

Variables World T : Type.
Variable fn : World -> Completion T * World.

(** The world after [k] calls of [fn], one after the other. *)
Fixpoint worldAfter (k : nat) (w : World) : World :=
  match k with
  | O => w
  | S k' => worldAfter k' (snd (fn w))
  end.

(** X11. What a run of [withRetry] amounts to.  The calls are made one after
    the other, each in the world the previous one left.  Every call but the
    last failed with an error classified as a server-side 500.  The last
    call decides the result: its value, or its error as it was thrown, or
    the [TypeError] of a classification that itself threw; and an error
    classified as a 500 is only given back once the budget is spent. *)
Theorem withRetry_trace :
  forall (retries : nat) (w : World),
    let run := withRetry fn retries w in
    let k := retriesMade (snd run) in
    (k <= retries)%nat
    /\ invocations (snd run) = S k
    /\ (forall j : nat, (j < k)%nat ->
          exists err : JsVal,
            fst (fn (worldAfter j w)) = Rejected err
            /\ isInternalError err = Fulfilled true)
    /\ snd (fst run) = snd (fn (worldAfter k w))
    /\ match fst (fn (worldAfter k w)) with
       | Fulfilled value => fst (fst run) = Fulfilled value
       | Rejected err =>
           match isInternalError err with
           | Rejected e => fst (fst run) = Rejected e
           | Fulfilled internal =>
               fst (fst run) = Rejected err
               /\ (internal = true -> k = retries)
           end
       end.
Proof.
  assert (Hstop :
    forall (retries : nat) (w w1 : World) (result : Completion T),
      snd (fn w) = w1 ->
      match fst (fn w) with
      | Fulfilled value => result = Fulfilled value
      | Rejected err =>
          match isInternalError err with
          | Rejected e => result = Rejected e
          | Fulfilled internal =>
              result = Rejected err /\ (internal = true -> 0%nat = retries)
          end
      end ->
      let run := (result, w1, [ Invoke ]) in
      let k := retriesMade (snd run) in
      (k <= retries)%nat
      /\ invocations (snd run) = S k
      /\ (forall j : nat, (j < k)%nat ->
            exists err : JsVal,
              fst (fn (worldAfter j w)) = Rejected err
              /\ isInternalError err = Fulfilled true)
      /\ snd (fst run) = snd (fn (worldAfter k w))
      /\ match fst (fn (worldAfter k w)) with
         | Fulfilled value => fst (fst run) = Fulfilled value
         | Rejected err =>
             match isInternalError err with
             | Rejected e => fst (fst run) = Rejected e
             | Fulfilled internal =>
                 fst (fst run) = Rejected err
                 /\ (internal = true -> k = retries)
             end
         end).
  { intros retries w w1 result Hworld Hlast. cbv zeta.
    change (retriesMade (snd (result, w1, [ Invoke ]))) with 0%nat.
    change (invocations (snd (result, w1, [ Invoke ]))) with 1%nat.
    cbn [fst snd worldAfter].
    split; [ lia | ]. split; [ reflexivity | ].
    split; [ intros j Hj; lia | ].
    split; [ symmetry; exact Hworld | exact Hlast ]. }
  induction retries as [ | retries IH ]; intros w; rewrite withRetry_unfold.
  - destruct (fn w) as [ [ value | err ] w1 ] eqn:Hfn.
    + apply Hstop; rewrite Hfn; reflexivity.
    + destruct (isInternalError err) as [ internal | e ] eqn:Hclass;
        apply Hstop; rewrite Hfn; cbn [fst snd]; rewrite ?Hclass;
        try reflexivity.
      split; reflexivity.
  - destruct (fn w) as [ [ value | err ] w1 ] eqn:Hfn.
    + apply Hstop; rewrite Hfn; reflexivity.
    + destruct (isInternalError err) as [ [ | ] | e ] eqn:Hclass.
      * specialize (IH w1). cbv zeta in IH |- *.
        destruct (withRetry fn retries w1) as [ [ result w2 ] events ].
        cbn [fst snd] in *.
        destruct IH as (Hk & Hinv & Hprev & Hworld & Hlast).
        change (retriesMade (Invoke :: Warn ((4 - Z.of_nat (S retries)) * 2000)
                               (S retries)
                             :: Sleep ((4 - Z.of_nat (S retries)) * 2000) :: events))
          with (S (retriesMade events)).
        change (invocations (Invoke :: Warn ((4 - Z.of_nat (S retries)) * 2000)
                               (S retries)
                             :: Sleep ((4 - Z.of_nat (S retries)) * 2000) :: events))
          with (S (invocations events)).
        cbn [worldAfter]. rewrite Hfn. cbn [snd].
        split; [ lia | ]. split; [ lia | ].
        split.
        { intros [ | j ] Hj.
          - exists err. cbn [worldAfter]. rewrite Hfn.
            split; [ reflexivity | exact Hclass ].
          - cbn [worldAfter]. rewrite Hfn. cbn [snd]. apply Hprev. lia. }
        split; [ exact Hworld | ].
        destruct (fst (fn (worldAfter (retriesMade events) w1))) as [ value | err' ];
          [ exact Hlast | ].
        destruct (isInternalError err') as [ internal | e ]; [ | exact Hlast ].
        destruct Hlast as [ Hres Hspent ]. split; [ exact Hres | ].
        intros Hi. f_equal. exact (Hspent Hi).
      * apply Hstop; rewrite Hfn; cbn [fst snd]; rewrite ?Hclass;
          [ reflexivity | ].
        split; [ reflexivity | discriminate ].
      * apply Hstop; rewrite Hfn; cbn [fst snd]; rewrite ?Hclass; reflexivity.
Qed.

(** The retry made with [r] retries left waits [(4 - r) * 2000]
    milliseconds. *)
Lemma delays_schedule (retries : nat) :
  forall w : World,
    delaysOf (snd (withRetry fn retries w))
    = map (fun j : nat => (4 - Z.of_nat retries + Z.of_nat j) * 2000)
        (seq 0 (retriesMade (snd (withRetry fn retries w)))).
Proof.
  induction retries as [ | retries IH ]; intros w; rewrite withRetry_unfold.
  - destruct (fn w) as [ [ value | err ] w1 ]; [ reflexivity | ].
    destruct (isInternalError err) as [ internal | e ]; reflexivity.
  - destruct (fn w) as [ [ value | err ] w1 ]; [ reflexivity | ].
    destruct (isInternalError err) as [ [ | ] | e ]; try reflexivity.
    specialize (IH w1).
    destruct (withRetry fn retries w1) as [ [ result w2 ] events ].
    cbn [snd] in *.
    change (retriesMade (Invoke :: Warn ((4 - Z.of_nat (S retries)) * 2000)
                           (S retries)
                         :: Sleep ((4 - Z.of_nat (S retries)) * 2000) :: events))
      with (S (retriesMade events)).
    change (delaysOf (Invoke :: Warn ((4 - Z.of_nat (S retries)) * 2000)
                        (S retries)
                      :: Sleep ((4 - Z.of_nat (S retries)) * 2000) :: events))
      with ((4 - Z.of_nat (S retries)) * 2000 :: delaysOf events).
    rewrite IH. cbn [seq map]. f_equal; [ f_equal; lia | ].
    rewrite <- seq_shift, map_map. apply map_ext. intros j. f_equal. lia.
Qed.

(** X12. The waiting times.  A run with budget [retries] waits
    [(4 - retries) * 2000] milliseconds before its first retry and 2000
    more before each further one.  With the default budget the waits are
    2, 4 and 6 seconds, in this order, as far as the run gets: never more
    than 12 seconds in all. *)
Theorem withRetry_delays :
  forall (retries : nat) (w : World),
    delaysOf (snd (withRetry fn retries w))
    = map (fun j : nat => (4 - Z.of_nat retries + Z.of_nat j) * 2000)
        (seq 0 (retriesMade (snd (withRetry fn retries w))))
    /\ (let delays := delaysOf (snd (withRetryDefault fn w)) in
        (delays = [] \/ delays = [ 2000 ] \/ delays = [ 2000; 4000 ]
         \/ delays = [ 2000; 4000; 6000 ])
        /\ 0 <= fold_right Z.add 0 delays <= 12000).
Proof.
  intros retries w. split; [ apply delays_schedule | ].
  cbv zeta. unfold withRetryDefault. rewrite delays_schedule.
  pose proof (withRetry_bounded World T fn 3 w) as [ Hk _ ].
  destruct (retriesMade (snd (withRetry fn 3 w))) as [ | [ | [ | [ | k ] ] ] ];
    [ | | | | lia ]; cbn; split; auto; lia.
Qed.

(** X13. An operation that keeps failing with a server-side 500 is called
    once more than the budget allows retries, and its last error is what
    the caller gets. *)
Theorem withRetry_exhausted :
  forall (retries : nat) (w : World),
    (forall w0 : World,
       exists err : JsVal,
         fst (fn w0) = Rejected err /\ isInternalError err = Fulfilled true) ->
    invocations (snd (withRetry fn retries w)) = S retries
    /\ retriesMade (snd (withRetry fn retries w)) = retries
    /\ fst (fst (withRetry fn retries w)) = fst (fn (worldAfter retries w)).
Proof.
  intros retries w Hdown. revert w.
  induction retries as [ | retries IH ]; intros w; rewrite withRetry_unfold;
    destruct (Hdown w) as (err & Hfn & Hclass);
    destruct (fn w) as [ c w1 ] eqn:Hcall; cbn [fst] in Hfn; subst c;
    rewrite Hclass.
  - cbn. rewrite Hcall. repeat split.
  - specialize (IH w1).
    destruct (withRetry fn retries w1) as [ [ result w2 ] events ].
    cbn [fst snd] in *. destruct IH as (Hinv & Hret & Hres).
    cbn [worldAfter]. rewrite Hcall. cbn [snd].
    unfold invocations, retriesMade in *. cbn [List.filter length].
    repeat split; [ lia | lia | exact Hres ].
Qed.

End Trace.

Lemma withRetry_exhausted_witness :
  (forall calls : nat,
     exists err : JsVal,
       fst (alwaysDown calls) = Rejected err
       /\ isInternalError err = Fulfilled true)
  /\ invocations (snd (withRetry alwaysDown 3 0%nat)) = 4%nat.
Proof.
  assert (Hdown : forall calls : nat,
            exists err : JsVal,
              fst (alwaysDown calls) = Rejected err
              /\ isInternalError err = Fulfilled true).
  { intros calls. exists status500. split; [ reflexivity | vm_compute; reflexivity ]. }
  split; [ exact Hdown | ].
  exact (proj1 (withRetry_exhausted nat string alwaysDown 3 0%nat Hdown)).
Defined.

(** X14. The test on the message is a test for a substring: any error whose
    message has the characters 500 somewhere in it is taken for a
    server-side failure, whatever its status. *)
Theorem message_with_500_is_internal :
  forall (o : gmap string JsVal) (before after : string),
    o !! "message"
      = Some (JStr (String.append before (String.append "500" after))) ->
    isInternalError (JObj o) = Fulfilled true.
Proof.
  intros o before after Hmsg. unfold isInternalError, messageIncludes500.
  cbn [getProp]. rewrite Hmsg. cbn [default from_option id].
  assert (Hinc : str_includes (String.append before (String.append "500" after))
                   "500" = true).
  { apply StringFacts.str_includes_occurs. exists before, after. reflexivity. }
  rewrite Hinc. reflexivity.
Qed.

(** A quota failure whose message happens to mention 1500 tokens. *)
Definition quotaWith1500 : gmap string JsVal :=
  <[ "status" := JNum (of_Z 429) ]>
    {[ "message" := JStr "Quota exhausted after 1500 tokens" ]}.

Lemma message_with_500_is_internal_witness :
  quotaWith1500 !! "message"
    = Some (JStr (String.append "Quota exhausted after 1"
                    (String.append "500" " tokens")))
  /\ isInternalError (JObj quotaWith1500) = Fulfilled true.
Proof.
  assert (Hmsg : quotaWith1500 !! "message"
                 = Some (JStr (String.append "Quota exhausted after 1"
                                 (String.append "500" " tokens"))))
    by (vm_compute; reflexivity).
  split; [ exact Hmsg | ].
  exact (message_with_500_is_internal quotaWith1500
           "Quota exhausted after 1" " tokens" Hmsg).
Defined.

End RetryTrace.

(* ===================================================================== *)
(** ** More on the endpoint *)
(* ===================================================================== *)

Module ApiOutcomes.
Import Api.

Lemma js_or_truthy (a b : JsVal) : truthy b = true -> truthy (js_or a b) = true.
Proof. intros Hb. unfold js_or. destruct (truthy a) eqn:Ha; assumption. Qed.

Section Endpoint.

Variable generateContent :
  GenerateContentParameters -> Completion (gmap string JsVal).

(** The parameters the endpoint forwards. *)
Definition paramsOf (req : VercelRequest) : GenerateContentParameters :=
  {| model := getProp (body req) "model";
     contents := getProp (body req) "contents";
     config := getProp (body req) "config" |}.

(** Lines 15-32: what happens once the body has been taken apart. *)
Definition validated (req : VercelRequest)
  : VercelResponse * list GenerateContentParameters :=
  if negb (truthy (getProp (body req) "model"))
     || negb (truthy (getProp (body req) "contents"))
  then
    ({| statusCode := 400;
        payload := JObj {[ "error" := JStr "Missing model or contents" ]} |}, [])
  else
    match generateContent (paramsOf req) with
    | Fulfilled response =>
        ({| statusCode := 200;
            payload :=
              JObj (<[ "text" := getProp (JObj response) "text" ]>
                    (<[ "raw" := JObj response ]> ∅)) |},
         [ paramsOf req ])
    | Rejected error => (requestFailed error, [ paramsOf req ])
    end.

(** A POST either fails on a body that cannot be taken apart, or is
    validated. *)
Lemma handler_post (req : VercelRequest) :
  method req = "POST" ->
  ((body req = JUndefined \/ body req = JNull)
   /\ handler generateContent req
      = (requestFailed
           (typeError
              (String.append "Cannot destructure property 'model' of 'req.body' as it is "
                 (match body req with JNull => "null." | _ => "undefined." end))),
         []))
  \/ ((body req <> JUndefined /\ body req <> JNull)
      /\ handler generateContent req = validated req).
Proof.
  intros Hm. unfold handler, validated, paramsOf. rewrite Hm.
  cbn [String.eqb Ascii.eqb Bool.eqb negb].
  destruct (body req) as [ | | b | n | s | l | o | t ];
    [ left; split; [ auto | reflexivity ]
    | left; split; [ auto | reflexivity ]
    | right; split; [ split; discriminate | reflexivity ] .. ].
Qed.


(** X16. A failure is always reported with details: the message of the error
    when it has a truthy one, the words [Unknown error] otherwise; and a
    failure without any call to the inference API can only come from a
    body that is [undefined] or [null]. *)
Theorem handler_failure_details :
  forall req : VercelRequest,
    statusCode (fst (handler generateContent req)) = 500 ->
    getProp (payload (fst (handler generateContent req))) "error"
      = JStr "Gemini request failed"
    /\ truthy (getProp (payload (fst (handler generateContent req))) "details")
       = true
    /\ (snd (handler generateContent req) = [] ->
        body req = JUndefined \/ body req = JNull)
    /\ (forall error : JsVal,
          generateContent (paramsOf req) = Rejected error ->
          snd (handler generateContent req) = [ paramsOf req ] ->
          getProp (payload (fst (handler generateContent req))) "details"
            = js_or (optProp error "message") (JStr "Unknown error")).
Proof.
  intros req.
  assert (Hfailed : forall error : JsVal,
            getProp (payload (requestFailed error)) "error"
              = JStr "Gemini request failed"
            /\ getProp (payload (requestFailed error)) "details"
               = js_or (optProp error "message") (JStr "Unknown error")).
  { intros error. unfold requestFailed. cbn [payload getProp].
    rewrite lookup_insert_eq, lookup_insert_ne by discriminate.
    rewrite lookup_insert_eq. split; reflexivity. }
  destruct (String.eqb_spec (method req) "POST") as [ Hm | Hm ].
  - destruct (handler_post req Hm) as [ [ Hbody -> ] | [ _ -> ] ].
    + intros _. cbn [fst snd].
      destruct (Hfailed
                  (typeError
                     (String.append
                        "Cannot destructure property 'model' of 'req.body' as it is "
                        (match body req with JNull => "null." | _ => "undefined." end))))
        as [ -> -> ].
      split; [ reflexivity | ].
      split; [ apply js_or_truthy; reflexivity | ].
      split; [ intros _; exact Hbody | ].
      intros error _ H. discriminate H.
    + unfold validated.
      destruct (negb (truthy _) || negb (truthy _)); [ discriminate | ].
      destruct (generateContent (paramsOf req)) as [ response | error ];
        [ discriminate | ].
      intros _. cbn [fst snd]. destruct (Hfailed error) as [ -> -> ].
      split; [ reflexivity | ].
      split; [ apply js_or_truthy; reflexivity | ].
      split; [ discriminate | ].
      intros error' [= <-] _. reflexivity.
  - unfold handler. apply String.eqb_neq in Hm. rewrite Hm. discriminate.
Qed.

End Endpoint.

(** An inference API that always throws [null]. *)
Definition throwsNull (_ : GenerateContentParameters)
  : Completion (gmap string JsVal) := Rejected JNull.

Definition sampleRequest : VercelRequest :=
  {| method := "POST";
     body := JObj (<[ "model" := JStr "gemini" ]> {[ "contents" := JStr "hello" ]}) |}.

Lemma handler_failure_details_witness :
  statusCode (fst (handler throwsNull sampleRequest)) = 500
  /\ getProp (payload (fst (handler throwsNull sampleRequest))) "details"
     = JStr "Unknown error".
Proof.
  assert (H500 : statusCode (fst (handler throwsNull sampleRequest)) = 500)
    by (vm_compute; reflexivity).
  split; [ exact H500 | ].
  destruct (handler_failure_details throwsNull sampleRequest H500)
    as (_ & _ & _ & Hdetails).
  rewrite (Hdetails JNull); [ reflexivity | reflexivity | vm_compute; reflexivity ].
Defined.

End ApiOutcomes.

(* ===================================================================== *)
(** ** Writing a report and reading it back *)
(* ===================================================================== *)

Module StoreFacts.
Import FirebaseService FirebaseServiceWrites Dashboard.

Lemma js_or_idem (x d : JsVal) : js_or (js_or x d) d = js_or x d.
Proof.
  unfold js_or. destruct (truthy x) eqn:Hx; [ rewrite Hx; reflexivity | ].
  destruct (truthy d); reflexivity.
Qed.

(** [(x || false) === false] holds exactly for a falsy [x]. *)
Lemma is_false_or_false (x : JsVal) :
  is_false (js_or x (JBool false)) = negb (truthy x).
Proof.
  unfold js_or. destruct (truthy x) eqn:Hx; [ | reflexivity ].
  destruct x as [ | | [ | ] | | | | | ]; try reflexivity; discriminate Hx.
Qed.

Section Written.

Variable serverTimestamp : JsVal.

(** What the written document holds under each key. *)
Lemma toFirestore_lookup (analysis : gmap string JsVal) (key : string) :
  toFirestore serverTimestamp analysis !! key
  = if String.eqb key "deletedByResponder"
    then Some (js_or (getProp (JObj analysis) "deletedByResponder") (JBool false))
    else if String.eqb key "updatedAt" then Some serverTimestamp
    else if String.eqb key "createdAt"
    then Some (js_or (getProp (JObj analysis) "createdAt") serverTimestamp)
    else if String.eqb key "agentName"
    then Some (getProp (JObj analysis) "agentName")
    else if String.eqb key "agentId"
    then Some (getProp (JObj analysis) "agentId")
    else analysis !! key.
Proof.
  unfold toFirestore.
  destruct (String.eqb_spec key "deletedByResponder") as [ -> | H1 ];
    [ apply lookup_insert_eq | rewrite lookup_insert_ne by congruence ].
  destruct (String.eqb_spec key "updatedAt") as [ -> | H2 ];
    [ apply lookup_insert_eq | rewrite lookup_insert_ne by congruence ].
  destruct (String.eqb_spec key "createdAt") as [ -> | H3 ];
    [ apply lookup_insert_eq | rewrite lookup_insert_ne by congruence ].
  destruct (String.eqb_spec key "agentName") as [ -> | H4 ];
    [ apply lookup_insert_eq | rewrite lookup_insert_ne by congruence ].
  destruct (String.eqb_spec key "agentId") as [ -> | H5 ];
    [ apply lookup_insert_eq | rewrite lookup_insert_ne by congruence ].
  reflexivity.
Qed.

(** Writing changes what can be read at three keys only.  Every other
    property of the written document reads as it did in the analysis
    ([agentId] and [agentName] are written over with their own values);
    [updatedAt] is the server timestamp; [createdAt] is the analysis' own
    when truthy and the server timestamp otherwise; [deletedByResponder]
    is the analysis' own when truthy and [false] otherwise. *)
Lemma toFirestore_reads :
  forall (analysis : gmap string JsVal),
    (forall key : string,
       key <> "createdAt" -> key <> "updatedAt" -> key <> "deletedByResponder" ->
       getProp (JObj (toFirestore serverTimestamp analysis)) key
       = getProp (JObj analysis) key)
    /\ getProp (JObj (toFirestore serverTimestamp analysis)) "updatedAt"
       = serverTimestamp
    /\ getProp (JObj (toFirestore serverTimestamp analysis)) "createdAt"
       = js_or (getProp (JObj analysis) "createdAt") serverTimestamp
    /\ getProp (JObj (toFirestore serverTimestamp analysis)) "deletedByResponder"
       = js_or (getProp (JObj analysis) "deletedByResponder") (JBool false)
    /\ (forall key : string,
          is_Some (analysis !! key) ->
          is_Some (toFirestore serverTimestamp analysis !! key)).
Proof.
  intros analysis.
  split.
  { intros key Hc Hu Hd. cbn [getProp]. rewrite toFirestore_lookup.
    apply String.eqb_neq in Hc, Hu, Hd. rewrite Hc, Hu, Hd.
    destruct (String.eqb_spec key "agentName") as [ -> | _ ]; [ reflexivity | ].
    destruct (String.eqb_spec key "agentId") as [ -> | _ ]; reflexivity. }
  split; [ cbn [getProp]; rewrite toFirestore_lookup; reflexivity | ].
  split; [ cbn [getProp]; rewrite toFirestore_lookup; reflexivity | ].
  split; [ cbn [getProp]; rewrite toFirestore_lookup; reflexivity | ].
  intros key Hsome. rewrite toFirestore_lookup.
  repeat (destruct (String.eqb _ _); [ eexists; reflexivity | ]).
  exact Hsome.
Qed.

(** X17. Writing twice is writing once. *)
Theorem toFirestore_idempotent :
  forall (analysis : gmap string JsVal),
    toFirestore serverTimestamp (toFirestore serverTimestamp analysis)
    = toFirestore serverTimestamp analysis.
Proof.
  intros analysis. apply map_eq. intros key.
  rewrite toFirestore_lookup.
  destruct (toFirestore_reads analysis) as (Hother & _ & Hcreated & Hdeleted & _).
  rewrite Hdeleted, Hcreated, !js_or_idem.
  rewrite (Hother "agentName"), (Hother "agentId") by discriminate.
  rewrite (toFirestore_lookup analysis key).
  repeat (destruct (String.eqb key _); [ reflexivity | ]).
  reflexivity.
Qed.

End Written.

(** Two reports that differ at most in their creation date. *)
Definition sameButCreatedAt (r1 r2 : CallAnalysis) : Prop :=
  id r1 = id r2
  /\ uploadDate r1 = uploadDate r2
  /\ agentId r1 = agentId r2
  /\ agentName r1 = agentName r2
  /\ clientName r1 = clientName r2
  /\ clientPhone r1 = clientPhone r2
  /\ clientConcern r1 = clientConcern r2
  /\ duration r1 = duration r2
  /\ conversionScore r1 = conversionScore r2
  /\ summary r1 = summary r2
  /\ sentiment r1 = sentiment r2
  /\ metrics r1 = metrics r2
  /\ compliance r1 = compliance r2
  /\ transcript r1 = transcript r2
  /\ feedback r1 = feedback r2
  /\ deletedByResponder r1 = deletedByResponder r2.

(** X18. A report written by [toFirestore] is read back by [fromFirestore] as
    the analysis itself would be read, the creation date apart: the write
    adds nothing that the read does not already default.  The creation
    date comes from the analysis' own [createdAt] when that is truthy and
    from the server timestamp otherwise; and the report is among those a
    responder is shown exactly when the analysis had no truthy
    [deletedByResponder]. *)
Theorem written_report_reads_back :
  forall (serverTimestamp : JsVal) (reportId : string)
         (analysis : gmap string JsVal),
    let written :=
      {| snapshot_id := reportId;
         snapshot_data := toFirestore serverTimestamp analysis |} in
    let direct := {| snapshot_id := reportId; snapshot_data := analysis |} in
    sameButCreatedAt (fromFirestore written) (fromFirestore direct)
    /\ createdAt (fromFirestore written)
       = match js_or (getProp (JObj analysis) "createdAt") serverTimestamp with
         | JTimestamp millis => DateOfTimestamp millis
         | _ =>
             if truthy (getProp (JObj analysis) "uploadDate")
             then DateOfValue (getProp (JObj analysis) "uploadDate")
             else DateEpoch
         end
    /\ responderReports [ fromFirestore written ]
       = if truthy (getProp (JObj analysis) "deletedByResponder") then []
         else [ fromFirestore written ].
Proof.
  intros serverTimestamp reportId analysis. cbv zeta.
  destruct (toFirestore_reads serverTimestamp analysis)
    as (Hother & _ & Hcreated & Hdeleted & _).
  split.
  { unfold sameButCreatedAt, fromFirestore.
    cbn [snapshot_id snapshot_data id uploadDate agentId agentName clientName
         clientPhone clientConcern duration conversionScore summary sentiment
         metrics compliance transcript feedback deletedByResponder].
    rewrite Hdeleted, js_or_idem.
    rewrite !Hother by discriminate.
    repeat split. }
  split.
  { unfold fromFirestore. cbn [snapshot_data createdAt].
    rewrite Hcreated. rewrite (Hother "uploadDate") by discriminate.
    reflexivity. }
  unfold responderReports. cbn [List.filter].
  replace (deletedByResponder
             (fromFirestore
                {| snapshot_id := reportId;
                   snapshot_data := toFirestore serverTimestamp analysis |}))
    with (js_or (getProp (JObj analysis) "deletedByResponder") (JBool false)).
  - rewrite is_false_or_false.
    destruct (truthy (getProp (JObj analysis) "deletedByResponder")); reflexivity.
  - unfold fromFirestore. cbn [snapshot_data deletedByResponder].
    rewrite Hdeleted, js_or_idem. reflexivity.
Qed.

(** X19. What a responder is shown: the reports whose stored
    [deletedByResponder] is falsy.  The strict comparison with [false] of
    the dashboard meets the default of the converter, so a report whose
    flag is missing, [null], 0 or the empty string is shown, and one whose
    flag is any truthy value is hidden. *)
Theorem responder_sees_undeleted_reports :
  forall snapshots : list QueryDocumentSnapshot,
    responderReports (map fromFirestore snapshots)
    = map fromFirestore
        (List.filter
           (fun snapshot =>
              negb (truthy (getProp (JObj (snapshot_data snapshot))
                              "deletedByResponder")))
           snapshots).
Proof.
  induction snapshots as [ | snapshot snapshots IH ]; [ reflexivity | ].
  unfold responderReports in *. cbn [map List.filter].
  replace (is_false (deletedByResponder (fromFirestore snapshot)))
    with (negb (truthy (getProp (JObj (snapshot_data snapshot))
                          "deletedByResponder")))
    by (symmetry; apply is_false_or_false).
  destruct (negb (truthy (getProp (JObj (snapshot_data snapshot))
                            "deletedByResponder")));
    cbn [map]; rewrite IH; reflexivity.
Qed.

(** A call whose client sentiment is none of the three labels. *)
Definition unlabelled (c : CallAnalysis) : bool :=
  negb (clientSentimentIs "Positive" c)
  && negb (clientSentimentIs "Neutral" c)
  && negb (clientSentimentIs "Negative" c).

(** A call carries at most one of the three labels. *)
Lemma one_label (c : CallAnalysis) :
  (clientSentimentIs "Positive" c = true ->
   clientSentimentIs "Neutral" c = false /\ clientSentimentIs "Negative" c = false)
  /\ (clientSentimentIs "Neutral" c = true ->
      clientSentimentIs "Negative" c = false).
Proof.
  unfold clientSentimentIs.
  destruct (optProp (sentiment c) "client") as [ | | | | s | | | ];
    try (split; intros; discriminate).
  split.
  - intros H. apply String.eqb_eq in H. subst s. split; reflexivity.
  - intros H. apply String.eqb_eq in H. subst s. reflexivity.
Qed.

(** X20. The three sentiment counts of the dashboard never add up to more
    than the total, and fall short of it by exactly the calls whose client
    sentiment is none of Positive, Neutral and Negative. *)
Theorem metricsStats_counts :
  forall calls : list CallAnalysis,
    (positive (metricsStats calls) + neutral (metricsStats calls)
     + negative (metricsStats calls)
     + length (List.filter unlabelled calls))%nat
    = total (metricsStats calls)
    /\ (positive (metricsStats calls) + neutral (metricsStats calls)
        + negative (metricsStats calls) <= total (metricsStats calls))%nat.
Proof.
  intros calls.
  assert (Hsum :
    (positive (metricsStats calls) + neutral (metricsStats calls)
     + negative (metricsStats calls)
     + length (List.filter unlabelled calls))%nat
    = total (metricsStats calls)).
  { unfold metricsStats. cbn [positive neutral negative total].
    induction calls as [ | c calls IH ]; [ reflexivity | ].
    cbn [List.filter length]. unfold unlabelled at 1.
    destruct (one_label c) as [ Hpos Hneu ].
    destruct (clientSentimentIs "Positive" c).
    - destruct (Hpos eq_refl) as [ -> -> ]. cbn [negb andb length]. lia.
    - destruct (clientSentimentIs "Neutral" c).
      + rewrite (Hneu eq_refl). cbn [negb andb length]. lia.
      + destruct (clientSentimentIs "Negative" c); cbn [negb andb length]; lia. }
  split; [ exact Hsum | lia ].
Qed.

End StoreFacts.

(* ===================================================================== *)
(** ** The two readers of the admin rules *)
(* ===================================================================== *)

Module RulesFacts.
Import FirebaseServiceWrites FileUpload.


(** Rules stored as an array of lines are joined as they are. *)
Lemma join_lines (toStringOf : JsVal -> string) (sep : string) (lines : list string) :
  join toStringOf sep (map JStr lines) = String.concat sep lines.
Proof.
  unfold join. rewrite map_map. cbn [joinElement]. rewrite map_id. reflexivity.
Qed.

End RulesFacts.

(* ===================================================================== *)
(** ** Saving a report and finding it on the dashboard *)
(* ===================================================================== *)

Module SaveFacts.
Import FirebaseService Dashboard StoreFacts.

(** A responder, and a result as the analysis might return it. *)
Definition asha : Types.User := {| Types.id := "u-17"; Types.name := "Asha" |}.

Definition freshResult : gmap string JsVal :=
  <[ "id" := JStr "r-1" ]>
    (<[ "conversionScore" := JNum (of_Z 70) ]>
       {[ "deletedByResponder" := JBool true ]}).

(** X22. A report saved for a signed-in user comes back on that user's
    dashboard.  Read through the converter, the saved document carries the
    user's id as [agentId] and [false] as [deletedByResponder], whatever
    the result said about either; so the responder's query finds it and the
    filter keeps it.  Every property but [agentId], [agentName],
    [createdAt] and [deletedByResponder] is saved as the result had it, and
    the date made on the client never reaches the document. *)
Theorem saved_report_on_dashboard :
  forall (serverTimestamp now : JsVal) (user : Types.User)
         (result document : gmap string JsVal) (reportId : string)
         (others : list QueryDocumentSnapshot),
    savedDocument serverTimestamp now (Some user) result = Some document ->
    let snapshot := {| snapshot_id := reportId; snapshot_data := document |} in
    agentId (fromFirestore snapshot) = JStr (Types.id user)
    /\ deletedByResponder (fromFirestore snapshot) = JBool false
    /\ responderView user (snapshot :: others)
       = fromFirestore snapshot :: responderView user others
    /\ (forall key : string,
          key <> "agentId" -> key <> "agentName" -> key <> "createdAt" ->
          key <> "deletedByResponder" ->
          document !! key = result !! key)
    /\ document !! "createdAt" = Some serverTimestamp
    /\ (forall now' : JsVal,
          savedDocument serverTimestamp now' (Some user) result = Some document).
Proof.
  intros serverTimestamp now user result document reportId others Hsaved.
  cbv zeta. unfold savedDocument in Hsaved.
  destruct (String.eqb_spec (Types.id user) "") as [ | Hid ]; [ discriminate | ].
  injection Hsaved as <-.
  assert (Hagent :
    getProp (JObj (<[ "createdAt" := serverTimestamp ]>
                     (callReportToSave now user result))) "agentId"
    = JStr (Types.id user)).
  { cbn [getProp]. unfold callReportToSave.
    rewrite !lookup_insert_ne by discriminate. rewrite lookup_insert_eq.
    reflexivity. }
  assert (Hdeleted :
    getProp (JObj (<[ "createdAt" := serverTimestamp ]>
                     (callReportToSave now user result))) "deletedByResponder"
    = JBool false).
  { cbn [getProp]. unfold callReportToSave.
    rewrite lookup_insert_ne by discriminate. rewrite lookup_insert_eq.
    reflexivity. }
  assert (Hr1 :
    agentId (fromFirestore
               {| snapshot_id := reportId;
                  snapshot_data :=
                    <[ "createdAt" := serverTimestamp ]>
                      (callReportToSave now user result) |})
    = JStr (Types.id user)).
  { unfold fromFirestore. cbn [snapshot_data agentId]. rewrite Hagent.
    unfold js_or. cbn [truthy].
    apply String.eqb_neq in Hid. rewrite Hid. reflexivity. }
  assert (Hr2 :
    deletedByResponder
      (fromFirestore
         {| snapshot_id := reportId;
            snapshot_data :=
              <[ "createdAt" := serverTimestamp ]>
                (callReportToSave now user result) |})
    = JBool false).
  { unfold fromFirestore. cbn [snapshot_data deletedByResponder].
    rewrite Hdeleted. reflexivity. }
  split; [ exact Hr1 | ]. split; [ exact Hr2 | ].
  split.
  { unfold responderView, ownReportsQuery. cbn [List.filter snapshot_data].
    rewrite Hagent, String.eqb_refl. cbn [map].
    unfold responderReports. cbn [List.filter]. rewrite Hr2. reflexivity. }
  split.
  { intros key Ha Hn Hc Hd. unfold callReportToSave.
    rewrite !lookup_insert_ne by congruence. reflexivity. }
  split; [ apply lookup_insert_eq | ].
  intros now'. unfold savedDocument.
  apply String.eqb_neq in Hid. rewrite Hid. f_equal.
  unfold callReportToSave. apply map_eq. intros key.
  destruct (String.eqb_spec key "createdAt") as [ -> | Hc ].
  - rewrite !lookup_insert_eq. reflexivity.
  - rewrite !(lookup_insert_ne _ "createdAt") by congruence.
    destruct (String.eqb_spec key "deletedByResponder") as [ -> | Hd ].
    + rewrite !lookup_insert_eq. reflexivity.
    + rewrite !(lookup_insert_ne _ "deletedByResponder") by congruence.
      rewrite !(lookup_insert_ne _ "createdAt") by congruence. reflexivity.
Qed.

Lemma saved_report_on_dashboard_witness :
  savedDocument (JTimestamp 1700000000000) JNull (Some asha) freshResult
    = Some (<[ "createdAt" := JTimestamp 1700000000000 ]>
              (callReportToSave JNull asha freshResult))
  /\ deletedByResponder
       (fromFirestore
          {| snapshot_id := "r-1";
             snapshot_data :=
               <[ "createdAt" := JTimestamp 1700000000000 ]>
                 (callReportToSave JNull asha freshResult) |})
     = JBool false.
Proof.
  assert (Hsaved :
    savedDocument (JTimestamp 1700000000000) JNull (Some asha) freshResult
    = Some (<[ "createdAt" := JTimestamp 1700000000000 ]>
              (callReportToSave JNull asha freshResult)))
    by reflexivity.
  split; [ exact Hsaved | ].
  exact (proj1 (proj2 (saved_report_on_dashboard (JTimestamp 1700000000000) JNull
                         asha freshResult _ "r-1" [] Hsaved))).
Defined.

End SaveFacts.
